(** * spacemesh-db-connector: ingestion sink and derived network state

    A shallow embedding of [network/state.go] (the derived state cache) and
    of the NATS sink (consumer bootstrap and the per-subject consumption
    loops), with the properties the specification states about them.

    Conventions.
    - Go's fixed-width integers are values of [Z]; every conversion and every
      arithmetic operation that can wrap is written out ([uint64], [uint32],
      [int64] below).
    - Go strings are [string] (a sequence of bytes); byte slices are lists
      of [Z] in [0, 256).
    - A Go pair [(v, err)] is a [result]: [Ok v] when [err == nil].
    - [float64] is IEEE-754 binary64 as specified by [SpecFloat]
      (precision 53, emax 1024).
    - [sync.Map] is a finite map ([gmap]); a missing key is [None]. *)

From Stdlib Require Import ZArith Lia SpecFloat Ascii String.
From stdpp Require Import base option list gmap strings.
From Equations Require Import Equations.

Local Open Scope Z_scope.

(** ** Fixed-width integers *)

Definition uint64 (x : Z) : Z := x mod 2 ^ 64.
Definition uint32 (x : Z) : Z := x mod 2 ^ 32.
Definition int64 (x : Z) : Z := (x + 2 ^ 63) mod 2 ^ 64 - 2 ^ 63.

Definition MaxUint32 : Z := 4294967295.

(** ** Errors and results *)

(** The error values that reach this code: the two errors of
    [encoding/hex], and whatever a collaborator reports. *)
Inductive error :=
| ErrLength
| InvalidByteError (b : Z)
| ErrCollaborator (msg : string).

Inductive result (A : Type) :=
| Ok (v : A)
| Err (e : error).
Arguments Ok {A} v.
Arguments Err {A} e.

Definition is_ok {A} (r : result A) : bool :=
  match r with Ok _ => true | Err _ => false end.

(** ** float64 *)

Definition float64 := spec_float.

Definition float64_mul : float64 -> float64 -> float64 := SFmul 53 1024.

(** [float64(x)] for an integer [x]: round to nearest, ties to even. *)
Definition float64_of_int (x : Z) : float64 := binary_normalize 53 1024 x 0 false.

(** The integer part of a finite float (rounding toward zero). *)
Definition float64_trunc (f : float64) : option Z :=
  match f with
  | S754_zero _ => Some 0
  | S754_finite s m e =>
      Some (cond_Zopp s (if 0 <=? e then Z.pos m * 2 ^ e else Z.pos m / 2 ^ (- e)))
  | S754_infinity _ | S754_nan => None
  end.

(** [uint64(f)]. When the truncated value is not representable Go leaves the
    result to the implementation; [unspecified] stands for that choice. *)
Definition uint64_of_float64 (unspecified : float64 -> Z) (f : float64) : Z :=
  match float64_trunc f with
  | Some z => if (0 <=? z) && (z <? 2 ^ 64) then z else uint64 (unspecified f)
  | None => uint64 (unspecified f)
  end.

(** ** encoding/hex and encoding/base64 *)

Module hex.

Definition byte_of (c : ascii) : Z := Z.of_N (Ascii.N_of_ascii c).

(** [reverseHexTable]: the value of a hex digit, [255] for any other byte. *)
Definition reverseHexTable (c : Z) : Z :=
  if (48 <=? c) && (c <=? 57) then c - 48
  else if (97 <=? c) && (c <=? 102) then c - 97 + 10
  else if (65 <=? c) && (c <=? 70) then c - 65 + 10
  else 255.

Fixpoint Decode (src : list Z) : result (list Z) :=
  match src with
  | [] => Ok []
  | [p] => if 15 <? reverseHexTable p then Err (InvalidByteError p) else Err ErrLength
  | p :: q :: rest =>
      let a := reverseHexTable p in
      let b := reverseHexTable q in
      if 15 <? a then Err (InvalidByteError p)
      else if 15 <? b then Err (InvalidByteError q)
      else match Decode rest with
           | Ok bs => Ok (Z.lor (Z.shiftl a 4) b :: bs)
           | Err e => Err e
           end
  end.

Definition DecodeString (s : string) : result (list Z) :=
  Decode (map byte_of (String.list_ascii_of_string s)).

End hex.

Module base64.

Definition encodeStd : string :=
  "ABCDEFGHIJKLMNOPQRSTUVWXYZabcdefghijklmnopqrstuvwxyz0123456789+/".

Definition enc (i : Z) : ascii :=
  match String.get (Z.to_nat i) encodeStd with
  | Some c => c
  | None => "="%char
  end.

Definition sextet (val shift : Z) : ascii :=
  enc (Z.land (Z.shiftr val shift) 63).

Fixpoint Encode (src : list Z) : list ascii :=
  match src with
  | [] => []
  | [b0] =>
      let val := Z.shiftl b0 16 in
      [sextet val 18; sextet val 12; "="%char; "="%char]
  | [b0; b1] =>
      let val := Z.lor (Z.shiftl b0 16) (Z.shiftl b1 8) in
      [sextet val 18; sextet val 12; sextet val 6; "="%char]
  | b0 :: b1 :: b2 :: rest =>
      let val := Z.lor (Z.lor (Z.shiftl b0 16) (Z.shiftl b1 8)) b2 in
      sextet val 18 :: sextet val 12 :: sextet val 6 :: sextet val 0 :: Encode rest
  end.

Definition EncodeToString (src : list Z) : string :=
  String.string_of_list_ascii (Encode src).

End base64.

(** [hexToBase64] of network/state.go. *)
Definition hexToBase64 (hexString : string) : result string :=
  match hex.DecodeString hexString with
  | Err err => Err err
  | Ok bytes => Ok (base64.EncodeToString bytes)
  end.

(** ** Collaborators of the derived state cache

    The packages [database], [types] and [price] and the [NetworkUtils]
    helper are imported by network/state.go; what is modelled of them is
    the part state.go uses: the fields it reads or writes and the calls it
    makes. A query of the read-side store is a function of its arguments:
    within one refresh cycle no query is issued twice with the same
    arguments, so this loses no behaviour of a cycle; between cycles the
    store may be replaced (see [with_db]). *)

Module database.

Record LayerDoc := { Layer : Z }.
Record AtxEpoch := { TotalWeight : Z; TotalEffectiveNumUnits : Z }.
Record Atx := { AtxID : string; NodeID : string; BaseTick : Z; TickCount : Z }.
Record MalfeasanceNode := { ID : string }.
Record NetworkInfo := { CirculatingSupply : Z }.

Record ReadDB := {
  GetLastProcessedLayer : result LayerDoc;
  CountAtxEpoch : Z -> result Z;
  CountAccounts : result Z;
  GetNetworkInfo : result NetworkInfo;
  GetAtxEpoch : Z -> result AtxEpoch;
  GetAtxForEpoch : Z -> result (list Atx);
  GetMalfeasanceNodes : result (list MalfeasanceNode)
}.

End database.

Module types.

Record NetworkInfoNextEpoch := {
  NextEpoch_Epoch : Z;
  NextEpoch_EffectiveUnitsCommited : Z;
  NextEpoch_TotalActiveSmeshers : Z
}.

Record NetworkInfo := {
  Epoch : Z;
  EpochSubsidy : Z;
  Layer : Z;
  TotalSlots : Z;
  TotalWeight : Z;
  EffectiveUnitsCommited : Z;
  CirculatingSupply : Z;
  Price : float64;
  MarketCap : Z;
  TotalAccounts : Z;
  AtxHex : string;
  AtxBase64 : string;
  TotalActiveSmeshers : Z;
  NextEpoch : option NetworkInfoNextEpoch
}.

(** [types.NetworkInfo{}]: every field at its zero value, the pointer nil. *)
Definition zero : NetworkInfo := {|
  Epoch := 0; EpochSubsidy := 0; Layer := 0; TotalSlots := 0;
  TotalWeight := 0; EffectiveUnitsCommited := 0; CirculatingSupply := 0;
  Price := S754_zero false; MarketCap := 0; TotalAccounts := 0;
  AtxHex := ""; AtxBase64 := ""; TotalActiveSmeshers := 0;
  NextEpoch := None
|}.

End types.

Module price.
Record PriceResolver := { GetPrice : float64 }.
End price.

Module NetworkUtils.
(** [GetEpoch] returns an epoch identifier, a 32-bit unsigned integer with
    a [Uint32] method; [GetEpochSubsidy] returns a [uint64] (the table
    entries are read back as such); [GetNumberOfSlots(weight uint64, weight,
    epoch uint32)] may fail. All three are pure. *)
Record t := {
  GetEpoch : Z -> Z;
  GetEpochSubsidy : Z -> Z;
  GetNumberOfSlots : Z -> Z -> Z -> result Z
}.
End NetworkUtils.

(** ** network/state.go *)

Module network.

Definition INFO_KEY : string := "info".

Record NetworkState := {
  db : database.ReadDB;
  networkUtils : NetworkUtils.t;
  networkInfo : gmap string types.NetworkInfo;
  epochSubsidies : gmap Z Z;
  priceResolver : price.PriceResolver
}.

(** What a method does that is visible outside it: the calls it makes on
    its collaborators, what it prints, and what it stores. *)
Inductive event :=
| CallGetLastProcessedLayer
| CallCountAtxEpoch (epoch : Z)
| CallCountAccounts
| CallGetNetworkInfo
| CallGetAtxEpoch (epoch : Z)
| CallGetAtxForEpoch (epoch : Z)
| CallGetMalfeasanceNodes
| CallGetEpoch (layer : Z)
| CallGetEpochSubsidy (epoch : Z)
| CallGetNumberOfSlots (weight1 weight2 epoch : Z)
| CallGetPrice
| Printf (format : string) (err : error)
| StoreNetworkInfo (key : string) (v : types.NetworkInfo)
| StoreEpochSubsidies (key : Z) (v : Z).

Definition is_store_info (e : event) : bool :=
  match e with StoreNetworkInfo _ _ => true | _ => false end.

Record machine := { self : NetworkState; trace : list event }.

(** A method body: it reads and updates the receiver, appends to the
    trace, and either runs to its end ([Some]) or returns early ([None]). *)
Definition M (A : Type) : Type := machine -> option A * machine.

Definition ret {A} (a : A) : M A := fun m => (Some a, m).
Definition bind {A B} (c : M A) (k : A -> M B) : M B :=
  fun m => match c m with
           | (Some a, m') => k a m'
           | (None, m') => (None, m')
           end.
Definition return_ {A} : M A := fun m => (None, m).
Definition emit (e : event) : M unit :=
  fun m => (Some tt, {| self := self m; trace := trace m ++ [e] |}).
Definition receiver : M NetworkState := fun m => (Some (self m), m).

Declare Scope go_scope.
Delimit Scope go_scope with go.
Notation "x <- c ;; k" := (bind c (fun x => k))
  (at level 100, c at next level, right associativity) : go_scope.
Notation "c ;;; k" := (bind c (fun _ => k))
  (at level 100, right associativity) : go_scope.
Local Open Scope go_scope.

(** A call on a collaborator: recorded, then answered. *)
Definition call {A} (e : event) (f : NetworkState -> A) : M A :=
  emit e ;;; n <- receiver ;; ret (f n).

(** [v, err := c; if err != nil { fmt.Printf(format, err.Error()); return }] *)
Definition or_return {A} (c : M (result A)) (format : string) : M A :=
  r <- c ;;
  match r with
  | Ok v => ret v
  | Err err => emit (Printf format err) ;;; return_
  end.

(** [n.networkInfo.Store(key, v)] and [n.epochSubsidies.Store(key, v)] *)
Definition networkInfo_Store (key : string) (v : types.NetworkInfo) : M unit :=
  fun m =>
    (Some tt,
     {| self := {| db := db (self m);
                   networkUtils := networkUtils (self m);
                   networkInfo := <[key := v]> (networkInfo (self m));
                   epochSubsidies := epochSubsidies (self m);
                   priceResolver := priceResolver (self m) |};
        trace := trace m ++ [StoreNetworkInfo key v] |}).

Definition epochSubsidies_Store (key : Z) (v : Z) : M unit :=
  fun m =>
    (Some tt,
     {| self := {| db := db (self m);
                   networkUtils := networkUtils (self m);
                   networkInfo := networkInfo (self m);
                   epochSubsidies := <[key := v]> (epochSubsidies (self m));
                   priceResolver := priceResolver (self m) |};
        trace := trace m ++ [StoreEpochSubsidies key v] |}).

Definition GetInfo (n : NetworkState) : types.NetworkInfo :=
  match networkInfo n !! INFO_KEY with
  | None => types.zero
  | Some info => info
  end.

Definition GetEpochSubsidy (n : NetworkState) (epoch : Z) : Z :=
  match epochSubsidies n !! epoch with
  | None => 0
  | Some subsidy => subsidy
  end.

(** *** getHigestAtx *)

Definition malfeasanceNodesMap (nodes : list database.MalfeasanceNode) : gmap string bool :=
  fold_left (fun m v => <[database.ID v := true]> m) nodes ∅.

(** [m[k]] on a Go [map[string]bool]: [false] when the key is missing. *)
Definition index (m : gmap string bool) (k : string) : bool :=
  default false (m !! k).

Definition atxHeight (atx : database.Atx) : Z :=
  uint64 (database.BaseTick atx + database.TickCount atx).

(** One pass of the selection loop; the state is [(maxHeight, atxID)]. *)
Definition selectStep (mal : gmap string bool) (acc : Z * string)
    (atx : database.Atx) : Z * string :=
  let '(maxHeight, atxID) := acc in
  if (uint64 maxHeight <? atxHeight atx) && negb (index mal (database.NodeID atx))
  then (atxHeight atx, database.AtxID atx)
  else (maxHeight, atxID).

Definition selectHighest (atxs : list database.Atx)
    (nodes : list database.MalfeasanceNode) : string :=
  snd (fold_left (selectStep (malfeasanceNodesMap nodes)) atxs (0, "")).

Definition getHigestAtx (epoch : Z) : M (result string) :=
  r1 <- call (CallGetAtxForEpoch epoch) (fun n => database.GetAtxForEpoch (db n) epoch) ;;
  match r1 with
  | Err err => ret (Err err)
  | Ok atxs =>
      r2 <- call CallGetMalfeasanceNodes (fun n => database.GetMalfeasanceNodes (db n)) ;;
      match r2 with
      | Err err => ret (Err err)
      | Ok malfeasanceNodes => ret (Ok (selectHighest atxs malfeasanceNodes))
      end
  end.

(** *** fetchNetworkInfo *)

Section Refresh.

(** The value of [uint64(f)] where Go does not define it. *)
Variable unspecified : float64 -> Z.

Definition fetchNetworkInfo : M unit :=
  layer <- or_return
    (call CallGetLastProcessedLayer (fun n => database.GetLastProcessedLayer (db n)))
    "Failed to get last processed layer: %s" ;;
  epoch <- call (CallGetEpoch (uint64 (database.Layer layer)))
    (fun n => uint32 (NetworkUtils.GetEpoch (networkUtils n) (uint64 (database.Layer layer)))) ;;
  atxEpoch <- or_return
    (call (CallCountAtxEpoch (uint64 (uint32 (epoch - 1))))
       (fun n => database.CountAtxEpoch (db n) (uint64 (uint32 (epoch - 1)))))
    "Failed to count atx epoch: %s" ;;
  atxNextEpoch <- or_return
    (call (CallCountAtxEpoch (uint64 epoch))
       (fun n => database.CountAtxEpoch (db n) (uint64 epoch)))
    "Failed to count next atx epoch: %s" ;;
  totalAccounts <- or_return
    (call CallCountAccounts (fun n => database.CountAccounts (db n)))
    "Failed to count accounts: %s" ;;
  networkInfo <- or_return
    (call CallGetNetworkInfo (fun n => database.GetNetworkInfo (db n)))
    "Failed to get network info: %s" ;;
  atxEpochTotals <- or_return
    (call (CallGetAtxEpoch (uint64 (uint32 (epoch - 1))))
       (fun n => database.GetAtxEpoch (db n) (uint64 (uint32 (epoch - 1)))))
    "Failed to get epoch totals: %s" ;;
  atxNextEpochTotals <- or_return
    (call (CallGetAtxEpoch (uint64 epoch))
       (fun n => database.GetAtxEpoch (db n) (uint64 epoch)))
    "Failed to get next epoch totals: %s" ;;
  hexAtx <- or_return (getHigestAtx (uint64 (uint32 (epoch - 1))))
    "Failed to get highest atx: %s" ;;
  base64Atx <- or_return (ret (hexToBase64 hexAtx))
    "Failed to get base64 atx: %s" ;;
  totalSlots <- or_return
    (call (CallGetNumberOfSlots (uint64 (database.TotalWeight atxEpochTotals))
             (database.TotalWeight atxEpochTotals) epoch)
       (fun n => NetworkUtils.GetNumberOfSlots (networkUtils n)
                   (uint64 (database.TotalWeight atxEpochTotals))
                   (database.TotalWeight atxEpochTotals) epoch))
    "Failed to get total slots: %s" ;;
  let genisesAccounts := 28 in
  price <- call CallGetPrice (fun n => price.GetPrice (priceResolver n)) ;;
  epochSubsidy <- call (CallGetEpochSubsidy (uint64 epoch))
    (fun n => NetworkUtils.GetEpochSubsidy (networkUtils n) (uint64 epoch)) ;;
  let info := {|
    types.Epoch := epoch;
    types.EpochSubsidy := epochSubsidy;
    types.Layer := uint64 (database.Layer layer);
    types.TotalSlots := uint64 totalSlots;
    types.TotalWeight := database.TotalWeight atxEpochTotals;
    types.EffectiveUnitsCommited := database.TotalEffectiveNumUnits atxEpochTotals;
    types.CirculatingSupply := database.CirculatingSupply networkInfo;
    types.Price := price;
    types.MarketCap :=
      uint64_of_float64 unspecified
        (float64_mul (float64_of_int (database.CirculatingSupply networkInfo)) price);
    types.TotalAccounts := uint64 (int64 (totalAccounts + genisesAccounts));
    types.AtxHex := hexAtx;
    types.AtxBase64 := base64Atx;
    types.TotalActiveSmeshers := uint64 atxEpoch;
    types.NextEpoch := Some {|
      types.NextEpoch_Epoch := uint32 (epoch + 1);
      types.NextEpoch_EffectiveUnitsCommited :=
        int64 (database.TotalEffectiveNumUnits atxNextEpochTotals);
      types.NextEpoch_TotalActiveSmeshers := atxNextEpoch
    |}
  |} in
  networkInfo_Store INFO_KEY info.

End Refresh.

(** *** calculateEpochSubsidies *)

(** The body of the loop, for the epoch [i]. *)
Definition storeSubsidy (i : Z) : M unit :=
  epochSubsidy <- call (CallGetEpochSubsidy (uint64 i))
    (fun n => NetworkUtils.GetEpochSubsidy (networkUtils n) (uint64 i)) ;;
  epochSubsidies_Store i epochSubsidy.

(** [for i := ...; i >= 2; i-- { ... }] on a 32-bit unsigned [i]. *)
Equations? subsidyLoop (i : Z) (m : machine) : option unit * machine
    by wf (Z.to_nat i) lt :=
  subsidyLoop i m with Z_le_dec 2 i => {
    | left _ => subsidyLoop (uint32 (i - 1)) (snd (storeSubsidy i m))
    | right _ => (Some tt, m) }.
Proof.
  unfold uint32.
  assert (0 <= (i - 1) mod 2 ^ 32 <= i - 1); [|lia].
  split; [apply Z.mod_pos_bound; lia | apply Z.mod_le; lia].
Qed.

Definition calculateEpochSubsidies : M unit :=
  layer <- or_return
    (call CallGetLastProcessedLayer (fun n => database.GetLastProcessedLayer (db n)))
    "Failed to get last processed layer: %s" ;;
  epoch <- call (CallGetEpoch (uint64 (database.Layer layer)))
    (fun n => uint32 (NetworkUtils.GetEpoch (networkUtils n) (uint64 (database.Layer layer)))) ;;
  subsidyLoop (uint32 (epoch + 1)).

(** A method call [n.f()]: the receiver afterwards, and what was observed. *)
Definition run (f : M unit) (n : NetworkState) : NetworkState * list event :=
  let m := snd (f {| self := n; trace := [] |}) in (self m, trace m).

(** [NewNetworkState], up to the first run of each job; the tickers then
    repeat the two jobs every 60 seconds. *)
Definition NewNetworkState (unspecified : float64 -> Z) (d : database.ReadDB)
    (utils : NetworkUtils.t) (resolver : price.PriceResolver)
    : NetworkState * list event :=
  let state := {| db := d; networkUtils := utils; networkInfo := ∅;
                  epochSubsidies := ∅; priceResolver := resolver |} in
  let '(state, observed1) := run (fetchNetworkInfo unspecified) state in
  let '(state, observed2) := run calculateEpochSubsidies state in
  (state, observed1 ++ observed2).

(** The read-side store as it is when the next cycle starts. *)
Definition with_db (d : database.ReadDB) (n : NetworkState) : NetworkState :=
  {| db := d; networkUtils := networkUtils n; networkInfo := networkInfo n;
     epochSubsidies := epochSubsidies n; priceResolver := priceResolver n |}.

End network.

(** ** The ingestion sink *)

Module nats.

Inductive AckPolicy := AckNonePolicy | AckAllPolicy | AckExplicitPolicy.
Inductive DeliverPolicy :=
| DeliverAllPolicy | DeliverLastPolicy | DeliverNewPolicy.

Record ConsumerConfig := {
  Durable : string;
  DeliverSubject : string;
  DeliverGroup : string;
  AckPolicy_ : AckPolicy;
  DeliverPolicy_ : DeliverPolicy
}.

Record Msg := { Data : string }.

(** The error of [Fetch], as far as the loops tell errors apart. *)
Inductive FetchErr := ErrTimeout | ErrOther (msg : string).

End nats.

Module sink.

(** What [NewSink] asks of the JetStream context, in order. *)
Inductive jsCall :=
| AddConsumer (stream : string) (cfg : nats.ConsumerConfig)
| PullSubscribe (subj durable bindStream : string).

Definition consumer (durable subject group : string) : nats.ConsumerConfig :=
  {| nats.Durable := durable;
     nats.DeliverSubject := subject;
     nats.DeliverGroup := group;
     nats.AckPolicy_ := nats.AckExplicitPolicy;
     nats.DeliverPolicy_ := nats.DeliverLastPolicy |}.

(** [NewSink]: [None] is the panic on a failed connection. *)
Definition NewSink (connected : bool) : option (list jsCall) :=
  if negb connected then None
  else Some [
    AddConsumer "layers"
      (consumer "state-api-process" "layers" "state-api-process-layers");
    AddConsumer "rewards"
      (consumer "state-api-process-rewards" "rewards" "state-api-process-rewards");
    AddConsumer "atx"
      (consumer "state-api-process-atx" "atx" "state-api-process-atx");
    AddConsumer "transactions"
      (consumer "state-api-process-transactions-result" "transactions.result"
         "state-api-process-transactions");
    AddConsumer "transactions"
      (consumer "state-api-process-transactions-created" "transactions.created"
         "state-api-process-transactions");
    PullSubscribe "layers" "layers" "layers";
    PullSubscribe "rewards" "rewards" "rewards";
    PullSubscribe "atx" "atx" "atx";
    PullSubscribe "transactions.result" "transactions-result" "transactions";
    PullSubscribe "transactions.created" "transactions-created" "transactions"
  ].

(** The consumers created at bootstrap. *)
Definition consumers (calls : list jsCall) : list nats.ConsumerConfig :=
  omap (fun c => match c with AddConsumer _ cfg => Some cfg | _ => None end) calls.

Definition bootstrap : list nats.ConsumerConfig :=
  consumers (default [] (NewSink true)).

(** The configuration [NewSink] creates for a subject, if any. *)
Definition consumerOf (subject : string) : option nats.ConsumerConfig :=
  list_find (fun cfg => nats.DeliverSubject cfg = subject) bootstrap
    ≫= fun p => Some (snd p).

Definition subjects : list string :=
  ["layers"; "rewards"; "atx"; "transactions.created"; "transactions.result"].

(** *** The consumption loops *)

Inductive status :=
| Running
| Panicked   (** nil pointer dereference in the worker goroutine *)
| Exited.    (** [log.Fatal]: the process exits with status 1 *)

Section Workers.

(** The fact types of go-spacemesh's [nats] package, and the write-side
    store: a save may change the store and may fail. *)
Context {Reward LayerUpdate WriteDB : Type}.
Variable Reward_Layer : Reward -> Z.
Variable LayerUpdate_LayerID : LayerUpdate -> Z.
Variable SaveReward : WriteDB -> Reward -> WriteDB * option error.
Variable SaveLayer : WriteDB -> LayerUpdate -> WriteDB * option error.

(** [json.Unmarshal(msg.Data, &v)] for a nil [v]: the pointer afterwards
    ([None] when it is still nil) and the error. *)
Variable UnmarshalReward : string -> option Reward * option error.
Variable UnmarshalLayer : string -> option LayerUpdate * option error.

Inductive output :=
| Println (s : string)
| PrintlnData (s data : string)
| PrintlnZ (s : string) (z : Z)
| LogFatal (s : string)
| Ack (msg : nats.Msg)
| Nak (msg : nats.Msg).

Record worker := { WriteDB_ : WriteDB; out : list output; state : status }.

Definition say (o : output) (w : worker) : worker :=
  {| WriteDB_ := WriteDB_ w; out := out w ++ [o]; state := state w |}.
Definition stop (s : status) (w : worker) : worker :=
  {| WriteDB_ := WriteDB_ w; out := out w; state := s |}.
Definition saved (d : WriteDB) (w : worker) : worker :=
  {| WriteDB_ := d; out := out w; state := state w |}.

(** The body of [for _, msg := range msgs] in [StartRewardsSink]. *)
Definition rewardsMsg (msg : nats.Msg) (w : worker) : worker :=
  let w := say (Println "New reward") w in
  let '(reward, errJson) := UnmarshalReward (nats.Data msg) in
  match reward with
  | None => stop Panicked w
  | Some reward =>
      let w := say (PrintlnZ "Next reward: " (Reward_Layer reward)) w in
      match errJson with
      | Some _ => stop Exited (say (LogFatal "Error parsing json reward: ") w)
      | None =>
          let '(d, saveErr) := SaveReward (WriteDB_ w) reward in
          let w := saved d w in
          match saveErr with
          | Some _ => say (Nak msg) (say (Println "Failed to save reward") w)
          | None => say (Ack msg) (say (Println "Reward saved") w)
          end
      end
  end.

(** The body of [for _, msg := range msgs] in [StartLayersSink]; [true]
    in the result is the [break]. *)
Definition layersMsg (err : option nats.FetchErr) (msg : nats.Msg)
    (w : worker) : worker * bool :=
  let w := say (Println "New layers") w in
  match err with
  | Some nats.ErrTimeout => (say (Println "Error ") w, true)
  | _ =>
      let w := say (PrintlnData "Layer: " (nats.Data msg)) w in
      let '(layer, errJson) := UnmarshalLayer (nats.Data msg) in
      match layer with
      | None => (stop Panicked w, false)
      | Some layer =>
          let w := say (PrintlnZ "Next layer: " (LayerUpdate_LayerID layer)) w in
          match errJson with
          | Some _ =>
              (stop Exited (say (LogFatal "Error parsing json layer: ") w), false)
          | None =>
              let '(d, saveErr) := SaveLayer (WriteDB_ w) layer in
              let w := saved d w in
              match saveErr with
              | Some _ => (say (Nak msg) (say (Println "Failed to save layer") w), false)
              | None => (say (Ack msg) (say (Println "Layer saved") w), false)
              end
          end
      end
  end.

(** [for _, msg := range msgs]: nothing runs once the process is gone. *)
Fixpoint rewardsBatch (msgs : list nats.Msg) (w : worker) : worker :=
  match msgs with
  | [] => w
  | msg :: msgs =>
      match state w with
      | Running => rewardsBatch msgs (rewardsMsg msg w)
      | _ => w
      end
  end.

Fixpoint layersBatch (err : option nats.FetchErr) (msgs : list nats.Msg)
    (w : worker) : worker :=
  match msgs with
  | [] => w
  | msg :: msgs =>
      match state w with
      | Running =>
          let '(w, break) := layersMsg err msg w in
          if break then w else layersBatch err msgs w
      | _ => w
      end
  end.

(** One round of the outer [for]: a fetch and the handling of its batch. *)
Definition rewardsRound (fetched : list nats.Msg * option nats.FetchErr)
    (w : worker) : worker :=
  match state w with
  | Running =>
      match snd fetched with
      | Some nats.ErrTimeout => say (Println "Error ") w
      | _ => rewardsBatch (fst fetched) w
      end
  | _ => w
  end.

Definition layersRound (fetched : list nats.Msg * option nats.FetchErr)
    (w : worker) : worker :=
  match state w with
  | Running =>
      match snd fetched with
      | Some nats.ErrTimeout => say (Println "Error ") w
      | err => layersBatch err (fst fetched) w
      end
  | _ => w
  end.

(** The goroutines of [StartRewardsSink] and [StartLayersSink], run on the
    first fetches of their endless loops. *)
Definition StartRewardsSink (fetches : list (list nats.Msg * option nats.FetchErr))
    (d : WriteDB) : worker :=
  fold_left (fun w f => rewardsRound f w) fetches
    {| WriteDB_ := d; out := [Println "Start rewards sink"]; state := Running |}.

Definition StartLayersSink (fetches : list (list nats.Msg * option nats.FetchErr))
    (d : WriteDB) : worker :=
  fold_left (fun w f => layersRound f w) fetches
    {| WriteDB_ := d; out := [Println "Start layers sink"]; state := Running |}.

End Workers.

Section MoreWorkers.

(** The other three loops. [Transaction_String] is what [fmt.Println] shows
    for the decoded pointer; a nil transaction is printed, not dereferenced,
    and what [SaveTransactions] does with it is the store's business. *)
Context {Atx Transaction WriteDB : Type}.
Variable Atx_NodeID : Atx -> string.
Variable Transaction_String : option Transaction -> string.
Variable SaveAtx : WriteDB -> Atx -> WriteDB * option error.
Variable SaveTransactions : WriteDB -> option Transaction -> WriteDB * option error.
Variable UnmarshalAtx : string -> option Atx * option error.
Variable UnmarshalTransaction : string -> option Transaction * option error.

(** The body of [for _, msg := range msgs] in [StartAtxSink]. *)
Definition atxMsg (msg : nats.Msg) (w : worker) : worker :=
  let w := say (PrintlnData "Atx: " (nats.Data msg)) w in
  let '(atx, errJson) := UnmarshalAtx (nats.Data msg) in
  match atx with
  | None => stop Panicked w
  | Some atx =>
      let w := say (PrintlnData "Next atx: " (Atx_NodeID atx)) w in
      match errJson with
      | Some _ => stop Exited (say (LogFatal "Error parsing json atx: ") w)
      | None =>
          let '(d, saveErr) := SaveAtx (WriteDB_ w) atx in
          let w := saved d w in
          match saveErr with
          | Some _ => say (Nak msg) (say (Println "Failed to save atx") w)
          | None => say (Ack msg) (say (Println "Atx saved") w)
          end
      end
  end.

(** The body of [for _, msg := range msgs] in [StartTransactionResultSink]
    and, word for word, in [StartTransactionCreatedSink]. *)
Definition transactionMsg (msg : nats.Msg) (w : worker) : worker :=
  let w := say (PrintlnData "Transaction: " (nats.Data msg)) w in
  let '(transaction, errJson) := UnmarshalTransaction (nats.Data msg) in
  let w := say (PrintlnData "Next transaction: " (Transaction_String transaction)) w in
  match errJson with
  | Some _ => stop Exited (say (LogFatal "Error parsing json transaction: ") w)
  | None =>
      let '(d, saveErr) := SaveTransactions (WriteDB_ w) transaction in
      let w := saved d w in
      match saveErr with
      | Some _ => say (Nak msg) (say (Println "Failed to save transaction") w)
      | None => say (Ack msg) (say (Println "Transaction saved") w)
      end
  end.

Fixpoint atxBatch (msgs : list nats.Msg) (w : worker) : worker :=
  match msgs with
  | [] => w
  | msg :: msgs =>
      match state w with
      | Running => atxBatch msgs (atxMsg msg w)
      | _ => w
      end
  end.

Fixpoint transactionBatch (msgs : list nats.Msg) (w : worker) : worker :=
  match msgs with
  | [] => w
  | msg :: msgs =>
      match state w with
      | Running => transactionBatch msgs (transactionMsg msg w)
      | _ => w
      end
  end.

Definition atxRound (fetched : list nats.Msg * option nats.FetchErr)
    (w : worker) : worker :=
  match state w with
  | Running =>
      match snd fetched with
      | Some nats.ErrTimeout => say (Println "Error ") w
      | _ => atxBatch (fst fetched) w
      end
  | _ => w
  end.

Definition transactionRound (fetched : list nats.Msg * option nats.FetchErr)
    (w : worker) : worker :=
  match state w with
  | Running =>
      match snd fetched with
      | Some nats.ErrTimeout => say (Println "Error ") w
      | _ => transactionBatch (fst fetched) w
      end
  | _ => w
  end.

Definition StartAtxSink (fetches : list (list nats.Msg * option nats.FetchErr))
    (d : WriteDB) : worker :=
  fold_left (fun w f => atxRound f w) fetches
    {| WriteDB_ := d; out := [Println "Start atx sink"]; state := Running |}.

Definition StartTransactionResultSink
    (fetches : list (list nats.Msg * option nats.FetchErr)) (d : WriteDB) : worker :=
  fold_left (fun w f => transactionRound f w) fetches
    {| WriteDB_ := d; out := [Println "Start transaction result sink"];
       state := Running |}.

Definition StartTransactionCreatedSink
    (fetches : list (list nats.Msg * option nats.FetchErr)) (d : WriteDB) : worker :=
  fold_left (fun w f => transactionRound f w) fetches
    {| WriteDB_ := d; out := [Println "Start transaction created sink"];
       state := Running |}.

End MoreWorkers.

End sink.

(** * Specification vocabulary *)

Import network.

(** ** Highest-ATX selection *)

(** An ATX is eligible when its author is not among the flagged nodes. *)
Definition eligible (nodes : list database.MalfeasanceNode) (atx : database.Atx) : Prop :=
  database.NodeID atx ∉ map database.ID nodes.

(** [atx], at its position in [pre ++ atx :: post], is the first eligible
    ATX of greatest height. *)
Definition first_highest (nodes : list database.MalfeasanceNode)
    (pre : list database.Atx) (atx : database.Atx) (post : list database.Atx) : Prop :=
  eligible nodes atx ∧
  (∀ b, b ∈ pre → eligible nodes b → atxHeight b < atxHeight atx) ∧
  (∀ b, b ∈ post → eligible nodes b → atxHeight b <= atxHeight atx).

(** The selection rule read without the initial maximum of the loop: the
    first eligible ATX of greatest height is always the one returned. *)
Definition selects_first_highest_always : Prop :=
  ∀ n tr epoch nodes pre atx post,
    database.GetAtxForEpoch (db n) epoch = Ok (pre ++ atx :: post) →
    database.GetMalfeasanceNodes (db n) = Ok nodes →
    first_highest nodes pre atx post →
    fst (getHigestAtx epoch {| self := n; trace := tr |})
    = Some (Ok (database.AtxID atx)).

Definition mkAtx (id node : string) (baseTick tickCount : Z) : database.Atx :=
  {| database.AtxID := id; database.NodeID := node;
     database.BaseTick := baseTick; database.TickCount := tickCount |}.

Definition flagged (id : string) : database.MalfeasanceNode := {| database.ID := id |}.

(** ** The steps of a snapshot refresh cycle *)

Section Steps.

Variable n : NetworkState.

(** The epoch of the last processed layer, and the epoch before it as the
    queries receive it: [uint64(epoch - 1)] on a 32-bit [epoch]. *)
Definition epochOf (layer : database.LayerDoc) : Z :=
  uint32 (NetworkUtils.GetEpoch (networkUtils n) (uint64 (database.Layer layer))).
Definition previous (epoch : Z) : Z := uint64 (uint32 (epoch - 1)).

(** What the collaborators answer in a cycle in which nothing fails. *)
Record answers := {
  layer : database.LayerDoc;
  atxEpoch : Z;
  atxNextEpoch : Z;
  totalAccounts : Z;
  dbInfo : database.NetworkInfo;
  atxEpochTotals : database.AtxEpoch;
  atxNextEpochTotals : database.AtxEpoch;
  atxs : list database.Atx;
  malfeasanceNodes : list database.MalfeasanceNode;
  base64Atx : string;
  totalSlots : Z
}.

(** Every collaborator answers, with the answers [a]. *)
Definition collaborators_ok (a : answers) : Prop :=
  let epoch := epochOf (layer a) in
  database.GetLastProcessedLayer (db n) = Ok (layer a) ∧
  database.CountAtxEpoch (db n) (previous epoch) = Ok (atxEpoch a) ∧
  database.CountAtxEpoch (db n) (uint64 epoch) = Ok (atxNextEpoch a) ∧
  database.CountAccounts (db n) = Ok (totalAccounts a) ∧
  database.GetNetworkInfo (db n) = Ok (dbInfo a) ∧
  database.GetAtxEpoch (db n) (previous epoch) = Ok (atxEpochTotals a) ∧
  database.GetAtxEpoch (db n) (uint64 epoch) = Ok (atxNextEpochTotals a) ∧
  database.GetAtxForEpoch (db n) (previous epoch) = Ok (atxs a) ∧
  database.GetMalfeasanceNodes (db n) = Ok (malfeasanceNodes a) ∧
  NetworkUtils.GetNumberOfSlots (networkUtils n)
    (uint64 (database.TotalWeight (atxEpochTotals a)))
    (database.TotalWeight (atxEpochTotals a)) epoch = Ok (totalSlots a).

(** Every step of the cycle succeeds: the collaborators answer and the
    selected identifier converts to base64. *)
Definition every_step_ok (a : answers) : Prop :=
  collaborators_ok a ∧
  hexToBase64 (selectHighest (atxs a) (malfeasanceNodes a)) = Ok (base64Atx a).

Definition failed {A} (r : result A) : Prop := ∃ err, r = Err err.

(** Some step of the cycle fails: the read of the last processed layer, or,
    with the epoch of that layer, a count, the accounts count, the
    network-info query, a totals query, the selection of the highest ATX
    (either of its two queries), the base64 conversion of the selected
    identifier, or the slot computation. *)
Definition some_step_fails : Prop :=
  failed (database.GetLastProcessedLayer (db n)) ∨
  ∃ layer, database.GetLastProcessedLayer (db n) = Ok layer ∧
    let epoch := epochOf layer in
    failed (database.CountAtxEpoch (db n) (previous epoch)) ∨
    failed (database.CountAtxEpoch (db n) (uint64 epoch)) ∨
    failed (database.CountAccounts (db n)) ∨
    failed (database.GetNetworkInfo (db n)) ∨
    failed (database.GetAtxEpoch (db n) (previous epoch)) ∨
    failed (database.GetAtxEpoch (db n) (uint64 epoch)) ∨
    failed (database.GetAtxForEpoch (db n) (previous epoch)) ∨
    failed (database.GetMalfeasanceNodes (db n)) ∨
    (∃ atxs nodes,
       database.GetAtxForEpoch (db n) (previous epoch) = Ok atxs ∧
       database.GetMalfeasanceNodes (db n) = Ok nodes ∧
       failed (hexToBase64 (selectHighest atxs nodes))) ∨
    (∃ totals,
       database.GetAtxEpoch (db n) (previous epoch) = Ok totals ∧
       failed (NetworkUtils.GetNumberOfSlots (networkUtils n)
                 (uint64 (database.TotalWeight totals))
                 (database.TotalWeight totals) epoch)).

(** The snapshot a cycle assembles from the answers. *)
Definition published (unspecified : float64 → Z) (a : answers) : NetworkState :=
  let epoch := epochOf (layer a) in
  let hexAtx := selectHighest (atxs a) (malfeasanceNodes a) in
  let price := price.GetPrice (priceResolver n) in
  let info := {|
    types.Epoch := epoch;
    types.EpochSubsidy := NetworkUtils.GetEpochSubsidy (networkUtils n) (uint64 epoch);
    types.Layer := uint64 (database.Layer (layer a));
    types.TotalSlots := uint64 (totalSlots a);
    types.TotalWeight := database.TotalWeight (atxEpochTotals a);
    types.EffectiveUnitsCommited := database.TotalEffectiveNumUnits (atxEpochTotals a);
    types.CirculatingSupply := database.CirculatingSupply (dbInfo a);
    types.Price := price;
    types.MarketCap :=
      uint64_of_float64 unspecified
        (float64_mul (float64_of_int (database.CirculatingSupply (dbInfo a))) price);
    types.TotalAccounts := uint64 (int64 (totalAccounts a + 28));
    types.AtxHex := hexAtx;
    types.AtxBase64 := base64Atx a;
    types.TotalActiveSmeshers := uint64 (atxEpoch a);
    types.NextEpoch := Some {|
      types.NextEpoch_Epoch := uint32 (epoch + 1);
      types.NextEpoch_EffectiveUnitsCommited :=
        int64 (database.TotalEffectiveNumUnits (atxNextEpochTotals a));
      types.NextEpoch_TotalActiveSmeshers := atxNextEpoch a
    |}
  |} in
  {| db := db n; networkUtils := networkUtils n;
     networkInfo := <[INFO_KEY := info]> (networkInfo n);
     epochSubsidies := epochSubsidies n; priceResolver := priceResolver n |}.

(** The calls of a cycle in which nothing fails, in order. *)
Definition calls (a : answers) : list event :=
  let epoch := epochOf (layer a) in
  [ CallGetLastProcessedLayer;
    CallGetEpoch (uint64 (database.Layer (layer a)));
    CallCountAtxEpoch (previous epoch);
    CallCountAtxEpoch (uint64 epoch);
    CallCountAccounts;
    CallGetNetworkInfo;
    CallGetAtxEpoch (previous epoch);
    CallGetAtxEpoch (uint64 epoch);
    CallGetAtxForEpoch (previous epoch);
    CallGetMalfeasanceNodes;
    CallGetNumberOfSlots (uint64 (database.TotalWeight (atxEpochTotals a)))
      (database.TotalWeight (atxEpochTotals a)) epoch;
    CallGetPrice;
    CallGetEpochSubsidy (uint64 epoch) ].

End Steps.

(** A method that returned early after printing, having stored nothing. *)
Definition returned_early (n : NetworkState) (tr : list event)
    (r : option unit * machine) : Prop :=
  ∃ evs,
    r = (None, {| self := n; trace := tr ++ evs |}) ∧
    Forall (fun e => is_store_info e = false) evs ∧
    ∃ format err, last evs = Some (Printf format err).

Definition is_slots_call (e : event) : bool :=
  match e with CallGetNumberOfSlots _ _ _ => true | _ => false end.

(** ** Successive cycles *)

(** What the collaborators are when a cycle starts: the read-side store and
    the price change between cycles. *)
Definition world : Type := database.ReadDB * price.PriceResolver.

Definition with_world (w : world) (n : NetworkState) : NetworkState :=
  {| db := fst w; networkUtils := networkUtils n; networkInfo := networkInfo n;
     epochSubsidies := epochSubsidies n; priceResolver := snd w |}.

(** One run of a periodic job per world, in order; everything observed. *)
Fixpoint cycles (job : M unit) (worlds : list world) (n : NetworkState)
    : NetworkState * list event :=
  match worlds with
  | [] => (n, [])
  | w :: worlds =>
      let '(n1, observed1) := run job (with_world w n) in
      let '(n2, observed2) := cycles job worlds n1 in
      (n2, observed1 ++ observed2)
  end.

(** The snapshot of the last store under [INFO_KEY] among the events. *)
Definition last_published (observed : list event) : option types.NetworkInfo :=
  fold_left
    (fun acc e =>
       match e with
       | StoreNetworkInfo key v => if String.eqb key INFO_KEY then Some v else acc
       | _ => acc
       end)
    observed None.

(** ** The subsidy table *)

(** The epochs [i], [i - 1], ..., [2]. *)
Definition descending (i : Z) : list Z := reverse (seqZ 2 (i - 1)).

Definition subsidy_stores (observed : list event) : list (Z * Z) :=
  omap (fun e => match e with StoreEpochSubsidies k v => Some (k, v) | _ => None end)
    observed.

(** The table after the loop started at [i], and what the loop is seen to
    do: for each epoch from [i] down to 2, ask for its subsidy and store it. *)
Definition stored_from (utils : NetworkUtils.t) (i : Z) (table : gmap Z Z) : gmap Z Z :=
  fold_left (fun t k => <[k := NetworkUtils.GetEpochSubsidy utils (uint64 k)]> t)
    (descending i) table.

Definition loop_events (utils : NetworkUtils.t) (i : Z) : list event :=
  descending i ≫= fun k =>
    [ CallGetEpochSubsidy (uint64 k);
      StoreEpochSubsidies k (NetworkUtils.GetEpochSubsidy utils (uint64 k)) ].

Definition with_epochSubsidies (table : gmap Z Z) (n : NetworkState) : NetworkState :=
  {| db := db n; networkUtils := networkUtils n; networkInfo := networkInfo n;
     epochSubsidies := table; priceResolver := priceResolver n |}.

(** No subsidy is stored for an epoch below 2. *)
Definition low_epochs_absent (n : NetworkState) : Prop :=
  ∀ e, e < 2 → epochSubsidies n !! e = None.

(** ** A network to run the cycles on

    Epochs of 400 layers; the last processed layer is given. The read-side
    store answers every query; the ATXs of an epoch are given per epoch. *)

Definition sampleUtils : NetworkUtils.t := {|
  NetworkUtils.GetEpoch := fun layer => layer / 400;
  NetworkUtils.GetEpochSubsidy := fun epoch => 2 ^ 40 / (epoch + 1) + 1;
  NetworkUtils.GetNumberOfSlots := fun w1 w2 epoch => Ok ((w1 + w2) / 200)
|}.

Definition sampleDB (layer : Z) (atxs : Z → list database.Atx)
    (nodes : list database.MalfeasanceNode) : database.ReadDB := {|
  database.GetLastProcessedLayer := Ok {| database.Layer := layer |};
  database.CountAtxEpoch := fun epoch =>
    Ok (if epoch <=? 100 then 3 * Z.abs (epoch - 5) else 7);
  database.CountAccounts := Ok 100;
  database.GetNetworkInfo := Ok {| database.CirculatingSupply := 2000000 |};
  database.GetAtxEpoch := fun epoch =>
    Ok {| database.TotalWeight := 1000 + (epoch - 9) * 100;
          database.TotalEffectiveNumUnits := 50 + (epoch - 9) * 5 |};
  database.GetAtxForEpoch := fun epoch => Ok (atxs epoch);
  database.GetMalfeasanceNodes := Ok nodes
|}.

(** The float64 nearest to 0.05: [7205759403792794 * 2^-57]. *)
Definition price_0_05 : float64 := S754_finite false 7205759403792794 (-57).

Definition sampleState (d : database.ReadDB) : NetworkState := {|
  db := d;
  networkUtils := sampleUtils;
  networkInfo := ∅;
  epochSubsidies := ∅;
  priceResolver := {| price.GetPrice := price_0_05 |}
|}.

(** The ATXs of epoch 9: the highest is authored by a flagged node, two
    clean ones tie below it. *)
Definition scenarioAtxs (epoch : Z) : list database.Atx :=
  if epoch =? 9 then
    [ mkAtx "aa01" "node-1" 10 5;
      mkAtx "ff02" "node-bad" 100 100;
      mkAtx "bb03" "node-2" 20 10;
      mkAtx "cc04" "node-3" 15 15 ]
  else [].

Definition scenarioNodes : list database.MalfeasanceNode := [flagged "node-bad"].

Definition scenario : NetworkState := sampleState (sampleDB 4000 scenarioAtxs scenarioNodes).

(** The answers of the collaborators in [scenario]. *)
Definition scenarioAnswers : answers := {|
  layer := {| database.Layer := 4000 |};
  atxEpoch := 12;
  atxNextEpoch := 15;
  totalAccounts := 100;
  dbInfo := {| database.CirculatingSupply := 2000000 |};
  atxEpochTotals := {| database.TotalWeight := 1000; database.TotalEffectiveNumUnits := 50 |};
  atxNextEpochTotals := {| database.TotalWeight := 1100; database.TotalEffectiveNumUnits := 55 |};
  atxs := scenarioAtxs 9;
  malfeasanceNodes := scenarioNodes;
  base64Atx := "uwM=";
  totalSlots := 10
|}.

(** A network in its first epoch: nothing is stored for epoch 0, and the
    store holds one ATX under the epoch number 4294967295. *)
Definition genesis : NetworkState :=
  sampleState
    (sampleDB 100
       (fun epoch => if epoch =? MaxUint32 then [mkAtx "0a" "node-1" 1 1] else [])
       []).

(** A network in which every ATX of every epoch is authored by the one
    flagged node. *)
Definition allFlagged : NetworkState :=
  sampleState
    (sampleDB 4000 (fun _ => [mkAtx "ff02" "node-bad" 100 100; mkAtx "ff05" "node-bad" 7 7])
       [flagged "node-bad"]).

Definition allFlaggedAnswers : answers := {|
  layer := {| database.Layer := 4000 |};
  atxEpoch := 12;
  atxNextEpoch := 15;
  totalAccounts := 100;
  dbInfo := {| database.CirculatingSupply := 2000000 |};
  atxEpochTotals := {| database.TotalWeight := 1000; database.TotalEffectiveNumUnits := 50 |};
  atxNextEpochTotals := {| database.TotalWeight := 1100; database.TotalEffectiveNumUnits := 55 |};
  atxs := [mkAtx "ff02" "node-bad" 100 100; mkAtx "ff05" "node-bad" 7 7];
  malfeasanceNodes := [flagged "node-bad"];
  base64Atx := "";
  totalSlots := 10
|}.

(** The same store with the accounts count failing. *)
Definition failingDB : database.ReadDB :=
  let d := sampleDB 4000 scenarioAtxs scenarioNodes in {|
  database.GetLastProcessedLayer := database.GetLastProcessedLayer d;
  database.CountAtxEpoch := database.CountAtxEpoch d;
  database.CountAccounts := Err (ErrCollaborator "connection refused");
  database.GetNetworkInfo := database.GetNetworkInfo d;
  database.GetAtxEpoch := database.GetAtxEpoch d;
  database.GetAtxForEpoch := database.GetAtxForEpoch d;
  database.GetMalfeasanceNodes := database.GetMalfeasanceNodes d
|}.

(** Out of range, [uint64(f)] as the gc compiler does it on amd64: below
    [2^63] the conversion is the signed one ([CVTTSD2SQ]), so a negative [f]
    that fits [int64] wraps to [2^64 + trunc f]; from [2^63] on it converts
    [f - 2^63] and sets the top bit. Whatever the signed conversion cannot
    represent (also infinities and NaN) comes out as [0x8000000000000000]. *)
Definition amd64 (f : float64) : Z :=
  match float64_trunc f with
  | Some z => if (- 2 ^ 63 <=? z) && (z <? 0) then z + 2 ^ 64 else 2 ^ 63
  | None => 2 ^ 63
  end.

(** ** The sink *)

(** The pull subscriptions [NewSink] opens: subject, durable and stream. *)
Definition subscriptions : list (string * string * string) :=
  omap (fun c => match c with
                 | sink.PullSubscribe subj durable stream => Some (subj, durable, stream)
                 | _ => None
                 end)
    (default [] (sink.NewSink true)).

(** The durable the pull subscription on a subject is scoped to, if the
    subject is subscribed to. *)
Definition durableOf (subject : string) : option string :=
  list_find (fun p => fst (fst p) = subject) subscriptions
    ≫= fun p => Some (snd (fst (snd p))).

(** The [DeliverGroup] fields of the consumers created for distinct subjects
    are distinct. *)
Definition delivery_groups_pairwise_distinct : Prop :=
  ∀ s1 s2 c1 c2,
    s1 ∈ sink.subjects → s2 ∈ sink.subjects → s1 ≠ s2 →
    sink.consumerOf s1 = Some c1 → sink.consumerOf s2 = Some c2 →
    nats.DeliverGroup c1 ≠ nats.DeliverGroup c2.

Definition is_settlement (o : sink.output) : bool :=
  match o with sink.Ack _ | sink.Nak _ => true | _ => false end.

(** The worker is gone, having settled no message and saved nothing since
    the worker [w0]. *)
Definition gone_unsettled {WriteDB : Type} (w0 w : sink.worker (WriteDB := WriteDB)) : Prop :=
  sink.state w ≠ sink.Running ∧
  sink.WriteDB_ w = sink.WriteDB_ w0 ∧
  ∃ printed, sink.out w = sink.out w0 ++ printed ∧
             Forall (fun o => is_settlement o = false) printed.

(** A decoder to run the workers on. The fact is its layer number; [{}]
    decodes to layer 0; [{] is a syntax error, which leaves the pointer nil;
    [7] is a type error, reported after a value was allocated. *)
Definition sampleUnmarshal (data : string) : option Z * option error :=
  if String.eqb data "{}" then (Some 0, None)
  else if String.eqb data "7" then (Some 0, Some (ErrCollaborator "cannot unmarshal number"))
  else (None, Some (ErrCollaborator "unexpected end of JSON input")).

(** A write-side store that keeps what it is given and never fails. *)
Definition sampleSave (d : list Z) (fact : Z) : list Z * option error :=
  (d ++ [fact], None).

(** ** Hexadecimal text *)

(** The bytes ['0'..'9'], ['a'..'f'] and ['A'..'F']. *)
Definition hexdigit (c : Z) : Prop :=
  48 <= c <= 57 ∨ 97 <= c <= 102 ∨ 65 <= c <= 70.

Definition bytes_of (s : string) : list Z :=
  map hex.byte_of (String.list_ascii_of_string s).

(** The characters base64 text is made of. *)
Definition base64_char (c : ascii) : Prop :=
  c ∈ String.list_ascii_of_string base64.encodeStd ∨ c = "="%char.

(** ** More of highest-ATX selection *)

(** The ATXs whose author is not flagged, in order. *)
Definition unflagged (nodes : list database.MalfeasanceNode)
    (atxs : list database.Atx) : list database.Atx :=
  List.filter (fun atx => negb (bool_decide (database.NodeID atx ∈ map database.ID nodes)))
    atxs.

(** A tick field as the store can hold it: a [uint64]. *)
Definition ticks_in_range (atx : database.Atx) : Prop :=
  0 <= database.BaseTick atx < 2 ^ 64 ∧ 0 <= database.TickCount atx < 2 ^ 64.

(** The ATXs of [scenarioAtxs] with the flagged one taken out, no node being
    flagged any more. *)
Definition scenarioUnflagged : NetworkState :=
  sampleState (sampleDB 4000 (fun epoch => unflagged scenarioNodes (scenarioAtxs epoch)) []).

(** Two ATXs of clean nodes; the ticks of the first add up to [2^64 + 4]. *)
Definition wrappingAtxs : list database.Atx :=
  [ mkAtx "aa01" "node-1" (2 ^ 64 - 1) 5; mkAtx "bb03" "node-2" 20 10 ].

Definition wrapping : NetworkState :=
  sampleState (sampleDB 4000 (fun _ => wrappingAtxs) []).

(** Bytes, and the value of a hex digit whatever its case. *)
Definition is_byte (b : Z) : Prop := 0 <= b < 256.

Definition digit_values (s : string) : list Z :=
  map hex.reverseHexTable (bytes_of s).

(** ** What a cycle is seen to do *)

(** A call on a collaborator, as opposed to a print or a store. *)
Definition is_call (e : event) : bool :=
  match e with
  | Printf _ _ | StoreNetworkInfo _ _ | StoreEpochSubsidies _ _ => false
  | _ => true
  end.

(** [t] is [tr] followed by calls only. *)
Inductive calls_after (tr : list event) : list event → Prop :=
| calls_after_none : calls_after tr tr
| calls_after_call t c : calls_after tr t → is_call c = true → calls_after tr (t ++ [c]).

Definition error_of {A} (r : result A) : option error :=
  match r with Ok _ => None | Err err => Some err end.

(** The steps of a refresh cycle in the order of the source, each with the
    message printed when it fails and with its error, if it returns one. The
    steps after the read of the layer are taken at the epoch of that layer;
    the base64 step converts the identifier selected from what the two
    queries of the selection answered, and the slot step is computed from
    the totals of the previous epoch. *)
Definition step_errors (n : NetworkState) : list (string * option error) :=
  ("Failed to get last processed layer: %s",
   error_of (database.GetLastProcessedLayer (db n))) ::
  match database.GetLastProcessedLayer (db n) with
  | Err _ => []
  | Ok layer =>
      let epoch := epochOf n layer in
      [ ("Failed to count atx epoch: %s",
         error_of (database.CountAtxEpoch (db n) (previous epoch)));
        ("Failed to count next atx epoch: %s",
         error_of (database.CountAtxEpoch (db n) (uint64 epoch)));
        ("Failed to count accounts: %s", error_of (database.CountAccounts (db n)));
        ("Failed to get network info: %s", error_of (database.GetNetworkInfo (db n)));
        ("Failed to get epoch totals: %s",
         error_of (database.GetAtxEpoch (db n) (previous epoch)));
        ("Failed to get next epoch totals: %s",
         error_of (database.GetAtxEpoch (db n) (uint64 epoch)));
        ("Failed to get highest atx: %s",
         error_of (database.GetAtxForEpoch (db n) (previous epoch)));
        ("Failed to get highest atx: %s",
         error_of (database.GetMalfeasanceNodes (db n)));
        ("Failed to get base64 atx: %s",
         match database.GetAtxForEpoch (db n) (previous epoch),
               database.GetMalfeasanceNodes (db n) with
         | Ok atxs, Ok nodes => error_of (hexToBase64 (selectHighest atxs nodes))
         | _, _ => None
         end);
        ("Failed to get total slots: %s",
         match database.GetAtxEpoch (db n) (previous epoch) with
         | Ok totals =>
             error_of (NetworkUtils.GetNumberOfSlots (networkUtils n)
                         (uint64 (database.TotalWeight totals))
                         (database.TotalWeight totals) epoch)
         | Err _ => None
         end) ]
  end.

(** The first step that fails, with its message and its error. *)
Definition first_error (n : NetworkState) : option (string * error) :=
  list_find (fun step => is_Some (snd step)) (step_errors n)
    ≫= fun found => snd (snd found) ≫= fun err => Some (fst (snd found), err).

(** ** The two periodic jobs *)

Inductive job := Snapshot | Subsidies.

Definition job_body (unspecified : float64 → Z) (j : job) : M unit :=
  match j with
  | Snapshot => fetchNetworkInfo unspecified
  | Subsidies => calculateEpochSubsidies
  end.

(** The ticks of the two tickers in the order in which their jobs run, each
    with the world its job finds. (The jobs write to different tables and
    read neither, so an overlap of two jobs is not told apart from one of
    its two orders.) *)
Fixpoint ticks (unspecified : float64 → Z) (schedule : list (job * world))
    (n : NetworkState) : NetworkState * list event :=
  match schedule with
  | [] => (n, [])
  | (j, w) :: schedule =>
      let '(n1, observed1) := run (job_body unspecified j) (with_world w n) in
      let '(n2, observed2) := ticks unspecified schedule n1 in
      (n2, observed1 ++ observed2)
  end.

(** A snapshot whose fields agree with each other, and whose converted fields
    fit the types they are converted to: [Epoch] is the 32-bit epoch of
    [Layer], [EpochSubsidy] the subsidy of [Epoch], [AtxBase64] the base64
    form of [AtxHex], [MarketCap] the converted product of
    [CirculatingSupply] and [Price], and [NextEpoch] is set, one epoch
    ahead. Nothing is said of the range of the five fields that are copied
    from a collaborator as they come ([EpochSubsidy], [TotalWeight],
    [EffectiveUnitsCommited], [CirculatingSupply] and the [NextEpoch]'s
    [TotalActiveSmeshers]). *)
Definition consistent (unspecified : float64 → Z) (utils : NetworkUtils.t)
    (info : types.NetworkInfo) : Prop :=
  0 <= types.Epoch info < 2 ^ 32 ∧
  0 <= types.Layer info < 2 ^ 64 ∧
  types.Epoch info = uint32 (NetworkUtils.GetEpoch utils (types.Layer info)) ∧
  types.EpochSubsidy info = NetworkUtils.GetEpochSubsidy utils (types.Epoch info) ∧
  hexToBase64 (types.AtxHex info) = Ok (types.AtxBase64 info) ∧
  types.MarketCap info
  = uint64_of_float64 unspecified
      (float64_mul (float64_of_int (types.CirculatingSupply info)) (types.Price info)) ∧
  (∃ next, types.NextEpoch info = Some next ∧
     types.NextEpoch_Epoch next = uint32 (types.Epoch info + 1) ∧
     - 2 ^ 63 <= types.NextEpoch_EffectiveUnitsCommited next < 2 ^ 63) ∧
  0 <= types.TotalSlots info < 2 ^ 64 ∧
  0 <= types.MarketCap info < 2 ^ 64 ∧
  0 <= types.TotalAccounts info < 2 ^ 64 ∧
  0 <= types.TotalActiveSmeshers info < 2 ^ 64.

(** Only [INFO_KEY] is published under, and what is published is consistent. *)
Definition snapshots_consistent (unspecified : float64 → Z) (utils : NetworkUtils.t)
    (n : NetworkState) : Prop :=
  networkUtils n = utils ∧
  ∀ key info, networkInfo n !! key = Some info →
              key = INFO_KEY ∧ consistent unspecified utils info.

(** Every entry of the subsidy table is the subsidy of its epoch, a 32-bit
    epoch from 2 on. *)
Definition subsidies_exact (utils : NetworkUtils.t) (n : NetworkState) : Prop :=
  networkUtils n = utils ∧
  ∀ e v, epochSubsidies n !! e = Some v →
         2 <= e < 2 ^ 32 ∧ v = NetworkUtils.GetEpochSubsidy utils e.

Definition with_networkInfo (m : gmap string types.NetworkInfo) (n : NetworkState)
    : NetworkState :=
  {| db := db n; networkUtils := networkUtils n; networkInfo := m;
     epochSubsidies := epochSubsidies n; priceResolver := priceResolver n |}.

Definition epochmath_calls (observed : list event) : list Z :=
  omap (fun e => match e with CallGetEpochSubsidy epoch => Some epoch | _ => None end)
    observed.

(** A store that cannot be read. *)
Definition unreachableDB : database.ReadDB := {|
  database.GetLastProcessedLayer := Err (ErrCollaborator "no reachable servers");
  database.CountAtxEpoch := fun _ => Err (ErrCollaborator "no reachable servers");
  database.CountAccounts := Err (ErrCollaborator "no reachable servers");
  database.GetNetworkInfo := Err (ErrCollaborator "no reachable servers");
  database.GetAtxEpoch := fun _ => Err (ErrCollaborator "no reachable servers");
  database.GetAtxForEpoch := fun _ => Err (ErrCollaborator "no reachable servers");
  database.GetMalfeasanceNodes := Err (ErrCollaborator "no reachable servers")
|}.

(** ** What the workers settle *)

Definition timed_out (fetched : list nats.Msg * option nats.FetchErr) : bool :=
  match snd fetched with Some nats.ErrTimeout => true | _ => false end.

(** The messages a worker gets to handle: those of the fetches that did not
    time out, in order. *)
Definition handled (fetches : list (list nats.Msg * option nats.FetchErr))
    : list nats.Msg :=
  fetches ≫= fun fetched => if timed_out fetched then [] else fst fetched.

Definition settlements (out : list sink.output) : list sink.output :=
  List.filter is_settlement out.

Definition settled_msgs (out : list sink.output) : list nats.Msg :=
  omap (fun o => match o with sink.Ack msg | sink.Nak msg => Some msg | _ => None end) out.

Section Settle.

Context {Fact WriteDB : Type}.
Variable Save : WriteDB → Fact → WriteDB * option error.
Variable Unmarshal : string → option Fact * option error.

(** The payload decodes: a fact and no error. *)
Definition decodes (msg : nats.Msg) : Prop :=
  ∃ fact, Unmarshal (nats.Data msg) = (Some fact, None).

(** Saving the facts of [msgs] one after the other: the store afterwards, and
    for each message an [Ack] if its save succeeded and a [Nak] if not. *)
Fixpoint settle (msgs : list nats.Msg) (d : WriteDB) : WriteDB * list sink.output :=
  match msgs with
  | [] => (d, [])
  | msg :: msgs =>
      match fst (Unmarshal (nats.Data msg)) with
      | None => (d, [])
      | Some fact =>
          let '(d, saveErr) := Save d fact in
          let '(d, settled) := settle msgs d in
          (d, match saveErr with Some _ => sink.Nak msg | None => sink.Ack msg end
              :: settled)
      end
  end.

(** The messages before the first whose payload does not decode to a fact,
    that is, for which [json.Unmarshal] returns an error or leaves the
    pointer nil (as it does, without error, for [null]). *)
Fixpoint decoded (msgs : list nats.Msg) : list nats.Msg :=
  match msgs with
  | [] => []
  | msg :: msgs =>
      match Unmarshal (nats.Data msg) with
      | (Some _, None) => msg :: decoded msgs
      | _ => []
      end
  end.

(** The first message whose payload does not decode to a fact, if any. *)
Fixpoint first_bad (msgs : list nats.Msg) : option nats.Msg :=
  match msgs with
  | [] => None
  | msg :: msgs =>
      match Unmarshal (nats.Data msg) with
      | (Some _, None) => first_bad msgs
      | _ => Some msg
      end
  end.

(** How such a message ends a worker: a nil pointer is dereferenced, which
    panics; with a fact allocated the error reaches [log.Fatal]. *)
Definition ends_by (msg : nats.Msg) : sink.status :=
  match fst (Unmarshal (nats.Data msg)) with
  | None => sink.Panicked
  | Some _ => sink.Exited
  end.

Definition state_after (msgs : list nats.Msg) : sink.status :=
  match first_bad msgs with
  | None => sink.Running
  | Some msg => ends_by msg
  end.

(** The worker [w] has settled, once each and in order, the handled messages
    that come before the first whose payload does not decode to a fact: their
    facts are saved in turn, and each is acknowledged or not by the outcome
    of its save. It runs still if there is no such message, and else has
    ended on it. *)
Definition settles_up_to_first_bad
    (fetches : list (list nats.Msg * option nats.FetchErr)) (d : WriteDB)
    (w : sink.worker (WriteDB := WriteDB)) : Prop :=
  let msgs := handled fetches in
  sink.state w = state_after msgs ∧
  (sink.state w = sink.Running ↔ Forall decodes msgs) ∧
  sink.WriteDB_ w = fst (settle (decoded msgs) d) ∧
  settlements (sink.out w) = snd (settle (decoded msgs) d) ∧
  settled_msgs (sink.out w) = decoded msgs.

End Settle.

(** [json.Unmarshal] into a transaction pointer, the pointer taken as the
    fact: it is handed to [SaveTransactions] as it is, nil or not. *)
Definition pointer_as_fact {Transaction : Type}
    (Unmarshal : string → option Transaction * option error)
    (data : string) : option (option Transaction) * option error :=
  (Some (fst (Unmarshal data)), snd (Unmarshal data)).

(** [json.Unmarshal] on the payloads [{}], [null], [7] and [{]: as
    [sampleUnmarshal], and [null] sets the pointer to nil without error. *)
Definition jsonUnmarshal (data : string) : option Z * option error :=
  if String.eqb data "null" then (None, None) else sampleUnmarshal data.

(** A store with room for two facts. *)
Definition boundedSave (d : list Z) (fact : Z) : list Z * option error :=
  if (length d <? 2)%nat then (d ++ [fact], None)
  else (d, Some (ErrCollaborator "write failed")).

(** The same store taking a pointer: it refuses a nil fact as well. *)
Definition boundedSavePointer (d : list Z) (fact : option Z) : list Z * option error :=
  match fact with
  | Some fact => boundedSave d fact
  | None => (d, Some (ErrCollaborator "nil transaction"))
  end.

(** Four fetches: two messages, a timeout, one more message, and then a
    [null] followed by one more message. *)
Definition sampleFetches : list (list nats.Msg * option nats.FetchErr) :=
  [ ([{| nats.Data := "{}" |}; {| nats.Data := "{}" |}], None);
    ([], Some nats.ErrTimeout);
    ([{| nats.Data := "{}" |}], None);
    ([{| nats.Data := "null" |}; {| nats.Data := "{}" |}], None) ].

(** * Properties *)

(** Case analysis on the members of a list that is written out. *)
Ltac each_member H :=
  repeat (apply elem_of_cons in H as [-> | H]); [.. | by apply elem_of_nil in H].

(** Closed comparisons and equations of integers, by evaluation. *)
Ltac by_computation :=
  repeat split; vm_compute; first [reflexivity | intros; discriminate].

(** A string that differs from every member of a list that is written out. *)
Ltac not_member :=
  let H := fresh in
  intros H; repeat (apply elem_of_cons in H as [H | H]; [discriminate H |]);
  by apply elem_of_nil in H.

(** ** encoding/hex and encoding/base64 on examples *)

Example hexToBase64_deadbeef : hexToBase64 "deadbeef" = Ok "3q2+7w==".
Proof. reflexivity. Qed.

Example hexToBase64_mixed_case : hexToBase64 "00FFa1" = Ok "AP+h".
Proof. reflexivity. Qed.

Example hexToBase64_odd : hexToBase64 "abc" = Err ErrLength.
Proof. reflexivity. Qed.

Example hexToBase64_invalid : hexToBase64 "zz" = Err (InvalidByteError 122).
Proof. reflexivity. Qed.

(** ** Fixed-width arithmetic *)

Lemma uint64_range x : 0 <= uint64 x < 2 ^ 64.
Proof. unfold uint64. apply Z.mod_pos_bound. lia. Qed.

Lemma uint32_range x : 0 <= uint32 x < 2 ^ 32.
Proof. unfold uint32. apply Z.mod_pos_bound. lia. Qed.

Lemma uint64_small x : 0 <= x < 2 ^ 64 → uint64 x = x.
Proof. intros. unfold uint64. apply Z.mod_small. lia. Qed.

Lemma uint32_small x : 0 <= x < 2 ^ 32 → uint32 x = x.
Proof. intros. unfold uint32. apply Z.mod_small. lia. Qed.

Lemma int64_small x : - 2 ^ 63 <= x < 2 ^ 63 → int64 x = x.
Proof. intros. unfold int64. rewrite Z.mod_small; lia. Qed.

Lemma uint64_int64 x : uint64 (int64 x) = uint64 x.
Proof.
  unfold uint64, int64.
  rewrite Zminus_mod, Zmod_mod, <- Zminus_mod. f_equal. lia.
Qed.

Lemma atxHeight_range atx : 0 <= atxHeight atx < 2 ^ 64.
Proof. apply uint64_range. Qed.

(** ** The malfeasance map *)

Lemma index_fold_insert (nodes : list database.MalfeasanceNode) (m : gmap string bool) k :
  index (fold_left (fun m v => <[database.ID v := true]> m) nodes m) k = true ↔
  index m k = true ∨ k ∈ map database.ID nodes.
Proof.
  revert m. induction nodes as [|v nodes IH]; intros m; simpl.
  - split; [auto | intros [H|H]; [done | by apply elem_of_nil in H]].
  - rewrite IH. unfold index. destruct (decide (database.ID v = k)) as [->|Hne].
    + rewrite lookup_insert_eq. simpl. split; [intros _; right; left | auto].
    + rewrite lookup_insert_ne by done. split.
      * intros [H|H]; [by left | right; by right].
      * intros [H|H]; [by left |]. apply elem_of_cons in H as [H|H]; [congruence | by right].
Qed.

Lemma index_malfeasanceNodesMap nodes k :
  index (malfeasanceNodesMap nodes) k = true ↔ k ∈ map database.ID nodes.
Proof.
  unfold malfeasanceNodesMap. rewrite index_fold_insert. unfold index.
  rewrite lookup_empty. simpl. split; [intros [?|?]; done | by right].
Qed.

Lemma index_eligible nodes atx :
  index (malfeasanceNodesMap nodes) (database.NodeID atx) = false ↔ eligible nodes atx.
Proof.
  unfold eligible. rewrite <- index_malfeasanceNodesMap.
  destruct (index _ _); naive_solver.
Qed.

(** ** The selection loop *)

Lemma selectStep_take nodes h id atx :
  0 <= h < 2 ^ 64 → eligible nodes atx → h < atxHeight atx →
  selectStep (malfeasanceNodesMap nodes) (h, id) atx = (atxHeight atx, database.AtxID atx).
Proof.
  intros Hh He Hlt. unfold selectStep. rewrite (uint64_small h) by done.
  apply index_eligible in He. rewrite He.
  destruct (Z.ltb_spec h (atxHeight atx)); [done | lia].
Qed.

Lemma selectStep_skip nodes h id atx :
  0 <= h < 2 ^ 64 → (eligible nodes atx → atxHeight atx <= h) →
  selectStep (malfeasanceNodesMap nodes) (h, id) atx = (h, id).
Proof.
  intros Hh He. unfold selectStep. rewrite (uint64_small h) by done.
  destruct (Z.ltb_spec h (atxHeight atx)) as [Hlt|]; [|done].
  destruct (index _ _) eqn:Hi; [done |].
  apply index_eligible in Hi. apply He in Hi. lia.
Qed.

(** Nothing in the rest of the list beats the tracked maximum. *)
Lemma select_fold_keep nodes atxs h id :
  0 <= h < 2 ^ 64 →
  (∀ b, b ∈ atxs → eligible nodes b → atxHeight b <= h) →
  fold_left (selectStep (malfeasanceNodesMap nodes)) atxs (h, id) = (h, id).
Proof.
  revert h id. induction atxs as [|x atxs IH]; intros h id Hh Hle; cbn [fold_left]; [done |].
  rewrite selectStep_skip; [| done | intros; apply Hle; [left | done]].
  apply IH; [done |]. intros b Hb. apply Hle. by right.
Qed.

(** The loop, started below the height of the first highest eligible ATX,
    ends on that ATX. *)
Lemma select_fold_first_highest nodes pre atx post h id :
  0 <= h < 2 ^ 64 → h < atxHeight atx →
  first_highest nodes pre atx post →
  fold_left (selectStep (malfeasanceNodesMap nodes)) (pre ++ atx :: post) (h, id)
  = (atxHeight atx, database.AtxID atx).
Proof.
  intros Hh Hlt (He & Hpre & Hpost). revert h id Hh Hlt.
  induction pre as [|x pre IH]; intros h id Hh Hlt; cbn [fold_left app].
  - rewrite selectStep_take by done.
    apply select_fold_keep; [apply atxHeight_range | done].
  - assert (Hx : eligible nodes x → atxHeight x < atxHeight atx)
      by (apply Hpre; left).
    unfold selectStep at 2. rewrite (uint64_small h) by done.
    destruct ((h <? atxHeight x) && negb (index _ _)) eqn:Hc.
    + apply andb_prop in Hc as [_ Hn]. apply negb_true_iff, index_eligible in Hn.
      apply IH; [intros; apply Hpre; [by right | done] | apply atxHeight_range | auto].
    + apply IH; [intros; apply Hpre; [by right | done] | done | done].
Qed.

(** Every list either has no eligible ATX above the starting height, or has
    a first highest eligible ATX above it. *)
Lemma first_highest_total nodes atxs h :
  (∀ b, b ∈ atxs → eligible nodes b → atxHeight b <= h) ∨
  (∃ pre atx post, atxs = pre ++ atx :: post ∧ first_highest nodes pre atx post ∧
                   h < atxHeight atx).
Proof.
  induction atxs as [|x atxs IH].
  - left. intros b Hb. by apply elem_of_nil in Hb.
  - assert (Hdec : eligible nodes x ∨ ¬ eligible nodes x).
    { rewrite <- index_eligible. destruct (index _ _); [right | left]; done. }
    destruct IH as [Hall | (pre & atx & post & -> & (He & Hpre & Hpost) & Hlt)].
    + destruct Hdec as [Hx | Hx]; [destruct (Z_lt_le_dec h (atxHeight x)) as [Hhx|Hhx] |].
      * right. exists [], x, atxs. repeat split; [done | | | done].
        -- intros b Hb. by apply elem_of_nil in Hb.
        -- intros b Hb Hel. specialize (Hall b Hb Hel). lia.
      * left. intros b Hb Hel. apply elem_of_cons in Hb as [-> | Hb]; auto.
      * left. intros b Hb Hel. apply elem_of_cons in Hb as [-> | Hb]; [done | auto].
    + right.
      destruct Hdec as [Hx | Hx];
        [destruct (Z_lt_le_dec (atxHeight x) (atxHeight atx)) as [Hxa|Hxa] |].
      * exists (x :: pre), atx, post. repeat split; [done | | done | done].
        intros b Hb Hel. apply elem_of_cons in Hb as [-> | Hb]; auto.
      * exists [], x, (pre ++ atx :: post). repeat split; [done | | | lia].
        -- intros b Hb. by apply elem_of_nil in Hb.
        -- intros b Hb Hel. apply elem_of_app in Hb as [Hb | Hb].
           ++ specialize (Hpre b Hb Hel). lia.
           ++ apply elem_of_cons in Hb as [-> | Hb]; [done |].
              specialize (Hpost b Hb Hel). lia.
      * exists (x :: pre), atx, post. repeat split; [done | | done | done].
        intros b Hb Hel. apply elem_of_cons in Hb as [-> | Hb]; [done | auto].
Qed.

Lemma selectHighest_first_highest nodes pre atx post :
  first_highest nodes pre atx post → 0 < atxHeight atx →
  selectHighest (pre ++ atx :: post) nodes = database.AtxID atx.
Proof.
  intros Hfh Hpos. unfold selectHighest.
  rewrite (select_fold_first_highest nodes pre atx post 0 "") by (done || lia).
  done.
Qed.

Lemma selectHighest_none nodes atxs :
  (∀ b, b ∈ atxs → eligible nodes b → atxHeight b = 0) →
  selectHighest atxs nodes = "".
Proof.
  intros Hall. unfold selectHighest. rewrite select_fold_keep; [done | lia |].
  intros b Hb Hel. rewrite (Hall b Hb Hel). lia.
Qed.

(** What [getHigestAtx] returns when both of its queries succeed. *)
Lemma getHigestAtx_ok n tr epoch atxs nodes :
  database.GetAtxForEpoch (db n) epoch = Ok atxs →
  database.GetMalfeasanceNodes (db n) = Ok nodes →
  getHigestAtx epoch {| self := n; trace := tr |}
  = (Some (Ok (selectHighest atxs nodes)),
     {| self := n; trace := (tr ++ [CallGetAtxForEpoch epoch]) ++ [CallGetMalfeasanceNodes] |}).
Proof.
  intros H1 H2. unfold getHigestAtx, call, bind, emit, receiver, ret. simpl.
  rewrite H1. simpl. rewrite H2. reflexivity.
Qed.

(** C1, as amended. For every list of ATXs of an epoch and every list of
    flagged nodes, [getHigestAtx] returns the identifier of the first ATX, in
    query order, that is not authored by a flagged node and whose height
    [uint64(baseTick + tickCount)] is non-zero and greatest among the ATXs of
    unflagged authors: a flagged ATX never wins whatever its height, and of
    two unflagged ATXs of equal height the earlier one is kept. When no
    unflagged ATX has a non-zero height the empty identifier is returned.
    One of the two cases always applies. *)
Theorem getHigestAtx_first_highest_nonzero n tr epoch atxs nodes :
  database.GetAtxForEpoch (db n) epoch = Ok atxs →
  database.GetMalfeasanceNodes (db n) = Ok nodes →
  let returned := fst (getHigestAtx epoch {| self := n; trace := tr |}) in
  (∀ pre atx post,
     atxs = pre ++ atx :: post → first_highest nodes pre atx post →
     0 < atxHeight atx →
     returned = Some (Ok (database.AtxID atx))) ∧
  ((∀ b, b ∈ atxs → eligible nodes b → atxHeight b = 0) →
     returned = Some (Ok "")) ∧
  ((∃ pre atx post,
      atxs = pre ++ atx :: post ∧ first_highest nodes pre atx post ∧
      0 < atxHeight atx) ∨
   (∀ b, b ∈ atxs → eligible nodes b → atxHeight b = 0)).
Proof.
  intros H1 H2 returned. subst returned.
  rewrite (getHigestAtx_ok _ _ _ _ _ H1 H2). cbn [fst].
  split; [| split].
  - intros pre atx post -> Hfh Hpos. by rewrite selectHighest_first_highest.
  - intros Hall. by rewrite selectHighest_none.
  - destruct (first_highest_total nodes atxs 0) as [Hall | Hex]; [right | by left].
    intros b Hb Hel. pose proof (atxHeight_range b). specialize (Hall b Hb Hel). lia.
Qed.

Lemma getHigestAtx_first_highest_nonzero_witness :
  fst (getHigestAtx 9 {| self := scenario; trace := [] |}) = Some (Ok "bb03").
Proof.
  refine (proj1 (getHigestAtx_first_highest_nonzero scenario [] 9
                   (scenarioAtxs 9) scenarioNodes eq_refl eq_refl)
            [mkAtx "aa01" "node-1" 10 5; mkAtx "ff02" "node-bad" 100 100]
            (mkAtx "bb03" "node-2" 20 10)
            [mkAtx "cc04" "node-3" 15 15] eq_refl _ _).
  - split; [| split].
    + unfold eligible. simpl. not_member.
    + intros b Hb Hel. each_member Hb; [reflexivity |].
      exfalso. apply Hel. simpl. apply elem_of_cons. by left.
    + intros b Hb _. each_member Hb. vm_compute. discriminate.
  - reflexivity.
Defined.

(** C1, as stated, fails: an unflagged ATX of height 0 is the first highest
    eligible ATX of its list, and the empty identifier is returned. *)
Lemma getHigestAtx_zero_height_not_selected : ¬ selects_first_highest_always.
Proof.
  intros Hclaim.
  specialize (Hclaim
    (sampleState (sampleDB 4000 (fun _ => [mkAtx "aa01" "node-1" 0 0]) []))
    [] 9 [] [] (mkAtx "aa01" "node-1" 0 0) [] eq_refl eq_refl).
  assert (Hfh : first_highest [] [] (mkAtx "aa01" "node-1" 0 0) []).
  { split; [| split].
    - intros H. by apply elem_of_nil in H.
    - intros b Hb. by apply elem_of_nil in Hb.
    - intros b Hb. by apply elem_of_nil in Hb. }
  specialize (Hclaim Hfh). vm_compute in Hclaim. discriminate.
Qed.

(** ** A refresh cycle, step by step *)

Ltac run_cycle :=
  unfold fetchNetworkInfo, or_return, getHigestAtx, call, bind, emit, receiver,
    ret, return_, networkInfo_Store; cbn [self trace fst snd].

(** A cycle in which every step succeeds makes the calls in order and ends
    with the one store. *)
Lemma fetchNetworkInfo_ok unspecified n tr a :
  every_step_ok n a →
  fetchNetworkInfo unspecified {| self := n; trace := tr |}
  = (Some tt,
     {| self := published n unspecified a;
        trace := tr ++ calls n a ++
                 [StoreNetworkInfo INFO_KEY (GetInfo (published n unspecified a))] |}).
Proof.
  intros [(H1 & H2 & H3 & H4 & H5 & H6 & H7 & H8 & H9 & H11) H10].
  unfold previous, epochOf in *. cbn zeta in *.
  run_cycle.
  rewrite H1; cbn. rewrite H2; cbn. rewrite H3; cbn. rewrite H4; cbn.
  rewrite H5; cbn. rewrite H6; cbn. rewrite H7; cbn. rewrite H8; cbn.
  rewrite H9; cbn. rewrite H10; cbn. rewrite H11; cbn.
  unfold published, GetInfo, calls, previous, epochOf. cbn.
  rewrite lookup_insert_eq. repeat rewrite <- app_assoc. reflexivity.
Qed.

Lemma returned_early_intro n tr t evs :
  t = tr ++ evs →
  Forall (fun e => is_store_info e = false) evs →
  (∃ format err, last evs = Some (Printf format err)) →
  returned_early n tr (None, {| self := n; trace := t |}).
Proof. intros -> ? ?. by exists evs. Qed.

Ltac early :=
  eapply returned_early_intro;
  [ rewrite <- ?app_assoc; reflexivity
  | repeat constructor
  | eauto ].

(** The next query of the cycle either fails, and the cycle returns, or
    answers. *)
Ltac next_query :=
  lazymatch goal with
  | |- context [match ?r with Ok _ => _ | Err _ => _ end] =>
      let E := fresh "E" in
      destruct r eqn:E; cbn; [| early]
  end.

Lemma fetchNetworkInfo_fails unspecified n tr :
  some_step_fails n →
  returned_early n tr (fetchNetworkInfo unspecified {| self := n; trace := tr |}).
Proof.
  intros Hfail. run_cycle.
  destruct (database.GetLastProcessedLayer (db n)) as [l|e] eqn:E1; cbn; [| early].
  destruct Hfail as [[? ?] | (l' & Hl & Hfail)]; [congruence |].
  rewrite E1 in Hl. injection Hl as <-.
  unfold previous, epochOf, failed in Hfail. cbn zeta in Hfail.
  do 10 next_query.
  exfalso. decompose [or ex and] Hfail; congruence.
Qed.

Lemma run_fetchNetworkInfo_ok unspecified n a :
  every_step_ok n a →
  run (fetchNetworkInfo unspecified) n
  = (published n unspecified a,
     calls n a ++ [StoreNetworkInfo INFO_KEY (GetInfo (published n unspecified a))]).
Proof.
  intros Hok. unfold run. by rewrite (fetchNetworkInfo_ok _ _ _ _ Hok).
Qed.

Lemma run_fetchNetworkInfo_fails unspecified n :
  some_step_fails n →
  ∃ evs, run (fetchNetworkInfo unspecified) n = (n, evs) ∧
         Forall (fun e => is_store_info e = false) evs.
Proof.
  intros Hfail.
  destruct (fetchNetworkInfo_fails unspecified n [] Hfail) as (evs & Heq & Hns & _).
  exists evs. unfold run. by rewrite Heq.
Qed.

(** The two cases are exhaustive. *)
Lemma steps_total n : some_step_fails n ∨ ∃ a, every_step_ok n a.
Proof.
  unfold some_step_fails, failed.
  destruct (database.GetLastProcessedLayer (db n)) as [l|] eqn:E1; [| left; left; eauto].
  destruct (database.CountAtxEpoch (db n) (previous (epochOf n l))) as [c1|] eqn:E2;
    [| left; right; exists l; split; [done |]; cbn zeta; eauto 12].
  destruct (database.CountAtxEpoch (db n) (uint64 (epochOf n l))) as [c2|] eqn:E3;
    [| left; right; exists l; split; [done |]; cbn zeta; eauto 12].
  destruct (database.CountAccounts (db n)) as [c3|] eqn:E4;
    [| left; right; exists l; split; [done |]; cbn zeta; eauto 12].
  destruct (database.GetNetworkInfo (db n)) as [i|] eqn:E5;
    [| left; right; exists l; split; [done |]; cbn zeta; eauto 12].
  destruct (database.GetAtxEpoch (db n) (previous (epochOf n l))) as [t1|] eqn:E6;
    [| left; right; exists l; split; [done |]; cbn zeta; eauto 12].
  destruct (database.GetAtxEpoch (db n) (uint64 (epochOf n l))) as [t2|] eqn:E7;
    [| left; right; exists l; split; [done |]; cbn zeta; eauto 12].
  destruct (database.GetAtxForEpoch (db n) (previous (epochOf n l))) as [xs|] eqn:E8;
    [| left; right; exists l; split; [done |]; cbn zeta; eauto 12].
  destruct (database.GetMalfeasanceNodes (db n)) as [ms|] eqn:E9;
    [| left; right; exists l; split; [done |]; cbn zeta; eauto 12].
  destruct (hexToBase64 (selectHighest xs ms)) as [b|] eqn:E10;
    [| left; right; exists l; split; [done |]; cbn zeta;
       do 8 right; left; exists xs, ms; eauto].
  destruct (NetworkUtils.GetNumberOfSlots (networkUtils n)
              (uint64 (database.TotalWeight t1)) (database.TotalWeight t1)
              (epochOf n l)) as [sl|] eqn:E11;
    [| left; right; exists l; split; [done |]; cbn zeta;
       do 9 right; exists t1; eauto].
  right.
  exists {| layer := l; atxEpoch := c1; atxNextEpoch := c2; totalAccounts := c3;
            dbInfo := i; atxEpochTotals := t1; atxNextEpochTotals := t2;
            atxs := xs; malfeasanceNodes := ms; base64Atx := b; totalSlots := sl |}.
  repeat split; assumption.
Qed.

Lemma steps_exclusive n a : every_step_ok n a → ¬ some_step_fails n.
Proof.
  intros [(H1 & H2 & H3 & H4 & H5 & H6 & H7 & H8 & H9 & H11) H10] Hfail.
  destruct Hfail as [[? ?] | (l' & Hl & Hfail)]; [congruence |].
  rewrite H1 in Hl. injection Hl as <-.
  unfold failed in Hfail. cbn zeta in *.
  decompose [or ex and] Hfail; congruence.
Qed.

(** C2. If any step of a snapshot refresh cycle fails (the read of the last
    processed layer, a count or totals query for either epoch, the accounts
    count, the network-info query, the selection of the highest ATX, the
    base64 conversion, the slot computation) the cycle stores nothing: the
    receiver, and with it the published snapshot or its absence, is exactly
    as before. A store is observed, or the receiver changes, only when every
    step succeeds. *)
Theorem fetchNetworkInfo_failure_publishes_nothing unspecified n :
  let '(n', observed) := run (fetchNetworkInfo unspecified) n in
  (some_step_fails n →
     n' = n ∧
     networkInfo n' !! INFO_KEY = networkInfo n !! INFO_KEY ∧
     GetInfo n' = GetInfo n ∧
     Forall (fun e => is_store_info e = false) observed) ∧
  ((∃ key v, StoreNetworkInfo key v ∈ observed) → ∃ a, every_step_ok n a) ∧
  (n' ≠ n → ∃ a, every_step_ok n a).
Proof.
  destruct (run (fetchNetworkInfo unspecified) n) as [n' observed] eqn:Hrun.
  assert (Hfails : some_step_fails n →
            n' = n ∧ Forall (fun e => is_store_info e = false) observed).
  { intros Hfail.
    destruct (run_fetchNetworkInfo_fails unspecified n Hfail) as (evs & Heq & Hns).
    rewrite Hrun in Heq. by injection Heq as -> ->. }
  split; [| split].
  - intros Hfail. destruct (Hfails Hfail) as [-> Hns]. done.
  - intros (key & v & Hin).
    destruct (steps_total n) as [Hfail | Hok]; [| done].
    destruct (Hfails Hfail) as [_ Hns].
    rewrite Forall_forall in Hns. specialize (Hns _ Hin). discriminate.
  - intros Hne. destruct (steps_total n) as [Hfail | Hok]; [| done].
    by destruct (Hfails Hfail).
Qed.

Lemma failing_cycle_step_fails n : db n = failingDB → some_step_fails n.
Proof.
  intros Hdb. right. exists {| database.Layer := 4000 |}. rewrite Hdb.
  split; [reflexivity |]. cbn zeta. do 2 right. left. eexists. reflexivity.
Qed.

Lemma fetchNetworkInfo_failure_publishes_nothing_witness :
  let before := with_db failingDB (fst (run (fetchNetworkInfo amd64) scenario)) in
  let after := fst (run (fetchNetworkInfo amd64) before) in
  after = before ∧ GetInfo after = GetInfo before.
Proof.
  intros before after. subst after.
  pose proof (fetchNetworkInfo_failure_publishes_nothing amd64 before) as H.
  destruct (run (fetchNetworkInfo amd64) before) as [n' observed].
  destruct H as [H _].
  destruct (H (failing_cycle_step_fails before eq_refl)) as (Hsame & _ & Hinfo & _).
  exact (conj Hsame Hinfo).
Defined.

Example failing_cycle_keeps_epoch_10 :
  let before := with_db failingDB (fst (run (fetchNetworkInfo amd64) scenario)) in
  types.Epoch (GetInfo (fst (run (fetchNetworkInfo amd64) before))) = 10.
Proof. vm_compute. reflexivity. Qed.

(** ** The published snapshot *)

Lemma previous_pred N : 1 <= N < 2 ^ 32 → previous N = N - 1.
Proof.
  intros. unfold previous. rewrite uint32_small by lia. apply uint64_small. lia.
Qed.

Lemma previous_zero : previous 0 = MaxUint32.
Proof. reflexivity. Qed.

Lemma epochOf_range n l : 0 <= epochOf n l < 2 ^ 32.
Proof. apply uint32_range. Qed.

(** C6. When a refresh cycle succeeds and the last processed layer maps to
    epoch [N], the published snapshot has [Epoch = N] and
    [NextEpoch.Epoch = N + 1] (in 32 bits); [TotalActiveSmeshers] is the ATX
    count of epoch [N - 1] and [NextEpoch.TotalActiveSmeshers] that of epoch
    [N]; [TotalWeight] and [EffectiveUnitsCommited] are those of the totals
    of epoch [N - 1]; [MarketCap] is the float64 product of the circulating
    supply and the price, truncated to an unsigned integer; and
    [TotalAccounts] is the accounts count plus 28. The answers [a] are those
    of the queries named in [collaborators_ok]; [previous N] is [N - 1] for
    [N >= 1]. *)
Theorem fetchNetworkInfo_snapshot_fields unspecified n a :
  every_step_ok n a →
  let N := epochOf n (layer a) in
  let info := GetInfo (fst (run (fetchNetworkInfo unspecified) n)) in
  let product :=
    float64_mul (float64_of_int (database.CirculatingSupply (dbInfo a)))
      (price.GetPrice (priceResolver n)) in
  (database.CountAtxEpoch (db n) (previous N) = Ok (atxEpoch a) ∧
   database.CountAtxEpoch (db n) (uint64 N) = Ok (atxNextEpoch a) ∧
   database.GetAtxEpoch (db n) (previous N) = Ok (atxEpochTotals a) ∧
   database.CountAccounts (db n) = Ok (totalAccounts a) ∧
   database.GetNetworkInfo (db n) = Ok (dbInfo a) ∧
   uint64 N = N ∧ (1 <= N → previous N = N - 1)) ∧
  types.Epoch info = N ∧
  (∃ next, types.NextEpoch info = Some next ∧
     types.NextEpoch_Epoch next = uint32 (N + 1) ∧
     (N + 1 < 2 ^ 32 → types.NextEpoch_Epoch next = N + 1) ∧
     types.NextEpoch_TotalActiveSmeshers next = atxNextEpoch a) ∧
  types.TotalActiveSmeshers info = uint64 (atxEpoch a) ∧
  (0 <= atxEpoch a < 2 ^ 64 → types.TotalActiveSmeshers info = atxEpoch a) ∧
  types.TotalWeight info = database.TotalWeight (atxEpochTotals a) ∧
  types.EffectiveUnitsCommited info = database.TotalEffectiveNumUnits (atxEpochTotals a) ∧
  types.MarketCap info = uint64_of_float64 unspecified product ∧
  (∀ z, float64_trunc product = Some z → 0 <= z < 2 ^ 64 → types.MarketCap info = z) ∧
  types.TotalAccounts info = uint64 (int64 (totalAccounts a + 28)) ∧
  (0 <= totalAccounts a < 2 ^ 63 - 28 → types.TotalAccounts info = totalAccounts a + 28).
Proof.
  intros Hok N info product. subst info.
  rewrite (run_fetchNetworkInfo_ok _ _ _ Hok). cbn [fst].
  destruct Hok as [(H1 & H2 & H3 & H4 & H5 & H6 & H7 & H8 & H9 & H11) H10].
  cbn zeta in *. fold N in H2, H3, H6, H7, H8, H11.
  pose proof (epochOf_range n (layer a)) as HN. fold N in HN.
  unfold GetInfo, published. cbn [networkInfo]. rewrite lookup_insert_eq.
  cbn [types.Epoch types.NextEpoch types.TotalActiveSmeshers types.TotalWeight
       types.EffectiveUnitsCommited types.MarketCap types.TotalAccounts].
  fold N. fold product.
  split; [| split; [| split; [| split; [| split; [| split; [| split; [| split; [| split; [| split]]]]]]]]].
  - repeat split; try assumption.
    + apply uint64_small. lia.
    + intros. apply previous_pred. lia.
  - reflexivity.
  - eexists. split; [reflexivity |]. cbn. repeat split.
    intros. apply uint32_small. lia.
  - reflexivity.
  - intros. by apply uint64_small.
  - reflexivity.
  - reflexivity.
  - reflexivity.
  - intros z Hz Hr. unfold uint64_of_float64. rewrite Hz.
    destruct (Z.leb_spec 0 z); [| lia]. destruct (Z.ltb_spec z (2 ^ 64)); [| lia]. done.
  - reflexivity.
  - intros. rewrite uint64_int64. apply uint64_small. lia.
Qed.

Lemma scenario_every_step_ok : every_step_ok scenario scenarioAnswers.
Proof. repeat split; reflexivity. Qed.

Lemma fetchNetworkInfo_snapshot_fields_witness :
  let info := GetInfo (fst (run (fetchNetworkInfo amd64) scenario)) in
  types.Epoch info = 10 ∧
  types.MarketCap info = 100000 ∧
  types.NextEpoch_Epoch <$> types.NextEpoch info = Some 11 ∧
  types.TotalActiveSmeshers info = 12 ∧
  types.NextEpoch_TotalActiveSmeshers <$> types.NextEpoch info = Some 15 ∧
  types.TotalWeight info = 1000 ∧
  types.EffectiveUnitsCommited info = 50 ∧
  types.TotalAccounts info = 128.
Proof.
  destruct (fetchNetworkInfo_snapshot_fields amd64 scenario scenarioAnswers
              scenario_every_step_ok)
    as (_ & HE & (next & Hnext & _ & HnE & HnS) & _ & HS & HW & HU & _ & HM & _ & HA).
  intros info. subst info.
  rewrite Hnext. cbn [fmap option_fmap option_map].
  rewrite HE, (HM 100000), HS, HW, HU, HA, HnS, HnE.
  all: by_computation.
Defined.

Example price_0_05_valid : valid_binary 53 1024 price_0_05 = true.
Proof. reflexivity. Qed.

(** [price_0_05] is within half a unit in the last place of 1/20. *)
Example price_0_05_nearest : Z.abs (20 * 7205759403792794 - 2 ^ 57) <= 10.
Proof. by_computation. Qed.

(** The product is a float64 product: it is rounded before it is truncated.
    [uint64(float64(10) * 0.7)] is 7, although the float64 nearest to 0.7 is
    below 0.7. *)
Example market_cap_rounds_then_truncates :
  uint64_of_float64 amd64
    (float64_mul (float64_of_int 10) (S754_finite false 6305039478318694 (-53))) = 7.
Proof. reflexivity. Qed.

(** Out of range the result is the platform's: on amd64 a negative product
    wraps, and one beyond the type gives [2^63]. *)
Example market_cap_out_of_range :
  uint64_of_float64 amd64
    (float64_mul (float64_of_int 2000000) (S754_finite true 7205759403792794 (-57)))
  = 2 ^ 64 - 100000 ∧
  uint64_of_float64 amd64
    (float64_mul (float64_of_int (2 ^ 63)) (float64_of_int 4)) = 2 ^ 63.
Proof. split; vm_compute; reflexivity. Qed.

(** ** Total slots *)

(** C9. In a successful refresh cycle the slot-count function is called
    once, with the total weight of epoch [N - 1] as both weight arguments
    (the first converted to [uint64], which leaves a weight unchanged) and
    with the current epoch [N]; [TotalSlots] is that result as a [uint64]. *)
Theorem fetchNetworkInfo_total_slots unspecified n a :
  every_step_ok n a →
  let N := epochOf n (layer a) in
  let w := database.TotalWeight (atxEpochTotals a) in
  let '(n', observed) := run (fetchNetworkInfo unspecified) n in
  database.GetAtxEpoch (db n) (previous N) = Ok (atxEpochTotals a) ∧
  List.filter is_slots_call observed = [CallGetNumberOfSlots (uint64 w) w N] ∧
  (0 <= w < 2 ^ 64 → uint64 w = w) ∧
  NetworkUtils.GetNumberOfSlots (networkUtils n) (uint64 w) w N = Ok (totalSlots a) ∧
  types.TotalSlots (GetInfo n') = uint64 (totalSlots a).
Proof.
  intros Hok N w. rewrite (run_fetchNetworkInfo_ok _ _ _ Hok).
  destruct Hok as [(H1 & H2 & H3 & H4 & H5 & H6 & H7 & H8 & H9 & H11) H10].
  cbn zeta in *. fold N in H6. fold N w in H11.
  repeat split; try assumption.
  - apply uint64_small.
  - unfold GetInfo, published. cbn [networkInfo]. by rewrite lookup_insert_eq.
Qed.

Lemma fetchNetworkInfo_total_slots_witness :
  List.filter is_slots_call (snd (run (fetchNetworkInfo amd64) scenario))
  = [CallGetNumberOfSlots 1000 1000 10] ∧
  types.TotalSlots (GetInfo (fst (run (fetchNetworkInfo amd64) scenario))) = 10.
Proof.
  pose proof (fetchNetworkInfo_total_slots amd64 scenario scenarioAnswers
                scenario_every_step_ok) as H.
  cbn zeta in H.
  destruct (run (fetchNetworkInfo amd64) scenario) as [n' observed].
  destruct H as (_ & Hcall & _ & _ & Hslots).
  cbn [fst snd]. rewrite Hcall, Hslots. split; reflexivity.
Defined.

(** ** Epoch 0 *)

(** The cycle as far as its first query for the previous epoch. *)
Lemma fetchNetworkInfo_first_queries unspecified n l :
  database.GetLastProcessedLayer (db n) = Ok l →
  ∃ rest,
    snd (run (fetchNetworkInfo unspecified) n)
    = [ CallGetLastProcessedLayer;
        CallGetEpoch (uint64 (database.Layer l));
        CallCountAtxEpoch (previous (epochOf n l)) ] ++ rest.
Proof.
  intros E1. unfold run, previous, epochOf. run_cycle. rewrite E1. cbn.
  repeat lazymatch goal with
  | |- context [match ?r with Ok _ => _ | Err _ => _ end] =>
      destruct r; cbn; [| eexists; reflexivity]
  end.
  eexists; reflexivity.
Qed.

(** C10. When the last processed layer maps to epoch 0 the refresh neither
    fails nor skips on that account: [epoch - 1] wraps to the greatest 32-bit
    value, 4294967295; the cycle goes on to query the store with it; it fails
    only if some step fails; and when every step succeeds the count, the
    totals and the ATXs of the "previous" epoch are those the store holds
    for epoch 4294967295, and the snapshot is stored. *)
Theorem fetchNetworkInfo_epoch_zero unspecified n l :
  database.GetLastProcessedLayer (db n) = Ok l →
  epochOf n l = 0 →
  let '(n', observed) := run (fetchNetworkInfo unspecified) n in
  previous 0 = MaxUint32 ∧ MaxUint32 = 2 ^ 32 - 1 ∧
  (∃ rest, observed =
     [ CallGetLastProcessedLayer;
       CallGetEpoch (uint64 (database.Layer l));
       CallCountAtxEpoch MaxUint32 ] ++ rest) ∧
  (some_step_fails n ∨ ∃ a, every_step_ok n a) ∧
  (∀ a, every_step_ok n a →
     database.CountAtxEpoch (db n) MaxUint32 = Ok (atxEpoch a) ∧
     database.GetAtxEpoch (db n) MaxUint32 = Ok (atxEpochTotals a) ∧
     database.GetAtxForEpoch (db n) MaxUint32 = Ok (atxs a) ∧
     observed =
       [ CallGetLastProcessedLayer;
         CallGetEpoch (uint64 (database.Layer l));
         CallCountAtxEpoch MaxUint32;
         CallCountAtxEpoch 0;
         CallCountAccounts;
         CallGetNetworkInfo;
         CallGetAtxEpoch MaxUint32;
         CallGetAtxEpoch 0;
         CallGetAtxForEpoch MaxUint32;
         CallGetMalfeasanceNodes;
         CallGetNumberOfSlots (uint64 (database.TotalWeight (atxEpochTotals a)))
           (database.TotalWeight (atxEpochTotals a)) 0;
         CallGetPrice;
         CallGetEpochSubsidy 0;
         StoreNetworkInfo INFO_KEY (GetInfo n') ] ∧
     types.Epoch (GetInfo n') = 0 ∧
     types.TotalActiveSmeshers (GetInfo n') = uint64 (atxEpoch a) ∧
     types.TotalWeight (GetInfo n') = database.TotalWeight (atxEpochTotals a) ∧
     types.AtxHex (GetInfo n') = selectHighest (atxs a) (malfeasanceNodes a)).
Proof.
  intros E1 Hzero.
  pose proof (fetchNetworkInfo_first_queries unspecified n l E1) as Hfirst.
  rewrite Hzero in Hfirst.
  destruct (run (fetchNetworkInfo unspecified) n) as [n' observed] eqn:Hrun.
  cbn [snd] in Hfirst.
  split; [reflexivity |]. split; [reflexivity |]. split; [exact Hfirst |].
  split; [apply steps_total |].
  intros a Hok. rewrite (run_fetchNetworkInfo_ok _ _ _ Hok) in Hrun.
  injection Hrun as <- <-.
  destruct Hok as [(H1 & H2 & H3 & H4 & H5 & H6 & H7 & H8 & H9 & H11) H10].
  rewrite E1 in H1. injection H1 as Hl.
  cbn zeta in *. rewrite <- Hl, Hzero in *.
  split; [exact H2 |]. split; [exact H6 |]. split; [exact H8 |].
  split.
  - reflexivity.
  - unfold GetInfo, published. cbn [networkInfo]. rewrite lookup_insert_eq.
    cbn. rewrite <- Hl, Hzero. done.
Qed.

Lemma fetchNetworkInfo_epoch_zero_witness :
  let '(n', observed) := run (fetchNetworkInfo amd64) genesis in
  (∃ rest, observed =
     [CallGetLastProcessedLayer; CallGetEpoch 100; CallCountAtxEpoch 4294967295] ++ rest) ∧
  (some_step_fails genesis ∨ ∃ a, every_step_ok genesis a).
Proof.
  pose proof (fetchNetworkInfo_epoch_zero amd64 genesis {| database.Layer := 100 |}
                eq_refl eq_refl) as H.
  destruct (run (fetchNetworkInfo amd64) genesis) as [n' observed].
  destruct H as (_ & _ & Hfirst & Hcases & _).
  exact (conj Hfirst Hcases).
Defined.

Example genesis_previous_epoch_queries :
  let '(n', observed) := run (fetchNetworkInfo amd64) genesis in
  CallGetAtxEpoch 4294967295 ∈ observed ∧
  CallGetAtxForEpoch 4294967295 ∈ observed ∧
  types.TotalActiveSmeshers (GetInfo n') = 7 ∧
  types.AtxHex (GetInfo n') = "0a".
Proof.
  vm_compute. repeat split; apply list_elem_of_In; simpl; tauto.
Qed.

(** ** No eligible ATX *)

Lemma selectHighest_no_eligible nodes atxs :
  (∀ b, b ∈ atxs → ¬ eligible nodes b) → selectHighest atxs nodes = "".
Proof.
  intros Hnone. apply selectHighest_none. intros b Hb Hel. by destruct (Hnone b Hb).
Qed.

(** C5. When the ATX set of the previous epoch is empty, or every ATX in it
    is authored by a flagged node, [getHigestAtx] returns the empty
    identifier and no error; the base64 conversion of the empty string
    succeeds; so the cycle, its collaborators answering, is not aborted: it
    stores a snapshot whose [AtxHex] and [AtxBase64] are empty strings. *)
Theorem fetchNetworkInfo_no_eligible_atx unspecified n a :
  collaborators_ok n a →
  (∀ b, b ∈ atxs a → ¬ eligible (malfeasanceNodes a) b) →
  fst (getHigestAtx (previous (epochOf n (layer a))) {| self := n; trace := [] |})
  = Some (Ok "") ∧
  hexToBase64 "" = Ok "" ∧
  let '(n', observed) := run (fetchNetworkInfo unspecified) n in
  StoreNetworkInfo INFO_KEY (GetInfo n') ∈ observed ∧
  networkInfo n' !! INFO_KEY = Some (GetInfo n') ∧
  types.AtxHex (GetInfo n') = "" ∧
  types.AtxBase64 (GetInfo n') = "".
Proof.
  intros Hco Hnone.
  pose proof (selectHighest_no_eligible _ _ Hnone) as Hsel.
  split; [| split; [reflexivity |]].
  - destruct Hco as (_ & _ & _ & _ & _ & _ & _ & H8 & H9 & _). cbn zeta in *.
    rewrite (getHigestAtx_ok _ _ _ _ _ H8 H9). cbn [fst]. by rewrite Hsel.
  - set (a' := {| layer := layer a; atxEpoch := atxEpoch a;
                  atxNextEpoch := atxNextEpoch a; totalAccounts := totalAccounts a;
                  dbInfo := dbInfo a; atxEpochTotals := atxEpochTotals a;
                  atxNextEpochTotals := atxNextEpochTotals a; atxs := atxs a;
                  malfeasanceNodes := malfeasanceNodes a; base64Atx := "";
                  totalSlots := totalSlots a |}).
    assert (Hok : every_step_ok n a').
    { split; [exact Hco |]. subst a'. cbn [atxs malfeasanceNodes base64Atx].
      rewrite Hsel. reflexivity. }
    rewrite (run_fetchNetworkInfo_ok _ _ _ Hok).
    split; [apply elem_of_app; right; apply elem_of_cons; by left |].
    unfold GetInfo, published. cbn [networkInfo]. rewrite lookup_insert_eq.
    subst a'. cbn. rewrite Hsel. done.
Qed.

Lemma allFlagged_none_eligible :
  ∀ b, b ∈ atxs allFlaggedAnswers → ¬ eligible (malfeasanceNodes allFlaggedAnswers) b.
Proof.
  intros b Hb Hel. apply Hel.
  each_member Hb; simpl; apply elem_of_cons; by left.
Qed.

Lemma fetchNetworkInfo_no_eligible_atx_witness :
  fst (getHigestAtx 9 {| self := allFlagged; trace := [] |}) = Some (Ok "") ∧
  types.AtxHex (GetInfo (fst (run (fetchNetworkInfo amd64) allFlagged))) = "" ∧
  types.AtxBase64 (GetInfo (fst (run (fetchNetworkInfo amd64) allFlagged))) = "".
Proof.
  assert (Hco : collaborators_ok allFlagged allFlaggedAnswers)
    by (repeat split; reflexivity).
  pose proof (fetchNetworkInfo_no_eligible_atx amd64 allFlagged allFlaggedAnswers
                Hco allFlagged_none_eligible) as H.
  destruct (run (fetchNetworkInfo amd64) allFlagged) as [n' observed].
  destruct H as (Hsel & _ & _ & _ & Hhex & Hb64).
  exact (conj Hsel (conj Hhex Hb64)).
Defined.

Example empty_epoch_publishes_empty_identifier :
  let n' := fst (run (fetchNetworkInfo amd64)
                   (sampleState (sampleDB 4000 (fun _ => []) []))) in
  types.AtxHex (GetInfo n') = "" ∧ types.AtxBase64 (GetInfo n') = "" ∧
  types.Epoch (GetInfo n') = 10.
Proof. vm_compute. done. Qed.

(** ** The read contract *)

Lemma last_published_app observed key v :
  last_published (observed ++ [StoreNetworkInfo key v])
  = if String.eqb key INFO_KEY then Some v else last_published observed.
Proof. unfold last_published. rewrite fold_left_app. reflexivity. Qed.

Lemma last_published_fold observed acc :
  fold_left
    (fun acc e =>
       match e with
       | StoreNetworkInfo key v => if String.eqb key INFO_KEY then Some v else acc
       | _ => acc
       end)
    observed acc
  = match last_published observed with Some v => Some v | None => acc end.
Proof.
  revert acc. unfold last_published.
  induction observed as [|e observed IH]; intros acc; cbn [fold_left]; [done |].
  rewrite IH, (IH (match e with StoreNetworkInfo _ _ => _ | _ => _ end)).
  destruct (fold_left _ observed None); [done |].
  destruct e; try done. by destruct (String.eqb key INFO_KEY).
Qed.

Lemma last_published_app_list o1 o2 :
  last_published (o1 ++ o2)
  = match last_published o2 with Some v => Some v | None => last_published o1 end.
Proof.
  unfold last_published at 1. rewrite fold_left_app. apply last_published_fold.
Qed.

Lemma last_published_no_store observed :
  Forall (fun e => is_store_info e = false) observed → last_published observed = None.
Proof.
  unfold last_published. induction 1 as [|e observed He _ IH]; [done |].
  cbn [fold_left]. destruct e; try done.
Qed.

(** One cycle: the snapshot under [INFO_KEY] afterwards is the one stored in
    the cycle, or the one before. *)
Lemma fetchNetworkInfo_lookup unspecified n :
  let '(n', observed) := run (fetchNetworkInfo unspecified) n in
  networkInfo n' !! INFO_KEY
  = match last_published observed with
    | Some v => Some v
    | None => networkInfo n !! INFO_KEY
    end.
Proof.
  destruct (steps_total n) as [Hfail | [a Hok]].
  - destruct (run_fetchNetworkInfo_fails unspecified n Hfail) as (evs & -> & Hns).
    by rewrite last_published_no_store.
  - rewrite (run_fetchNetworkInfo_ok _ _ _ Hok).
    rewrite last_published_app. cbn [String.eqb INFO_KEY].
    unfold GetInfo, published. cbn [networkInfo]. by rewrite !lookup_insert_eq.
Qed.

Lemma cycles_fetchNetworkInfo_lookup unspecified worlds n :
  let '(n', observed) := cycles (fetchNetworkInfo unspecified) worlds n in
  networkInfo n' !! INFO_KEY
  = match last_published observed with
    | Some v => Some v
    | None => networkInfo n !! INFO_KEY
    end.
Proof.
  revert n. induction worlds as [|w worlds IH]; intros n; cbn [cycles]; [done |].
  pose proof (fetchNetworkInfo_lookup unspecified (with_world w n)) as H1.
  destruct (run (fetchNetworkInfo unspecified) (with_world w n)) as [n1 o1].
  specialize (IH n1).
  destruct (cycles (fetchNetworkInfo unspecified) worlds n1) as [n2 o2].
  rewrite IH, H1, last_published_app_list. cbn [with_world networkInfo].
  by destruct (last_published o2).
Qed.

(** C8. [GetInfo] returns the most recently published snapshot: after any
    number of refresh cycles, the snapshot of the last store observed, and
    what it returned before when nothing was stored. When no snapshot has
    ever been published it returns the zero-valued snapshot (a value, never
    nil and never an error). [GetEpochSubsidy] returns the stored amount, and
    0 for an epoch that has no entry. *)
Theorem GetInfo_GetEpochSubsidy_read_contract unspecified worlds n :
  (let '(n', observed) := cycles (fetchNetworkInfo unspecified) worlds n in
   GetInfo n' = match last_published observed with
                | Some v => v
                | None => GetInfo n
                end ∧
   (networkInfo n = ∅ → last_published observed = None → GetInfo n' = types.zero)) ∧
  (networkInfo n !! INFO_KEY = None → GetInfo n = types.zero) ∧
  (∀ v, networkInfo n !! INFO_KEY = Some v → GetInfo n = v) ∧
  (∀ v, GetInfo (fst (run (networkInfo_Store INFO_KEY v) n)) = v) ∧
  (∀ epoch amount,
     epochSubsidies n !! epoch = Some amount → GetEpochSubsidy n epoch = amount) ∧
  (∀ epoch, epochSubsidies n !! epoch = None → GetEpochSubsidy n epoch = 0) ∧
  (∀ epoch amount,
     GetEpochSubsidy (fst (run (epochSubsidies_Store epoch amount) n)) epoch = amount).
Proof.
  split; [| repeat split].
  - pose proof (cycles_fetchNetworkInfo_lookup unspecified worlds n) as H.
    destruct (cycles (fetchNetworkInfo unspecified) worlds n) as [n' observed].
    unfold GetInfo. rewrite H. split.
    + by destruct (last_published observed).
    + intros -> ->. by rewrite lookup_empty.
  - intros H. unfold GetInfo. by rewrite H.
  - intros v H. unfold GetInfo. by rewrite H.
  - intros v. unfold GetInfo, run, networkInfo_Store. cbn. by rewrite lookup_insert_eq.
  - intros epoch amount H. unfold GetEpochSubsidy. by rewrite H.
  - intros epoch H. unfold GetEpochSubsidy. by rewrite H.
  - intros epoch amount. unfold GetEpochSubsidy, run, epochSubsidies_Store. cbn.
    by rewrite lookup_insert_eq.
Qed.

Example GetInfo_before_first_cycle : GetInfo scenario = types.zero.
Proof. reflexivity. Qed.

Example GetInfo_after_cycles :
  let worlds :=
    [ (sampleDB 4000 scenarioAtxs scenarioNodes, {| price.GetPrice := price_0_05 |});
      (failingDB, {| price.GetPrice := price_0_05 |});
      (sampleDB 4400 scenarioAtxs scenarioNodes, {| price.GetPrice := price_0_05 |});
      (failingDB, {| price.GetPrice := price_0_05 |}) ] in
  types.Epoch (GetInfo (fst (cycles (fetchNetworkInfo amd64) worlds scenario))) = 11.
Proof. vm_compute. reflexivity. Qed.

(** ** The subsidy table refresh *)

Lemma subsidyLoop_done i m : i < 2 → subsidyLoop i m = (Some tt, m).
Proof.
  intros Hi. rewrite subsidyLoop_equation_1.
  destruct (Z_le_dec 2 i); [lia | reflexivity].
Qed.

Lemma subsidyLoop_step i m :
  2 <= i → subsidyLoop i m = subsidyLoop (uint32 (i - 1)) (snd (storeSubsidy i m)).
Proof.
  intros Hi. rewrite subsidyLoop_equation_1.
  destruct (Z_le_dec 2 i); [reflexivity | lia].
Qed.

Lemma descending_done i : i < 2 → descending i = [].
Proof. intros. unfold descending. by rewrite seqZ_nil by lia. Qed.

Lemma descending_step i : 2 <= i → descending i = i :: descending (i - 1).
Proof.
  intros. unfold descending.
  replace (i - 1) with ((i - 1 - 1) + 1) at 1 by lia.
  rewrite seqZ_app by lia. rewrite reverse_app.
  replace (2 + (i - 1 - 1)) with i by lia.
  rewrite (seqZ_cons i 1) by lia. by rewrite seqZ_nil by lia.
Qed.

Lemma elem_of_descending i k : k ∈ descending i ↔ 2 <= k <= i.
Proof.
  unfold descending. rewrite elem_of_reverse, elem_of_seqZ. lia.
Qed.

(** The loop from [i] stores the subsidy of every epoch from [i] down to 2,
    in that order, and then ends. *)
Lemma subsidyLoop_spec i n tr :
  0 <= i < 2 ^ 32 →
  subsidyLoop i {| self := n; trace := tr |}
  = (Some tt,
     {| self := with_epochSubsidies (stored_from (networkUtils n) i (epochSubsidies n)) n;
        trace := tr ++ loop_events (networkUtils n) i |}).
Proof.
  intros Hi. remember (Z.to_nat i) as k eqn:Hk.
  revert i n tr Hi Hk. induction k as [|k IH]; intros i n tr Hi Hk.
  - assert (i = 0) as -> by lia.
    rewrite subsidyLoop_done by lia.
    unfold stored_from, loop_events. rewrite descending_done by lia.
    cbn. rewrite app_nil_r. by destruct n.
  - destruct (Z_lt_le_dec i 2) as [Hlt | Hge].
    + rewrite subsidyLoop_done by lia.
      unfold stored_from, loop_events. rewrite descending_done by lia.
      cbn. rewrite app_nil_r. by destruct n.
    + rewrite subsidyLoop_step by lia.
      rewrite (uint32_small (i - 1)) by lia.
      unfold storeSubsidy, call, bind, emit, receiver, ret, epochSubsidies_Store.
      cbn [self trace fst snd].
      rewrite IH by lia.
      unfold stored_from, loop_events. rewrite (descending_step i) by lia.
      cbn. rewrite <- !app_assoc. reflexivity.
Qed.

Lemma stored_from_lookup utils i table e :
  stored_from utils i table !! e
  = if decide (2 <= e <= i) then Some (NetworkUtils.GetEpochSubsidy utils (uint64 e))
    else table !! e.
Proof.
  unfold stored_from.
  assert (Hgen : ∀ (l : list Z) (t : gmap Z Z),
    fold_left (fun t k => <[k := NetworkUtils.GetEpochSubsidy utils (uint64 k)]> t) l t !! e
    = if decide (e ∈ l) then Some (NetworkUtils.GetEpochSubsidy utils (uint64 e))
      else t !! e).
  { induction l as [|k l IH]; intros t; cbn [fold_left].
    - destruct (decide (e ∈ [])) as [H|]; [by apply elem_of_nil in H | done].
    - rewrite IH. destruct (decide (e ∈ l)) as [Hin | Hnin].
      + rewrite decide_True; [done | by right].
      + destruct (decide (k = e)) as [-> | Hne].
        * rewrite lookup_insert_eq. rewrite decide_True; [done | by left].
        * rewrite lookup_insert_ne by done.
          rewrite decide_False; [done |].
          intros H. apply elem_of_cons in H as [-> | H]; done. }
  rewrite Hgen.
  destruct (decide (e ∈ descending i)) as [Hin | Hnin];
    rewrite elem_of_descending in *;
    [rewrite decide_True | rewrite decide_False]; done.
Qed.

Lemma run_calculateEpochSubsidies_ok n l :
  database.GetLastProcessedLayer (db n) = Ok l →
  run calculateEpochSubsidies n
  = (with_epochSubsidies
       (stored_from (networkUtils n) (uint32 (epochOf n l + 1)) (epochSubsidies n)) n,
     [CallGetLastProcessedLayer; CallGetEpoch (uint64 (database.Layer l))]
     ++ loop_events (networkUtils n) (uint32 (epochOf n l + 1))).
Proof.
  intros E1. unfold run, calculateEpochSubsidies, or_return, call, bind, emit,
    receiver, ret, return_. cbn [self trace fst snd]. rewrite E1.
  cbn [app]. rewrite subsidyLoop_spec by apply uint32_range. reflexivity.
Qed.

Lemma run_calculateEpochSubsidies_fails n err :
  database.GetLastProcessedLayer (db n) = Err err →
  run calculateEpochSubsidies n
  = (n, [CallGetLastProcessedLayer;
         Printf "Failed to get last processed layer: %s" err]).
Proof.
  intros E1. unfold run, calculateEpochSubsidies, or_return, call, bind, emit,
    receiver, ret, return_. cbn [self trace fst snd]. rewrite E1. by destruct n.
Qed.

Lemma subsidy_stores_loop_events utils i :
  0 <= i < 2 ^ 32 →
  subsidy_stores (loop_events utils i)
  = map (fun e => (e, NetworkUtils.GetEpochSubsidy utils e)) (descending i).
Proof.
  intros Hi. unfold loop_events, subsidy_stores.
  assert (Hrange : Forall (fun k => uint64 k = k) (descending i)).
  { apply Forall_forall. intros k Hk. apply elem_of_descending in Hk.
    apply uint64_small. lia. }
  induction Hrange as [|k ks Hk _ IH]; [done |].
  cbn. rewrite Hk. f_equal. exact IH.
Qed.

(** A run of the refresh keeps what the table holds for an epoch whose entry
    is the subsidy of that epoch, whatever the store answers. *)
Lemma calculateEpochSubsidies_keeps n e :
  epochSubsidies n !! e = Some (NetworkUtils.GetEpochSubsidy (networkUtils n) (uint64 e)) →
  epochSubsidies (fst (run calculateEpochSubsidies n)) !! e
  = Some (NetworkUtils.GetEpochSubsidy (networkUtils n) (uint64 e)) ∧
  networkUtils (fst (run calculateEpochSubsidies n)) = networkUtils n.
Proof.
  intros He. destruct (database.GetLastProcessedLayer (db n)) as [l | err] eqn:E1.
  - rewrite (run_calculateEpochSubsidies_ok _ _ E1). cbn.
    rewrite stored_from_lookup. by case_decide.
  - by rewrite (run_calculateEpochSubsidies_fails _ _ E1).
Qed.

Lemma cycles_calculateEpochSubsidies_keeps worlds n e :
  epochSubsidies n !! e = Some (NetworkUtils.GetEpochSubsidy (networkUtils n) (uint64 e)) →
  GetEpochSubsidy (fst (cycles calculateEpochSubsidies worlds n)) e
  = GetEpochSubsidy n e.
Proof.
  revert n. induction worlds as [|w worlds IH]; intros n He; cbn [cycles]; [done |].
  destruct (calculateEpochSubsidies_keeps (with_world w n) e He) as [Hkeep Hutils].
  destruct (run calculateEpochSubsidies (with_world w n)) as [n1 o1].
  cbn [fst] in *. cbn [with_world networkUtils] in Hutils.
  specialize (IH n1). rewrite Hutils in IH. specialize (IH Hkeep).
  destruct (cycles calculateEpochSubsidies worlds n1) as [n2 o2]. cbn [fst] in *.
  rewrite IH. unfold GetEpochSubsidy. rewrite Hkeep.
  cbn [with_world networkUtils epochSubsidies] in *. by rewrite He.
Qed.

(** The table has no entry below 2 when the state is constructed, and none
    appears in any later run of either job. *)
Lemma calculateEpochSubsidies_low_epochs n :
  low_epochs_absent n → low_epochs_absent (fst (run calculateEpochSubsidies n)).
Proof.
  intros Hlow e He.
  destruct (database.GetLastProcessedLayer (db n)) as [l | err] eqn:E1.
  - rewrite (run_calculateEpochSubsidies_ok _ _ E1). cbn.
    rewrite stored_from_lookup, decide_False by lia. by apply Hlow.
  - rewrite (run_calculateEpochSubsidies_fails _ _ E1). by apply Hlow.
Qed.

Lemma fetchNetworkInfo_epochSubsidies unspecified n :
  epochSubsidies (fst (run (fetchNetworkInfo unspecified) n)) = epochSubsidies n.
Proof.
  destruct (steps_total n) as [Hfail | [a Hok]].
  - by destruct (run_fetchNetworkInfo_fails unspecified n Hfail) as (evs & -> & _).
  - by rewrite (run_fetchNetworkInfo_ok _ _ _ Hok).
Qed.

Lemma NewNetworkState_low_epochs unspecified d utils resolver :
  low_epochs_absent (fst (NewNetworkState unspecified d utils resolver)).
Proof.
  unfold NewNetworkState.
  set (state := {| db := d; networkUtils := utils; networkInfo := ∅;
                   epochSubsidies := ∅; priceResolver := resolver |}).
  pose proof (fetchNetworkInfo_epochSubsidies unspecified state) as Hsame.
  destruct (run (fetchNetworkInfo unspecified) state) as [n1 o1]. cbn [fst] in Hsame.
  pose proof (calculateEpochSubsidies_low_epochs n1) as Hkeep.
  destruct (run calculateEpochSubsidies n1) as [n2 o2]. cbn [fst] in *.
  apply Hkeep. intros e _. rewrite Hsame. apply lookup_empty.
Qed.

Lemma cycles_calculateEpochSubsidies_low_epochs worlds n :
  low_epochs_absent n →
  low_epochs_absent (fst (cycles calculateEpochSubsidies worlds n)).
Proof.
  revert n. induction worlds as [|w worlds IH]; intros n Hlow; cbn [cycles]; [done |].
  pose proof (calculateEpochSubsidies_low_epochs (with_world w n) Hlow) as H1.
  destruct (run calculateEpochSubsidies (with_world w n)) as [n1 o1].
  specialize (IH n1 H1).
  by destruct (cycles calculateEpochSubsidies worlds n1) as [n2 o2].
Qed.

(** C3. After a run of the subsidy-table refresh in which the last processed
    layer maps to epoch [E], [GetEpochSubsidy e] is the subsidy EpochMath
    gives for [e], for every [e] with [2 <= e <= E + 1] (so non-zero where
    EpochMath's is), and it stays that value over any number of further runs;
    it is 0 for every [e < 2], no entry being stored below 2. The loop stores,
    in this order, the entries of [E + 1], [E], ..., [2]. [E + 1] is computed
    in 32 bits. *)
Theorem calculateEpochSubsidies_coverage n l :
  database.GetLastProcessedLayer (db n) = Ok l →
  low_epochs_absent n →
  let E := epochOf n l in
  let top := uint32 (E + 1) in
  let subsidy := NetworkUtils.GetEpochSubsidy (networkUtils n) in
  let '(n', observed) := run calculateEpochSubsidies n in
  (E + 1 < 2 ^ 32 → top = E + 1) ∧
  (∀ e, 2 <= e <= top → GetEpochSubsidy n' e = subsidy e) ∧
  (∀ e, 2 <= e <= top → subsidy e ≠ 0 → GetEpochSubsidy n' e ≠ 0) ∧
  (∀ e worlds, 2 <= e <= top →
     GetEpochSubsidy (fst (cycles calculateEpochSubsidies worlds n')) e = subsidy e) ∧
  (∀ e, e < 2 → GetEpochSubsidy n' e = 0) ∧
  low_epochs_absent n' ∧
  subsidy_stores observed = map (fun e => (e, subsidy e)) (descending top).
Proof.
  intros E1 Hlow E top subsidy.
  rewrite (run_calculateEpochSubsidies_ok _ _ E1). fold E top.
  pose proof (uint32_range (E + 1)) as Htop. fold top in Htop.
  pose proof (epochOf_range n l) as HE. fold E in HE.
  assert (Hval : ∀ e, 2 <= e <= top →
            stored_from (networkUtils n) top (epochSubsidies n) !! e = Some (subsidy e)).
  { intros e He. rewrite stored_from_lookup, decide_True by done.
    by rewrite uint64_small by lia. }
  assert (Hlow' : ∀ e, e < 2 →
            stored_from (networkUtils n) top (epochSubsidies n) !! e = None).
  { intros e He. rewrite stored_from_lookup, decide_False by lia. by apply Hlow. }
  split; [| split; [| split; [| split; [| split; [| split]]]]].
  - intros. apply uint32_small. lia.
  - intros e He. unfold GetEpochSubsidy. cbn. by rewrite Hval.
  - intros e He Hnz. unfold GetEpochSubsidy. cbn. by rewrite Hval.
  - intros e worlds He.
    rewrite cycles_calculateEpochSubsidies_keeps.
    + unfold GetEpochSubsidy. cbn. by rewrite Hval.
    + cbn. rewrite Hval by done. by rewrite uint64_small by lia.
  - intros e He. unfold GetEpochSubsidy. cbn. by rewrite Hlow'.
  - intros e He. cbn. by apply Hlow'.
  - unfold subsidy_stores. cbn [app omap]. by apply subsidy_stores_loop_events.
Qed.

Lemma calculateEpochSubsidies_coverage_witness :
  let n' := fst (run calculateEpochSubsidies scenario) in
  GetEpochSubsidy n' 11 = 2 ^ 40 / 12 + 1 ∧
  GetEpochSubsidy n' 2 = 2 ^ 40 / 3 + 1 ∧
  GetEpochSubsidy n' 1 = 0 ∧
  map fst (subsidy_stores (snd (run calculateEpochSubsidies scenario)))
  = [11; 10; 9; 8; 7; 6; 5; 4; 3; 2].
Proof.
  pose proof (calculateEpochSubsidies_coverage scenario {| database.Layer := 4000 |}
                eq_refl (fun e _ => lookup_empty e)) as H.
  cbn zeta in H.
  destruct (run calculateEpochSubsidies scenario) as [n' observed].
  destruct H as (_ & Hval & _ & _ & Hlow & _ & Hloop).
  cbn [fst snd]. rewrite Hloop, (Hval 11), (Hval 2), (Hlow 1).
  - repeat split; reflexivity.
  - by_computation.
  - by_computation.
  - by_computation.
Defined.

Example GetEpochSubsidy_beyond_the_loop :
  GetEpochSubsidy (fst (run calculateEpochSubsidies scenario)) 12 = 0.
Proof. vm_compute. reflexivity. Qed.

(** ** Consumer bootstrap *)

Example bootstrap_subjects :
  map nats.DeliverSubject sink.bootstrap
  = ["layers"; "rewards"; "atx"; "transactions.result"; "transactions.created"].
Proof. reflexivity. Qed.

Example bootstrap_durables :
  map nats.Durable sink.bootstrap
  = ["state-api-process"; "state-api-process-rewards"; "state-api-process-atx";
     "state-api-process-transactions-result"; "state-api-process-transactions-created"].
Proof. reflexivity. Qed.

Example bootstrap_groups :
  map nats.DeliverGroup sink.bootstrap
  = ["state-api-process-layers"; "state-api-process-rewards"; "state-api-process-atx";
     "state-api-process-transactions"; "state-api-process-transactions"].
Proof. reflexivity. Qed.

Lemma consumerOf_subject s c :
  s ∈ sink.subjects → sink.consumerOf s = Some c →
  c ∈ sink.bootstrap ∧ nats.DeliverSubject c = s.
Proof.
  intros Hs Hc. unfold sink.subjects in Hs.
  each_member Hs; vm_compute in Hc; injection Hc as <-;
    (split; [apply list_elem_of_In; simpl; tauto | reflexivity]).
Qed.

(** C7. Each of the five subjects is bound at bootstrap to a durable of its
    own: [NewSink] opens one pull subscription per subject and no other, each
    scoped to a durable, and the durables of two distinct subjects differ,
    the two transaction sub-subjects included. The same holds of the
    consumers created beforehand: one per subject, under durable names that
    are pairwise distinct. *)
Theorem bootstrap_durable_names_distinct :
  (∀ s, s ∈ sink.subjects → ∃ d, durableOf s = Some d) ∧
  length subscriptions = length sink.subjects ∧
  NoDup (map (fun p => fst (fst p)) subscriptions) ∧
  NoDup (map (fun p => snd (fst p)) subscriptions) ∧
  (∀ s1 s2 d1 d2,
     s1 ∈ sink.subjects → s2 ∈ sink.subjects → s1 ≠ s2 →
     durableOf s1 = Some d1 → durableOf s2 = Some d2 → d1 ≠ d2) ∧
  (∀ s, s ∈ sink.subjects →
     ∃ c, sink.consumerOf s = Some c ∧ c ∈ sink.bootstrap ∧ nats.DeliverSubject c = s) ∧
  length sink.bootstrap = length sink.subjects ∧
  NoDup (map nats.Durable sink.bootstrap) ∧
  NoDup (map nats.DeliverSubject sink.bootstrap) ∧
  (∀ s1 s2 c1 c2,
     s1 ∈ sink.subjects → s2 ∈ sink.subjects → s1 ≠ s2 →
     sink.consumerOf s1 = Some c1 → sink.consumerOf s2 = Some c2 →
     nats.Durable c1 ≠ nats.Durable c2).
Proof.
  repeat split.
  - intros s Hs. unfold sink.subjects in Hs.
    each_member Hs; eexists; reflexivity.
  - apply (bool_decide_unpack _). vm_compute. exact I.
  - apply (bool_decide_unpack _). vm_compute. exact I.
  - intros s1 s2 d1 d2 H1 H2 Hne Hd1 Hd2. unfold sink.subjects in H1, H2.
    each_member H1; each_member H2; try (by destruct Hne);
      vm_compute in Hd1; vm_compute in Hd2;
      injection Hd1 as <-; injection Hd2 as <-; discriminate.
  - intros s Hs. unfold sink.subjects in Hs.
    each_member Hs; eexists; (split; [reflexivity |]);
      (split; [apply list_elem_of_In; simpl; tauto | reflexivity]).
  - apply (bool_decide_unpack _). vm_compute. exact I.
  - apply (bool_decide_unpack _). vm_compute. exact I.
  - intros s1 s2 c1 c2 H1 H2 Hne Hc1 Hc2. unfold sink.subjects in H1, H2.
    each_member H1; each_member H2; try (by destruct Hne);
      vm_compute in Hc1; vm_compute in Hc2;
      injection Hc1 as <-; injection Hc2 as <-; discriminate.
Qed.

(** The [DeliverGroup] field of the created consumers is not such a name: the
    consumers of [transactions.result] and of [transactions.created] are
    created with the same one, and are told apart by their durables and
    their deliver subjects. *)
Remark transactions_share_delivery_group : ¬ delivery_groups_pairwise_distinct.
Proof.
  intros Hclaim.
  refine (Hclaim "transactions.created" "transactions.result" _ _ _ _ _ eq_refl eq_refl _);
    [ apply list_elem_of_In; simpl; tauto
    | apply list_elem_of_In; simpl; tauto
    | discriminate
    | reflexivity ].
Qed.

(** The pull subscriptions, as written. *)
Example pull_subscriptions :
  map (fun p => (fst (fst p), snd (fst p))) subscriptions
  = [ ("layers", "layers"); ("rewards", "rewards"); ("atx", "atx");
      ("transactions.result", "transactions-result");
      ("transactions.created", "transactions-created") ].
Proof. reflexivity. Qed.

(** ** Decode failures in the consumption loops *)

Section DecodeFailure.

Context {Reward LayerUpdate WriteDB : Type}.
Variable Reward_Layer : Reward → Z.
Variable LayerUpdate_LayerID : LayerUpdate → Z.
Variable SaveReward : WriteDB → Reward → WriteDB * option error.
Variable SaveLayer : WriteDB → LayerUpdate → WriteDB * option error.
Variable UnmarshalReward : string → option Reward * option error.
Variable UnmarshalLayer : string → option LayerUpdate * option error.

Abbreviation rewardsMsg := (sink.rewardsMsg Reward_Layer SaveReward UnmarshalReward).
Abbreviation rewardsBatch := (sink.rewardsBatch Reward_Layer SaveReward UnmarshalReward).
Abbreviation rewardsRound := (sink.rewardsRound Reward_Layer SaveReward UnmarshalReward).
Abbreviation layersMsg := (sink.layersMsg LayerUpdate_LayerID SaveLayer UnmarshalLayer).
Abbreviation layersBatch := (sink.layersBatch LayerUpdate_LayerID SaveLayer UnmarshalLayer).
Abbreviation layersRound := (sink.layersRound LayerUpdate_LayerID SaveLayer UnmarshalLayer).

Lemma rewardsBatch_stopped msgs (w : sink.worker (WriteDB := WriteDB)) :
  sink.state w ≠ sink.Running → rewardsBatch msgs w = w.
Proof. intros Hs. destruct msgs; [done |]. cbn. by destruct (sink.state w). Qed.

Lemma layersBatch_stopped err msgs (w : sink.worker (WriteDB := WriteDB)) :
  sink.state w ≠ sink.Running → layersBatch err msgs w = w.
Proof. intros Hs. destruct msgs; [done |]. cbn. by destruct (sink.state w). Qed.

Lemma rewardsRounds_stopped fetches (w : sink.worker (WriteDB := WriteDB)) :
  sink.state w ≠ sink.Running →
  fold_left (fun w f => rewardsRound f w) fetches w = w.
Proof.
  intros Hs. induction fetches as [|f fetches IH]; [done |].
  cbn [fold_left]. unfold sink.rewardsRound at 2.
  destruct (sink.state w) eqn:E; [done | |]; rewrite <- E in Hs; exact IH.
Qed.

Lemma layersRounds_stopped fetches (w : sink.worker (WriteDB := WriteDB)) :
  sink.state w ≠ sink.Running →
  fold_left (fun w f => layersRound f w) fetches w = w.
Proof.
  intros Hs. induction fetches as [|f fetches IH]; [done |].
  cbn [fold_left]. unfold sink.layersRound at 2.
  destruct (sink.state w) eqn:E; [done | |]; rewrite <- E in Hs; exact IH.
Qed.

Lemma rewardsMsg_decode_failure msg (w : sink.worker (WriteDB := WriteDB)) :
  snd (UnmarshalReward (nats.Data msg)) ≠ None →
  gone_unsettled w (rewardsMsg msg w).
Proof.
  intros Herr. unfold sink.rewardsMsg.
  destruct (UnmarshalReward (nats.Data msg)) as [[reward|] [errJson|]];
    cbn [snd] in Herr; try done.
  - split; [done |]. split; [done |]. eexists. cbn. rewrite <- !app_assoc.
    split; [reflexivity | repeat constructor].
  - split; [done |]. split; [done |]. eexists. cbn.
    split; [reflexivity | repeat constructor].
Qed.

Lemma layersMsg_decode_failure err msg (w : sink.worker (WriteDB := WriteDB)) :
  err ≠ Some nats.ErrTimeout →
  snd (UnmarshalLayer (nats.Data msg)) ≠ None →
  gone_unsettled w (fst (layersMsg err msg w)) ∧ snd (layersMsg err msg w) = false.
Proof.
  intros Hto Herr. unfold sink.layersMsg.
  destruct err as [[|other]|]; [done | |];
    (destruct (UnmarshalLayer (nats.Data msg)) as [[layer|] [errJson|]];
     cbn [snd] in Herr; try done;
     (split; [| done]; split; [done |]; split; [done |]; eexists; cbn;
      rewrite <- !app_assoc; split; [reflexivity | repeat constructor])).
Qed.

(** C4 on the code. A message whose payload fails to decode ends the
    worker, in the rewards sink and in the layers sink alike: the process
    panics on the nil fact or exits in [log.Fatal]; the message is neither
    acknowledged nor negative-acknowledged; nothing is saved; and no later
    message, of this batch or of a later fetch, is handled. *)
Theorem decode_failure_ends_worker err msg rest later d :
  err ≠ Some nats.ErrTimeout →
  snd (UnmarshalReward (nats.Data msg)) ≠ None →
  snd (UnmarshalLayer (nats.Data msg)) ≠ None →
  let rewards :=
    sink.StartRewardsSink Reward_Layer SaveReward UnmarshalReward
      ((msg :: rest, err) :: later) d in
  let layers :=
    sink.StartLayersSink LayerUpdate_LayerID SaveLayer UnmarshalLayer
      ((msg :: rest, err) :: later) d in
  (sink.state rewards ≠ sink.Running ∧ sink.WriteDB_ rewards = d ∧
   Forall (fun o => is_settlement o = false) (sink.out rewards)) ∧
  (sink.state layers ≠ sink.Running ∧ sink.WriteDB_ layers = d ∧
   Forall (fun o => is_settlement o = false) (sink.out layers)).
Proof.
  intros Hto HerrR HerrL rewards layers. split.
  - subst rewards. unfold sink.StartRewardsSink. cbn [fold_left].
    set (w0 := {| sink.WriteDB_ := d; sink.out := [sink.Println "Start rewards sink"];
                  sink.state := sink.Running |}).
    destruct (rewardsMsg_decode_failure msg w0 HerrR) as (Hs & Hd & printed & Hout & Hp).
    assert (Hround : rewardsRound (msg :: rest, err) w0 = rewardsMsg msg w0).
    { assert (Hb : rewardsBatch (msg :: rest) w0 = rewardsMsg msg w0)
        by (cbn; by apply rewardsBatch_stopped).
      unfold sink.rewardsRound. cbn [sink.state w0 fst snd].
      destruct err as [[|other]|]; [congruence | exact Hb | exact Hb]. }
    rewrite Hround, rewardsRounds_stopped by done.
    split; [done |]. split; [exact Hd |]. rewrite Hout. apply Forall_app.
    split; [repeat constructor | done].
  - subst layers. unfold sink.StartLayersSink. cbn [fold_left].
    set (w0 := {| sink.WriteDB_ := d; sink.out := [sink.Println "Start layers sink"];
                  sink.state := sink.Running |}).
    destruct (layersMsg_decode_failure err msg w0 Hto HerrL)
      as [(Hs & Hd & printed & Hout & Hp) Hbreak].
    assert (Hround : layersRound (msg :: rest, err) w0 = fst (layersMsg err msg w0)).
    { assert (Hb : layersBatch err (msg :: rest) w0 = fst (layersMsg err msg w0)).
      { cbn [sink.layersBatch]. unfold w0 at 1. cbn [sink.state].
        destruct (layersMsg err msg w0) as [w1 b]. cbn [fst snd] in *. subst b.
        by apply layersBatch_stopped. }
      unfold sink.layersRound. cbn [sink.state w0 fst snd].
      destruct err as [[|other]|]; [congruence | exact Hb | exact Hb]. }
    rewrite Hround, layersRounds_stopped by done.
    split; [done |]. split; [exact Hd |]. rewrite Hout. apply Forall_app.
    split; [repeat constructor | done].
Qed.

End DecodeFailure.

Lemma decode_failure_ends_worker_witness :
  let bad := {| nats.Data := "{" |} in
  let good := {| nats.Data := "{}" |} in
  let rewards :=
    sink.StartRewardsSink id sampleSave sampleUnmarshal [([bad; good], None)] [] in
  let layers :=
    sink.StartLayersSink id sampleSave sampleUnmarshal [([bad; good], None)] [] in
  (sink.state rewards ≠ sink.Running ∧ sink.WriteDB_ rewards = [] ∧
   Forall (fun o => is_settlement o = false) (sink.out rewards)) ∧
  (sink.state layers ≠ sink.Running ∧ sink.WriteDB_ layers = [] ∧
   Forall (fun o => is_settlement o = false) (sink.out layers)).
Proof.
  apply (decode_failure_ends_worker id id sampleSave sampleSave
           sampleUnmarshal sampleUnmarshal None {| nats.Data := "{" |}
           [{| nats.Data := "{}" |}] [] []);
    vm_compute; intros; discriminate.
Defined.

(** A syntax error: the fact is nil and [reward.Layer] panics. *)
Example rewards_sink_syntax_error :
  let w := sink.StartRewardsSink id sampleSave sampleUnmarshal
             [([{| nats.Data := "{" |}; {| nats.Data := "{}" |}], None)] [] in
  sink.state w = sink.Panicked ∧
  sink.out w = [sink.Println "Start rewards sink"; sink.Println "New reward"] ∧
  sink.WriteDB_ w = [].
Proof. vm_compute. done. Qed.

(** A type error: the fact is allocated and [log.Fatal] exits. *)
Example layers_sink_type_error :
  let w := sink.StartLayersSink id sampleSave sampleUnmarshal
             [([{| nats.Data := "7" |}; {| nats.Data := "{}" |}], None)] [] in
  sink.state w = sink.Exited ∧
  sink.out w = [ sink.Println "Start layers sink"; sink.Println "New layers";
                 sink.PrintlnData "Layer: " "7"; sink.PrintlnZ "Next layer: " 0;
                 sink.LogFatal "Error parsing json layer: " ] ∧
  sink.WriteDB_ w = [].
Proof. vm_compute. done. Qed.

(** Well-formed messages are saved and acknowledged, fetch after fetch. *)
Example rewards_sink_well_formed :
  let m := {| nats.Data := "{}" |} in
  let w := sink.StartRewardsSink id sampleSave sampleUnmarshal
             [([m], None); ([], Some nats.ErrTimeout); ([m], None)] [] in
  sink.state w = sink.Running ∧
  List.filter is_settlement (sink.out w) = [sink.Ack m; sink.Ack m] ∧
  sink.WriteDB_ w = [0; 0].
Proof. vm_compute. done. Qed.

(** ** hexToBase64 on every string *)

Lemma list_pair_ind {A} (P : list A → Prop) :
  P [] → (∀ x, P [x]) → (∀ x y l, P l → P (x :: y :: l)) → ∀ l, P l.
Proof.
  intros Hnil Hone Hstep l.
  assert (H : P l ∧ ∀ x, P (x :: l)); [| by destruct H].
  induction l as [|y l [IH1 IH2]]; [by split |].
  split; [apply IH2 |]. intros x. by apply Hstep.
Qed.

Lemma list_triple_ind {A} (P : list A → Prop) :
  P [] → (∀ x, P [x]) → (∀ x y, P [x; y]) →
  (∀ x y z l, P l → P (x :: y :: z :: l)) → ∀ l, P l.
Proof.
  intros Hnil Hone Htwo Hstep l.
  assert (H : P l ∧ (∀ x, P (x :: l)) ∧ ∀ x y, P (x :: y :: l)); [| by destruct H].
  induction l as [|z l (IH1 & IH2 & IH3)]; [by repeat split |].
  split; [apply IH2 |]. split; [intros x; apply IH3 |]. intros x y. by apply Hstep.
Qed.

Lemma reverseHexTable_hexdigit c :
  hexdigit c ↔ hex.reverseHexTable c <= 15.
Proof.
  unfold hexdigit, hex.reverseHexTable.
  destruct (Z.leb_spec 48 c), (Z.leb_spec c 57), (Z.leb_spec 97 c), (Z.leb_spec c 102),
    (Z.leb_spec 65 c), (Z.leb_spec c 70); cbn; lia.
Qed.

Lemma reverseHexTable_range c : hexdigit c → 0 <= hex.reverseHexTable c <= 15.
Proof.
  intros H. split; [| by apply reverseHexTable_hexdigit].
  unfold hexdigit, hex.reverseHexTable in *.
  destruct (Z.leb_spec 48 c), (Z.leb_spec c 57), (Z.leb_spec 97 c), (Z.leb_spec c 102),
    (Z.leb_spec 65 c), (Z.leb_spec c 70); cbn; lia.
Qed.

Lemma hexdigit_dec c : hexdigit c ∨ ¬ hexdigit c.
Proof. unfold hexdigit. lia. Qed.

Lemma hex_byte_range a b :
  0 <= a <= 15 → 0 <= b <= 15 → 0 <= Z.lor (Z.shiftl a 4) b < 256.
Proof.
  intros Ha Hb. split.
  - apply Z.lor_nonneg. split; [apply Z.shiftl_nonneg |]; lia.
  - assert (H : ∀ x, 0 <= x < 2 ^ 8 ↔ 0 <= x ∧ ∀ i, 8 <= i → Z.testbit x i = false).
    { intros x. split.
      - intros Hx. split; [lia |]. intros i Hi.
        destruct (Z.eq_dec x 0) as [-> | Hne]; [apply Z.bits_0 |].
        apply Z.bits_above_log2; [lia |].
        assert (Z.log2 x < 8) by (apply Z.log2_lt_pow2; lia). lia.
      - intros [Hx Hbits]. split; [done |].
        destruct (Z.eq_dec x 0) as [-> | Hne]; [lia |].
        apply Z.log2_lt_pow2; [lia |].
        destruct (Z_lt_le_dec (Z.log2 x) 8) as [|Hge]; [done |].
        specialize (Hbits (Z.log2 x) Hge). rewrite Z.bit_log2 in Hbits by lia. done. }
    apply H. split.
    + apply Z.lor_nonneg. split; [apply Z.shiftl_nonneg |]; lia.
    + intros i Hi. rewrite Z.lor_spec, Z.shiftl_spec by lia.
      assert (Ha' : 0 <= a < 2 ^ 8) by lia. assert (Hb' : 0 <= b < 2 ^ 8) by lia.
      apply H in Hb' as [_ Hb']. rewrite (Hb' i Hi), orb_false_r.
      destruct (Z.eq_dec a 0) as [-> | Hne]; [apply Z.bits_0 |].
      apply Z.bits_above_log2; [lia |].
      assert (Z.log2 a < 4) by (apply Z.log2_lt_pow2; lia). lia.
Qed.

(** Text of hex digits of even length decodes, to half as many bytes. *)
Lemma hex_Decode_ok l :
  Forall hexdigit l → Nat.Even (length l) →
  ∃ bs, hex.Decode l = Ok bs ∧ (2 * length bs = length l)%nat ∧
        Forall (fun b => 0 <= b < 256) bs.
Proof.
  induction l as [| x | x y l IH] using list_pair_ind; intros Hhex Heven.
  - exists []. by repeat split.
  - destruct Heven as [k Hk]. cbn in Hk. lia.
  - apply Forall_cons in Hhex as [Hx Hhex]. apply Forall_cons in Hhex as [Hy Hhex].
    destruct IH as (bs & Hbs & Hlen & Hrange); [done | |].
    { destruct Heven as [k Hk]. cbn in Hk. exists (k - 1)%nat. lia. }
    pose proof (reverseHexTable_range x Hx). pose proof (reverseHexTable_range y Hy).
    cbn [hex.Decode]. cbn zeta.
    destruct (Z.ltb_spec 15 (hex.reverseHexTable x)); [lia |].
    destruct (Z.ltb_spec 15 (hex.reverseHexTable y)); [lia |].
    rewrite Hbs. eexists. split; [reflexivity |]. split; [cbn; lia |].
    constructor; [by apply hex_byte_range | done].
Qed.

Lemma hex_Decode_odd l :
  Forall hexdigit l → Nat.Odd (length l) → hex.Decode l = Err ErrLength.
Proof.
  induction l as [| x | x y l IH] using list_pair_ind; intros Hhex Hodd.
  - destruct Hodd as [k Hk]. cbn in Hk. lia.
  - apply Forall_cons in Hhex as [Hx _].
    pose proof (reverseHexTable_range x Hx). cbn.
    by destruct (Z.ltb_spec 15 (hex.reverseHexTable x)); [lia |].
  - apply Forall_cons in Hhex as [Hx Hhex]. apply Forall_cons in Hhex as [Hy Hhex].
    pose proof (reverseHexTable_range x Hx). pose proof (reverseHexTable_range y Hy).
    cbn [hex.Decode]. cbn zeta.
    destruct (Z.ltb_spec 15 (hex.reverseHexTable x)); [lia |].
    destruct (Z.ltb_spec 15 (hex.reverseHexTable y)); [lia |].
    rewrite IH; [done | done |].
    destruct Hodd as [k Hk]. cbn in Hk. exists (k - 1)%nat. lia.
Qed.

Lemma hex_Decode_invalid pre c post :
  Forall hexdigit pre → ¬ hexdigit c →
  hex.Decode (pre ++ c :: post) = Err (InvalidByteError c).
Proof.
  intros Hpre Hc.
  assert (Hbad : 15 < hex.reverseHexTable c)
    by (rewrite reverseHexTable_hexdigit in Hc; lia).
  revert Hpre. induction pre as [| x | x y l IH] using list_pair_ind; intros Hpre.
  - cbn [app]. destruct post as [|q post]; cbn [hex.Decode]; cbn zeta;
      by destruct (Z.ltb_spec 15 (hex.reverseHexTable c)); [| lia].
  - apply Forall_cons in Hpre as [Hx _].
    pose proof (reverseHexTable_range x Hx). cbn [app hex.Decode]. cbn zeta.
    destruct (Z.ltb_spec 15 (hex.reverseHexTable x)); [lia |].
    by destruct (Z.ltb_spec 15 (hex.reverseHexTable c)); [| lia].
  - apply Forall_cons in Hpre as [Hx Hpre]. apply Forall_cons in Hpre as [Hy Hpre].
    pose proof (reverseHexTable_range x Hx). pose proof (reverseHexTable_range y Hy).
    cbn [app hex.Decode]. cbn zeta.
    destruct (Z.ltb_spec 15 (hex.reverseHexTable x)); [lia |].
    destruct (Z.ltb_spec 15 (hex.reverseHexTable y)); [lia |].
    by rewrite IH.
Qed.

Lemma first_non_hexdigit l :
  Forall hexdigit l ∨
  ∃ pre c post, l = pre ++ c :: post ∧ Forall hexdigit pre ∧ ¬ hexdigit c.
Proof.
  induction l as [|x l IH]; [by left |].
  destruct (hexdigit_dec x) as [Hx | Hx].
  - destruct IH as [Hall | (pre & c & post & -> & Hpre & Hc)].
    + left. by constructor.
    + right. exists (x :: pre), c, post. repeat split; [by constructor | done].
  - right. by exists [], x, l.
Qed.

Lemma length_bytes_of s : length (bytes_of s) = String.length s.
Proof.
  unfold bytes_of. rewrite length_map.
  induction s as [|c s IH]; [done |]. cbn. by rewrite IH.
Qed.

Lemma base64_Encode_length l :
  length (base64.Encode l) = (4 * ((length l + 2) / 3))%nat.
Proof.
  induction l as [| x | x y | x y z l IH] using list_triple_ind; try reflexivity.
  cbn [base64.Encode length]. rewrite IH.
  replace (S (S (S (length l))) + 2)%nat with ((length l + 2) + 1 * 3)%nat by lia.
  rewrite Nat.div_add by lia. lia.
Qed.

Lemma base64_enc_alphabet i :
  0 <= i < 64 → base64.enc i ∈ String.list_ascii_of_string base64.encodeStd.
Proof.
  intros Hi.
  assert (Hall : Forall (fun i => base64.enc i ∈
                           String.list_ascii_of_string base64.encodeStd) (seqZ 0 64))
    by (apply (bool_decide_unpack _); vm_compute; exact I).
  rewrite Forall_seqZ in Hall. apply Hall. lia.
Qed.

Lemma base64_sextet_alphabet val shift : base64_char (base64.sextet val shift).
Proof.
  left. unfold base64.sextet. apply base64_enc_alphabet.
  change 63 with (Z.ones 6). rewrite Z.land_ones by lia.
  apply Z.mod_pos_bound. lia.
Qed.

Lemma base64_Encode_alphabet l : Forall base64_char (base64.Encode l).
Proof.
  induction l as [| x | x y | x y z l IH] using list_triple_ind;
    cbn [base64.Encode]; cbn zeta;
    repeat (constructor; [first [apply base64_sextet_alphabet | by right] |]);
    first [done | constructor].
Qed.

Lemma length_string_of_list_ascii l :
  String.length (String.string_of_list_ascii l) = length l.
Proof. induction l as [|c l IH]; [done |]. cbn. by rewrite IH. Qed.

Lemma hexToBase64_ok_inv s b :
  hexToBase64 s = Ok b →
  Forall hexdigit (bytes_of s) ∧ Nat.Even (length (bytes_of s)).
Proof.
  unfold hexToBase64, hex.DecodeString. fold (bytes_of s). intros Hb.
  destruct (first_non_hexdigit (bytes_of s)) as [Hall | (pre & c & post & Heq & Hpre & Hc)].
  - split; [done |].
    destruct (Nat.Even_or_Odd (length (bytes_of s))) as [|Hodd]; [done |].
    by rewrite hex_Decode_odd in Hb.
  - by rewrite Heq, hex_Decode_invalid in Hb.
Qed.

(** X1. [hexToBase64] succeeds exactly on text of even length made of hex
    digits, in either case. Otherwise it returns the error of
    [hex.DecodeString]: the first byte that is no hex digit if there is one,
    else the odd length. *)
Theorem hexToBase64_outcome s :
  (Forall hexdigit (bytes_of s) → Nat.Even (String.length s) →
     ∃ b, hexToBase64 s = Ok b) ∧
  (Forall hexdigit (bytes_of s) → Nat.Odd (String.length s) →
     hexToBase64 s = Err ErrLength) ∧
  (∀ pre c post,
     bytes_of s = pre ++ c :: post → Forall hexdigit pre → ¬ hexdigit c →
     hexToBase64 s = Err (InvalidByteError c)) ∧
  (∀ b, hexToBase64 s = Ok b →
     Forall hexdigit (bytes_of s) ∧ Nat.Even (String.length s)).
Proof.
  unfold hexToBase64, hex.DecodeString. fold (bytes_of s).
  rewrite <- (length_bytes_of s).
  assert (Hinv : ∀ pre c post,
            bytes_of s = pre ++ c :: post → Forall hexdigit pre → ¬ hexdigit c →
            hex.Decode (bytes_of s) = Err (InvalidByteError c)).
  { intros pre c post -> Hpre Hc. by apply hex_Decode_invalid. }
  split; [| split; [| split]].
  - intros Hhex Heven. destruct (hex_Decode_ok _ Hhex Heven) as (bs & -> & _). eauto.
  - intros Hhex Hodd. by rewrite hex_Decode_odd.
  - intros pre c post Heq Hpre Hc. by rewrite (Hinv pre c post).
  - intros b Hb. apply (hexToBase64_ok_inv s b).
    unfold hexToBase64, hex.DecodeString. by fold (bytes_of s).
Qed.

(** X2. The base64 text [hexToBase64] returns is padded: for hex text of [n]
    characters it has [4 * ceil((n / 2) / 3)] characters, each a letter of the
    standard alphabet or the padding character. *)
Theorem hexToBase64_shape s b :
  hexToBase64 s = Ok b →
  String.length b = (4 * ((String.length s / 2 + 2) / 3))%nat ∧
  Forall base64_char (String.list_ascii_of_string b).
Proof.
  intros Hb.
  destruct (hexToBase64_ok_inv s b Hb) as [Hhex Heven].
  rewrite <- (length_bytes_of s).
  destruct (hex_Decode_ok _ Hhex Heven) as (bs & Hbs & Hlen & _).
  unfold hexToBase64, hex.DecodeString in Hb. fold (bytes_of s) in Hb.
  rewrite Hbs in Hb. injection Hb as <-. unfold base64.EncodeToString. split.
  - rewrite length_string_of_list_ascii, base64_Encode_length.
    replace (length (bytes_of s) / 2)%nat with (length bs); [done |].
    rewrite <- Hlen. by rewrite Nat.mul_comm, Nat.div_mul.
  - rewrite String.list_ascii_of_string_of_list_ascii. apply base64_Encode_alphabet.
Qed.

Lemma hexToBase64_shape_witness :
  String.length "3q2+7w==" = 8%nat ∧
  Forall base64_char (String.list_ascii_of_string "3q2+7w==").
Proof. exact (hexToBase64_shape "deadbeef" "3q2+7w==" eq_refl). Defined.

(** ** More of highest-ATX selection *)

Lemma index_flagged nodes atx :
  index (malfeasanceNodesMap nodes) (database.NodeID atx)
  = bool_decide (database.NodeID atx ∈ map database.ID nodes).
Proof.
  destruct (index _ _) eqn:Hi.
  - apply index_malfeasanceNodesMap in Hi. by rewrite bool_decide_eq_true_2.
  - apply index_eligible in Hi. by rewrite bool_decide_eq_false_2.
Qed.

Lemma select_fold_unflagged nodes atxs acc :
  fold_left (selectStep (malfeasanceNodesMap nodes)) atxs acc
  = fold_left (selectStep (malfeasanceNodesMap [])) (unflagged nodes atxs) acc.
Proof.
  revert acc. induction atxs as [|x atxs IH]; intros [h id]; [done |].
  cbn [fold_left unflagged List.filter]. rewrite IH. fold (unflagged nodes atxs).
  unfold selectStep at 2. rewrite index_flagged.
  destruct (bool_decide _); cbn [negb].
  - by rewrite andb_false_r.
  - cbn [fold_left]. unfold selectStep at 3. by rewrite index_flagged.
Qed.

(** X3. The ATXs of flagged nodes are as good as absent: [getHigestAtx]
    returns what it would return for the same list with those ATXs taken out
    and no node flagged. *)
Theorem getHigestAtx_flagged_as_absent n n' tr tr' epoch atxs nodes :
  database.GetAtxForEpoch (db n) epoch = Ok atxs →
  database.GetMalfeasanceNodes (db n) = Ok nodes →
  database.GetAtxForEpoch (db n') epoch = Ok (unflagged nodes atxs) →
  database.GetMalfeasanceNodes (db n') = Ok [] →
  fst (getHigestAtx epoch {| self := n; trace := tr |})
  = fst (getHigestAtx epoch {| self := n'; trace := tr' |}).
Proof.
  intros H1 H2 H1' H2'.
  rewrite (getHigestAtx_ok _ _ _ _ _ H1 H2), (getHigestAtx_ok _ _ _ _ _ H1' H2').
  cbn [fst]. unfold selectHighest. by rewrite select_fold_unflagged.
Qed.

Lemma getHigestAtx_flagged_as_absent_witness :
  fst (getHigestAtx 9 {| self := scenario; trace := [] |})
  = fst (getHigestAtx 9 {| self := scenarioUnflagged; trace := [] |}).
Proof.
  exact (getHigestAtx_flagged_as_absent scenario scenarioUnflagged [] [] 9
           (scenarioAtxs 9) scenarioNodes eq_refl eq_refl eq_refl eq_refl).
Defined.

(** X4. The height is a [uint64] sum and wraps: of two ATXs of clean nodes,
    one whose ticks add up to [2^64] or more loses to any other whose ticks
    add up to less than [2^64] but to more than the excess, in either query
    order. *)
Theorem getHigestAtx_height_wraps n tr epoch a b nodes atxs :
  database.GetAtxForEpoch (db n) epoch = Ok atxs →
  database.GetMalfeasanceNodes (db n) = Ok nodes →
  atxs = [a; b] ∨ atxs = [b; a] →
  eligible nodes a → eligible nodes b →
  ticks_in_range a → ticks_in_range b →
  2 ^ 64 <= database.BaseTick a + database.TickCount a →
  database.BaseTick a + database.TickCount a - 2 ^ 64
    < database.BaseTick b + database.TickCount b < 2 ^ 64 →
  fst (getHigestAtx epoch {| self := n; trace := tr |}) = Some (Ok (database.AtxID b)).
Proof.
  intros H1 H2 Horder Ha Hb [Ha1 Ha2] [Hb1 Hb2] Hover Hless.
  rewrite (getHigestAtx_ok _ _ _ _ _ H1 H2). cbn [fst].
  assert (Hha : atxHeight a = database.BaseTick a + database.TickCount a - 2 ^ 64).
  { unfold atxHeight, uint64.
    replace (database.BaseTick a + database.TickCount a)
      with ((database.BaseTick a + database.TickCount a - 2 ^ 64) + 1 * 2 ^ 64) at 1 by lia.
    rewrite Z_mod_plus_full. apply Z.mod_small. lia. }
  assert (Hhb : atxHeight b = database.BaseTick b + database.TickCount b).
  { unfold atxHeight. apply uint64_small. lia. }
  destruct Horder as [-> | ->].
  - change [a; b] with ([a] ++ [b]).
    rewrite (selectHighest_first_highest nodes [a] b []); [done | | lia].
    split; [done |]. split.
    + intros x Hx _. each_member Hx. lia.
    + intros x Hx. by apply elem_of_nil in Hx.
  - change [b; a] with ([] ++ b :: [a]).
    rewrite (selectHighest_first_highest nodes [] b [a]); [done | | lia].
    split; [done |]. split.
    + intros x Hx. by apply elem_of_nil in Hx.
    + intros x Hx _. each_member Hx. lia.
Qed.

Lemma getHigestAtx_height_wraps_witness :
  fst (getHigestAtx 9 {| self := wrapping; trace := [] |}) = Some (Ok "bb03").
Proof.
  refine (getHigestAtx_height_wraps wrapping [] 9
            (mkAtx "aa01" "node-1" (2 ^ 64 - 1) 5) (mkAtx "bb03" "node-2" 20 10)
            [] wrappingAtxs eq_refl eq_refl (or_introl eq_refl) _ _ _ _ _ _);
    try (unfold eligible; simpl; not_member); by_computation.
Defined.

(** ** What a cycle is seen to do *)

Lemma calls_after_app tr t :
  calls_after tr t → ∃ pre, t = tr ++ pre ∧ Forall (fun e => is_call e = true) pre.
Proof.
  induction 1 as [| t c _ (pre & -> & Hpre) Hc].
  - exists []. by rewrite app_nil_r.
  - exists (pre ++ [c]). rewrite app_assoc. split; [done |].
    apply Forall_app. split; [done | by repeat constructor].
Qed.

(** The next query of the cycle either fails, and the cycle prints the
    message and the error of that first failing step after calls only, or
    answers. *)
Ltac first_error_here :=
  unfold first_error, step_errors, previous, epochOf;
  repeat match goal with
         | H : _ = Ok _ |- _ => rewrite H
         | H : _ = Err _ |- _ => rewrite H
         end;
  reflexivity.

Ltac stops_here :=
  do 3 eexists; split; [reflexivity |];
  split; [repeat (first [apply calls_after_none | apply calls_after_call; [| reflexivity]]) |];
  first_error_here.

Ltac next_query_first_error :=
  lazymatch goal with
  | |- context [match ?r with Ok _ => _ | Err _ => _ end] =>
      let E := fresh "E" in
      destruct r eqn:E; cbn [self trace fst snd]; [| stops_here]
  end.

Lemma fetchNetworkInfo_fails_first_error unspecified n tr :
  some_step_fails n →
  ∃ t format err,
    fetchNetworkInfo unspecified {| self := n; trace := tr |}
    = (None, {| self := n; trace := t ++ [Printf format err] |}) ∧
    calls_after tr t ∧ first_error n = Some (format, err).
Proof.
  intros Hfail. run_cycle.
  destruct (database.GetLastProcessedLayer (db n)) as [l|e] eqn:E1;
    cbn [self trace fst snd]; [| stops_here].
  destruct Hfail as [[? ?] | (l' & Hl & Hfail)]; [congruence |].
  rewrite E1 in Hl. injection Hl as <-.
  unfold previous, epochOf, failed in Hfail. cbn zeta in Hfail.
  do 10 next_query_first_error.
  exfalso. decompose [or ex and] Hfail; congruence.
Qed.

Lemma every_step_ok_first_error n a : every_step_ok n a → first_error n = None.
Proof.
  intros [(H1 & H2 & H3 & H4 & H5 & H6 & H7 & H8 & H9 & H10) H11].
  unfold first_error, step_errors.
  rewrite H1, H2, H3, H4, H5, H6, H7, H8, H9, H10, H11. reflexivity.
Qed.

Lemma calls_are_calls n a : Forall (fun e => is_call e = true) (calls n a).
Proof. unfold calls. repeat constructor. Qed.

(** X5. A refresh cycle is seen to make calls on its collaborators, the read
    of the last processed layer first, and to end in exactly one of two ways.
    When no step fails it ends with the store of the snapshot. Otherwise it
    ends with one print, of the message and the error of the first step that
    fails in the order of the source, the receiver being left as it was.
    Nothing is printed before a store and nothing is stored before a
    print. *)
Theorem fetchNetworkInfo_outcome unspecified n :
  let '(n', observed) := run (fetchNetworkInfo unspecified) n in
  head observed = Some CallGetLastProcessedLayer ∧
  ((∃ pre v,
      observed = pre ++ [StoreNetworkInfo INFO_KEY v] ∧
      Forall (fun e => is_call e = true) pre ∧
      networkInfo n' = <[INFO_KEY := v]> (networkInfo n) ∧
      epochSubsidies n' = epochSubsidies n ∧
      first_error n = None) ∨
   (∃ pre format err,
      observed = pre ++ [Printf format err] ∧
      Forall (fun e => is_call e = true) pre ∧
      first_error n = Some (format, err) ∧ n' = n)).
Proof.
  destruct (steps_total n) as [Hfail | [a Hok]].
  - destruct (fetchNetworkInfo_fails_first_error unspecified n [] Hfail)
      as (t & format & err & Heq & Hcalls & Hrep).
    apply calls_after_app in Hcalls as (pre & -> & Hpre). cbn [app] in Heq.
    unfold run. rewrite Heq. cbn [snd self trace]. split.
    + pose proof (fetchNetworkInfo_first_queries unspecified n) as Hfirst.
      unfold run in Hfirst. rewrite Heq in Hfirst. cbn [snd trace] in Hfirst.
      destruct (database.GetLastProcessedLayer (db n)) as [l | e] eqn:E1.
      * destruct (Hfirst l eq_refl) as [rest ->]. reflexivity.
      * clear Hfirst. revert Heq. run_cycle. rewrite E1. cbn.
        intros Heq. injection Heq as Heq. by destruct pre as [|? [|? ?]]; inversion Heq.
    + right. exists pre, format, err. by destruct n.
  - rewrite (run_fetchNetworkInfo_ok _ _ _ Hok). split; [reflexivity |].
    left. eexists _, _. split; [reflexivity |]. split; [apply calls_are_calls |].
    split; [| split; [reflexivity | by apply (every_step_ok_first_error n a)]].
    unfold published, GetInfo. cbn [networkInfo]. by rewrite lookup_insert_eq.
Qed.

(** The first failing step of three cycles: a failing accounts count, an
    identifier that is no hex text, and a cycle in which nothing fails. *)
Example first_error_samples :
  first_error (sampleState failingDB)
  = Some ("Failed to count accounts: %s", ErrCollaborator "connection refused") ∧
  first_error (sampleState (sampleDB 4000 (fun _ => [mkAtx "z9" "node-1" 1 1]) []))
  = Some ("Failed to get base64 atx: %s", InvalidByteError 122) ∧
  first_error scenario = None.
Proof. repeat split; vm_compute; reflexivity. Qed.

(** ** What holds of every state the two jobs reach *)

Lemma ticks_invariant (P : NetworkState → Prop) unspecified schedule n :
  (∀ w n, P n → P (with_world w n)) →
  (∀ j n, P n → P (fst (run (job_body unspecified j) n))) →
  P n → P (fst (ticks unspecified schedule n)).
Proof.
  intros Hworld Hjob. revert n.
  induction schedule as [|[j w] schedule IH]; intros n Hn; cbn [ticks]; [done |].
  pose proof (Hjob j _ (Hworld w n Hn)) as H1.
  destruct (run (job_body unspecified j) (with_world w n)) as [n1 o1].
  specialize (IH n1 H1). by destruct (ticks unspecified schedule n1).
Qed.

Lemma NewNetworkState_invariant (P : NetworkState → Prop) unspecified d utils resolver :
  (∀ j n, P n → P (fst (run (job_body unspecified j) n))) →
  P {| db := d; networkUtils := utils; networkInfo := ∅; epochSubsidies := ∅;
       priceResolver := resolver |} →
  P (fst (NewNetworkState unspecified d utils resolver)).
Proof.
  intros Hjob H0. unfold NewNetworkState.
  pose proof (Hjob Snapshot _ H0) as H1. cbn [job_body] in H1.
  destruct (run (fetchNetworkInfo unspecified) _) as [n1 o1]. cbn [fst] in H1.
  pose proof (Hjob Subsidies _ H1) as H2. cbn [job_body] in H2.
  destruct (run calculateEpochSubsidies n1) as [n2 o2]. exact H2.
Qed.

Lemma calculateEpochSubsidies_networkInfo n :
  networkInfo (fst (run calculateEpochSubsidies n)) = networkInfo n ∧
  networkUtils (fst (run calculateEpochSubsidies n)) = networkUtils n.
Proof.
  destruct (database.GetLastProcessedLayer (db n)) as [l | err] eqn:E1.
  - by rewrite (run_calculateEpochSubsidies_ok _ _ E1).
  - by rewrite (run_calculateEpochSubsidies_fails _ _ E1).
Qed.

Lemma fetchNetworkInfo_networkUtils unspecified n :
  networkUtils (fst (run (fetchNetworkInfo unspecified) n)) = networkUtils n.
Proof.
  destruct (steps_total n) as [Hfail | [a Hok]].
  - by destruct (run_fetchNetworkInfo_fails unspecified n Hfail) as (evs & -> & _).
  - by rewrite (run_fetchNetworkInfo_ok _ _ _ Hok).
Qed.

Lemma int64_range x : - 2 ^ 63 <= int64 x < 2 ^ 63.
Proof.
  unfold int64. pose proof (Z.mod_pos_bound (x + 2 ^ 63) (2 ^ 64)). lia.
Qed.

Lemma uint64_of_float64_range unspecified f :
  0 <= uint64_of_float64 unspecified f < 2 ^ 64.
Proof.
  unfold uint64_of_float64. destruct (float64_trunc f) as [z|]; [| apply uint64_range].
  destruct (Z.leb_spec 0 z), (Z.ltb_spec z (2 ^ 64)); cbn [andb];
    first [lia | apply uint64_range].
Qed.

Lemma published_consistent unspecified n a :
  every_step_ok n a →
  consistent unspecified (networkUtils n) (GetInfo (published n unspecified a)).
Proof.
  intros [_ H10]. unfold GetInfo, published. cbn [networkInfo].
  rewrite lookup_insert_eq. unfold consistent.
  cbn [types.Epoch types.EpochSubsidy types.AtxHex types.AtxBase64 types.NextEpoch
       types.Layer types.TotalSlots types.MarketCap types.TotalAccounts
       types.TotalActiveSmeshers types.CirculatingSupply types.Price].
  pose proof (epochOf_range n (layer a)) as Hepoch.
  split; [exact Hepoch |]. split; [apply uint64_range |].
  split; [reflexivity |]. split; [by rewrite uint64_small by lia |].
  split; [exact H10 |]. split; [reflexivity |].
  split; [eexists; split; [reflexivity |]; split; [reflexivity | apply int64_range] |].
  repeat split; first [apply uint64_range | apply uint64_of_float64_range].
Qed.

Lemma job_snapshots_consistent unspecified utils j n :
  snapshots_consistent unspecified utils n →
  snapshots_consistent unspecified utils (fst (run (job_body unspecified j) n)).
Proof.
  intros [Hutils Hinv]. destruct j; cbn [job_body].
  - split; [by rewrite fetchNetworkInfo_networkUtils |].
    destruct (steps_total n) as [Hfail | [a Hok]].
    + by destruct (run_fetchNetworkInfo_fails unspecified n Hfail) as (evs & -> & _).
    + pose proof (published_consistent unspecified n a Hok) as Hnew.
      rewrite Hutils in Hnew.
      rewrite (run_fetchNetworkInfo_ok _ _ _ Hok). cbn [fst].
      intros key info Hkey. unfold GetInfo in Hnew.
      unfold published in *. cbn [networkInfo] in *.
      rewrite lookup_insert_eq in Hnew.
      destruct (decide (INFO_KEY = key)) as [<- | Hne].
      * rewrite lookup_insert_eq in Hkey. injection Hkey as <-. by split.
      * rewrite lookup_insert_ne in Hkey by done. by apply Hinv.
  - split; [by rewrite (proj2 (calculateEpochSubsidies_networkInfo n)) |].
    intros key info. rewrite (proj1 (calculateEpochSubsidies_networkInfo n)).
    apply Hinv.
Qed.

(** X6. After construction and any sequence of ticks of the two jobs,
    whatever the store and the price oracle answer at each tick, nothing is
    published under a key other than ["info"], and every published snapshot
    is consistent in itself: [Epoch] is the 32-bit epoch of [Layer],
    [EpochSubsidy] is the subsidy of [Epoch], [AtxBase64] is the base64 form
    of the bytes that [AtxHex] spells, [MarketCap] is the converted float64
    product of [CirculatingSupply] and [Price], [NextEpoch] is set and one
    epoch ahead of [Epoch], and the fields the cycle converts ([Epoch],
    [Layer], [TotalSlots], [MarketCap], [TotalAccounts],
    [TotalActiveSmeshers], and the [NextEpoch]'s [Epoch] and
    [EffectiveUnitsCommited]) fit the integer types they are converted to. *)
Theorem published_snapshots_consistent unspecified d utils resolver schedule :
  snapshots_consistent unspecified utils
    (fst (ticks unspecified schedule
            (fst (NewNetworkState unspecified d utils resolver)))).
Proof.
  apply ticks_invariant.
  - intros w n Hn. exact Hn.
  - apply job_snapshots_consistent.
  - apply NewNetworkState_invariant; [apply job_snapshots_consistent |].
    split; [reflexivity |].
    intros key info Hkey. cbn in Hkey. by rewrite lookup_empty in Hkey.
Qed.

Lemma job_subsidies_exact unspecified utils j n :
  subsidies_exact utils n →
  subsidies_exact utils (fst (run (job_body unspecified j) n)).
Proof.
  intros [Hutils Hinv]. destruct j; cbn [job_body].
  - split; [by rewrite fetchNetworkInfo_networkUtils |].
    by rewrite fetchNetworkInfo_epochSubsidies.
  - split; [by rewrite (proj2 (calculateEpochSubsidies_networkInfo n)) |].
    destruct (database.GetLastProcessedLayer (db n)) as [l | err] eqn:E1.
    + rewrite (run_calculateEpochSubsidies_ok _ _ E1). cbn.
      intros e v. rewrite stored_from_lookup.
      pose proof (uint32_range (epochOf n l + 1)).
      case_decide as He; [| apply Hinv].
      intros Hv. injection Hv as <-. rewrite uint64_small, Hutils by lia.
      split; [lia | done].
    + by rewrite (run_calculateEpochSubsidies_fails _ _ E1).
Qed.

(** X7. Whatever the two jobs find and in whatever order their ticks come,
    every entry of the subsidy table is for an epoch from 2 up to the largest
    32-bit value and holds the subsidy EpochMath gives for that epoch; so
    [GetEpochSubsidy] returns either that subsidy or 0. *)
Theorem subsidy_table_exact unspecified d utils resolver schedule :
  let n := fst (ticks unspecified schedule
                  (fst (NewNetworkState unspecified d utils resolver))) in
  subsidies_exact utils n ∧
  ∀ e, GetEpochSubsidy n e = NetworkUtils.GetEpochSubsidy utils e ∨
       GetEpochSubsidy n e = 0.
Proof.
  intros n.
  assert (Hinv : subsidies_exact utils n).
  { apply ticks_invariant.
    - intros w n0 Hn. exact Hn.
    - apply job_subsidies_exact.
    - apply NewNetworkState_invariant; [apply job_subsidies_exact |].
      split; [done |]. intros e v Hv. cbn in Hv. by rewrite lookup_empty in Hv. }
  split; [exact Hinv |]. intros e. unfold GetEpochSubsidy.
  destruct (epochSubsidies n !! e) as [v|] eqn:Hv; [left | by right].
  by destruct (proj2 Hinv e v Hv) as [_ ->].
Qed.

(** ** How the two jobs compose *)

(** A refresh cycle does the same whatever the subsidy table holds, and
    leaves it alone. *)
Lemma fetchNetworkInfo_frame unspecified table n tr :
  fetchNetworkInfo unspecified {| self := with_epochSubsidies table n; trace := tr |}
  = let '(r, m) := fetchNetworkInfo unspecified {| self := n; trace := tr |} in
    (r, {| self := with_epochSubsidies table (self m); trace := trace m |}).
Proof.
  run_cycle. cbn [with_epochSubsidies db networkUtils priceResolver networkInfo].
  repeat lazymatch goal with
  | |- context [match ?r with Ok _ => _ | Err _ => _ end] =>
      destruct r; cbn; [| reflexivity]
  end.
  reflexivity.
Qed.

Lemma run_fetchNetworkInfo_frame unspecified table n :
  run (fetchNetworkInfo unspecified) (with_epochSubsidies table n)
  = (with_epochSubsidies table (fst (run (fetchNetworkInfo unspecified) n)),
     snd (run (fetchNetworkInfo unspecified) n)).
Proof.
  unfold run. rewrite fetchNetworkInfo_frame.
  by destruct (fetchNetworkInfo unspecified _) as [r m].
Qed.

Lemma fetchNetworkInfo_only_networkInfo unspecified n :
  ∃ m, fst (run (fetchNetworkInfo unspecified) n) = with_networkInfo m n.
Proof.
  destruct (steps_total n) as [Hfail | [a Hok]].
  - destruct (run_fetchNetworkInfo_fails unspecified n Hfail) as (evs & -> & _).
    exists (networkInfo n). by destruct n.
  - rewrite (run_fetchNetworkInfo_ok _ _ _ Hok). eexists. reflexivity.
Qed.

Lemma calculateEpochSubsidies_only_epochSubsidies n :
  ∃ table, fst (run calculateEpochSubsidies n) = with_epochSubsidies table n.
Proof.
  destruct (database.GetLastProcessedLayer (db n)) as [l | err] eqn:E1.
  - rewrite (run_calculateEpochSubsidies_ok _ _ E1). eexists. reflexivity.
  - rewrite (run_calculateEpochSubsidies_fails _ _ E1).
    exists (epochSubsidies n). by destruct n.
Qed.

Lemma run_calculateEpochSubsidies_frame m n :
  run calculateEpochSubsidies (with_networkInfo m n)
  = (with_networkInfo m (fst (run calculateEpochSubsidies n)),
     snd (run calculateEpochSubsidies n)).
Proof.
  destruct (database.GetLastProcessedLayer (db n)) as [l | err] eqn:E1.
  - rewrite (run_calculateEpochSubsidies_ok n l E1).
    by rewrite (run_calculateEpochSubsidies_ok (with_networkInfo m n) l E1).
  - rewrite (run_calculateEpochSubsidies_fails n err E1).
    by rewrite (run_calculateEpochSubsidies_fails (with_networkInfo m n) err E1).
Qed.

(** X8. The two jobs do not interfere: run one after the other against the
    same collaborators, they leave the same state in either order, and each
    makes the same calls and stores as it does when run alone. *)
Theorem jobs_commute unspecified n :
  let snapshot_first := run calculateEpochSubsidies
                          (fst (run (fetchNetworkInfo unspecified) n)) in
  let subsidies_first := run (fetchNetworkInfo unspecified)
                           (fst (run calculateEpochSubsidies n)) in
  fst snapshot_first = fst subsidies_first ∧
  snd snapshot_first = snd (run calculateEpochSubsidies n) ∧
  snd subsidies_first = snd (run (fetchNetworkInfo unspecified) n).
Proof.
  destruct (fetchNetworkInfo_only_networkInfo unspecified n) as [m Hm].
  destruct (calculateEpochSubsidies_only_epochSubsidies n) as [table Ht].
  cbn zeta. rewrite Hm, Ht.
  rewrite run_calculateEpochSubsidies_frame, run_fetchNetworkInfo_frame.
  cbn [fst snd]. rewrite Hm, Ht. done.
Qed.

(** X9. A second refresh cycle against unchanged collaborators changes
    nothing: it makes the same calls and stores the same snapshot over the
    one that is there. *)
Theorem fetchNetworkInfo_idempotent unspecified n :
  let '(n1, observed) := run (fetchNetworkInfo unspecified) n in
  run (fetchNetworkInfo unspecified) n1 = (n1, observed).
Proof.
  destruct (steps_total n) as [Hfail | [a Hok]].
  - destruct (run_fetchNetworkInfo_fails unspecified n Hfail) as (evs & Heq & _).
    by rewrite Heq.
  - rewrite (run_fetchNetworkInfo_ok _ _ _ Hok).
    assert (Hok' : every_step_ok (published n unspecified a) a) by exact Hok.
    rewrite (run_fetchNetworkInfo_ok _ _ _ Hok').
    assert (Hsame : published (published n unspecified a) unspecified a
                    = published n unspecified a).
    { unfold published. cbn [db networkUtils networkInfo epochSubsidies priceResolver].
      by rewrite insert_insert_eq. }
    by rewrite Hsame.
Qed.

Lemma stored_from_twice utils i table :
  stored_from utils i (stored_from utils i table) = stored_from utils i table.
Proof.
  apply map_eq. intros e. rewrite !stored_from_lookup. by case_decide.
Qed.

(** X10. A second run of the subsidy refresh against unchanged collaborators
    changes nothing: it recomputes and overwrites every entry with the value
    it has. *)
Theorem calculateEpochSubsidies_idempotent n :
  let '(n1, observed) := run calculateEpochSubsidies n in
  run calculateEpochSubsidies n1 = (n1, observed).
Proof.
  destruct (database.GetLastProcessedLayer (db n)) as [l | err] eqn:E1.
  - rewrite (run_calculateEpochSubsidies_ok _ _ E1).
    set (n1 := with_epochSubsidies _ n).
    rewrite (run_calculateEpochSubsidies_ok n1 l E1).
    subst n1. unfold with_epochSubsidies, epochOf.
    cbn [db networkUtils networkInfo epochSubsidies priceResolver].
    by rewrite stored_from_twice.
  - rewrite (run_calculateEpochSubsidies_fails _ _ E1).
    by rewrite (run_calculateEpochSubsidies_fails _ _ E1).
Qed.

Lemma length_descending i : length (descending i) = Z.to_nat (i - 1).
Proof. unfold descending. by rewrite length_reverse, length_seqZ. Qed.

Lemma epochmath_calls_loop_events utils i :
  0 <= i < 2 ^ 32 → epochmath_calls (loop_events utils i) = descending i.
Proof.
  intros Hi. unfold loop_events, epochmath_calls.
  assert (Hrange : Forall (fun k => uint64 k = k) (descending i)).
  { apply Forall_forall. intros k Hk. apply elem_of_descending in Hk.
    apply uint64_small. lia. }
  induction Hrange as [|k ks Hk _ IH]; [done |].
  cbn. rewrite Hk. f_equal. exact IH.
Qed.

(** X11. A run of the subsidy refresh never removes or changes an entry
    outside the epochs it recomputes, never touches the snapshot, and asks
    EpochMath once for each entry it stores, in the order in which it stores
    them: when the layer is read, once for each epoch from 2 to [E + 1], and
    otherwise not at all. *)
Theorem calculateEpochSubsidies_only_adds n :
  let '(n', observed) := run calculateEpochSubsidies n in
  (∀ e, is_Some (epochSubsidies n !! e) → is_Some (epochSubsidies n' !! e)) ∧
  (∀ e, epochSubsidies n' !! e = epochSubsidies n !! e ∨
        (2 <= e < 2 ^ 32 ∧
         epochSubsidies n' !! e
         = Some (NetworkUtils.GetEpochSubsidy (networkUtils n) e))) ∧
  networkInfo n' = networkInfo n ∧
  epochmath_calls observed = map fst (subsidy_stores observed) ∧
  (∀ l, database.GetLastProcessedLayer (db n) = Ok l →
        length (subsidy_stores observed) = Z.to_nat (uint32 (epochOf n l + 1) - 1)) ∧
  (∀ err, database.GetLastProcessedLayer (db n) = Err err →
          subsidy_stores observed = [] ∧ n' = n).
Proof.
  destruct (database.GetLastProcessedLayer (db n)) as [l | err] eqn:E1.
  - rewrite (run_calculateEpochSubsidies_ok _ _ E1).
    pose proof (uint32_range (epochOf n l + 1)) as Htop.
    set (top := uint32 (epochOf n l + 1)) in *.
    cbn [with_epochSubsidies epochSubsidies networkInfo].
    assert (Hstores : subsidy_stores
              ([CallGetLastProcessedLayer; CallGetEpoch (uint64 (database.Layer l))]
               ++ loop_events (networkUtils n) top)
            = map (fun e => (e, NetworkUtils.GetEpochSubsidy (networkUtils n) e))
                (descending top)).
    { unfold subsidy_stores. cbn [app omap]. by apply subsidy_stores_loop_events. }
    split; [| split; [| split; [| split; [| split]]]].
    + intros e He. rewrite stored_from_lookup. by case_decide.
    + intros e. rewrite stored_from_lookup. case_decide; [right | by left].
      rewrite uint64_small by lia. split; [lia | done].
    + reflexivity.
    + rewrite Hstores.
      assert (Hcalls : epochmath_calls
                ([CallGetLastProcessedLayer; CallGetEpoch (uint64 (database.Layer l))]
                 ++ loop_events (networkUtils n) top)
              = descending top).
      { unfold epochmath_calls. cbn [app omap]. by apply epochmath_calls_loop_events. }
      rewrite Hcalls, map_map. cbn [fst]. by rewrite map_id.
    + intros l' Hl'. injection Hl' as <-. fold top.
      by rewrite Hstores, length_map, length_descending.
    + intros err Herr. discriminate.
  - rewrite (run_calculateEpochSubsidies_fails _ _ E1).
    repeat split; try done. intros e. by left.
Qed.

(** X12. At the two ends of the epoch range the subsidy refresh stores
    nothing and leaves the state as it is: in epoch 0, where [E + 1] is 1, and
    in the last 32-bit epoch, where [E + 1] wraps to 0. In every other epoch it
    stores at least the entry of epoch 2; in epoch 1 only that one. *)
Theorem calculateEpochSubsidies_range_ends n l :
  database.GetLastProcessedLayer (db n) = Ok l →
  let E := epochOf n l in
  let '(n', observed) := run calculateEpochSubsidies n in
  (subsidy_stores observed = [] ↔ E = 0 ∨ E = MaxUint32) ∧
  (E = 0 ∨ E = MaxUint32 → n' = n) ∧
  (E ≠ 0 → E ≠ MaxUint32 →
     last (subsidy_stores observed)
     = Some (2, NetworkUtils.GetEpochSubsidy (networkUtils n) 2)) ∧
  (E = 1 →
     subsidy_stores observed = [(2, NetworkUtils.GetEpochSubsidy (networkUtils n) 2)]).
Proof.
  intros E1 E. rewrite (run_calculateEpochSubsidies_ok _ _ E1). fold E.
  pose proof (epochOf_range n l) as HE. fold E in HE. clearbody E.
  assert (Hstores : subsidy_stores
            ([CallGetLastProcessedLayer; CallGetEpoch (uint64 (database.Layer l))]
             ++ loop_events (networkUtils n) (uint32 (E + 1)))
          = map (fun e => (e, NetworkUtils.GetEpochSubsidy (networkUtils n) e))
              (descending (uint32 (E + 1)))).
  { unfold subsidy_stores. cbn [app omap].
    apply subsidy_stores_loop_events, uint32_range. }
  rewrite Hstores.
  assert (Htop : (E = 0 ∨ E = MaxUint32) ∧ uint32 (E + 1) < 2 ∨
                 (E ≠ 0 ∧ E ≠ MaxUint32) ∧ uint32 (E + 1) = E + 1 ∧ 2 <= E + 1).
  { unfold MaxUint32.
    destruct (Z.eq_dec E 0) as [-> | H0]; [left; split; [by left | reflexivity] |].
    destruct (Z.eq_dec E 4294967295) as [-> | Hmax];
      [left; split; [by right | reflexivity] |].
    right. split; [done |]. rewrite uint32_small by lia. lia. }
  destruct Htop as [[Hends Hlt] | [[H0 Hmax] [Heq Hge]]].
  - rewrite descending_done by done. cbn [map].
    split; [done |]. split; [| split].
    + intros _. unfold stored_from. rewrite descending_done by done.
      cbn. by destruct n.
    + intros. by destruct Hends.
    + intros ->. exfalso. vm_compute in Hlt. discriminate.
  - rewrite Heq. split; [| split; [| split]].
    + rewrite (descending_step (E + 1)) by done. cbn [map].
      split; [discriminate | intros [?|?]; done].
    + intros [?|?]; done.
    + intros _ _. unfold descending.
      replace (E + 1 - 1) with (1 + (E - 1)) by lia.
      rewrite seqZ_app by lia. rewrite (seqZ_cons 2 1) by lia.
      rewrite (seqZ_nil _ (Z.pred 1)) by lia. cbn [app].
      rewrite reverse_cons, map_app. cbn [map]. by rewrite last_snoc.
    + intros ->. reflexivity.
Qed.

Lemma calculateEpochSubsidies_range_ends_witness :
  fst (run calculateEpochSubsidies genesis) = genesis ∧
  subsidy_stores (snd (run calculateEpochSubsidies genesis)) = [].
Proof.
  pose proof (calculateEpochSubsidies_range_ends genesis {| database.Layer := 100 |}
                eq_refl) as H.
  cbn zeta in H.
  destruct (run calculateEpochSubsidies genesis) as [n' observed].
  destruct H as (Hnone & Hsame & _).
  split; [apply Hsame | apply Hnone]; left; reflexivity.
Defined.

(** ** Construction *)

Lemma run_fetchNetworkInfo_unreadable unspecified n err :
  database.GetLastProcessedLayer (db n) = Err err →
  run (fetchNetworkInfo unspecified) n
  = (n, [CallGetLastProcessedLayer;
         Printf "Failed to get last processed layer: %s" err]).
Proof.
  intros E1. unfold run. run_cycle. rewrite E1. by destruct n.
Qed.

(** X13. Construction never fails. When the last processed layer cannot be
    read, each of the two first runs reads it once, prints that error and
    consults nothing else; the state is returned with both tables empty, so
    [GetInfo] gives the zero-valued snapshot and [GetEpochSubsidy] gives 0 for
    every epoch. *)
Theorem NewNetworkState_unreadable unspecified d utils resolver err :
  database.GetLastProcessedLayer d = Err err →
  let '(n, observed) := NewNetworkState unspecified d utils resolver in
  n = {| db := d; networkUtils := utils; networkInfo := ∅; epochSubsidies := ∅;
         priceResolver := resolver |} ∧
  observed = [ CallGetLastProcessedLayer;
               Printf "Failed to get last processed layer: %s" err;
               CallGetLastProcessedLayer;
               Printf "Failed to get last processed layer: %s" err ] ∧
  GetInfo n = types.zero ∧
  ∀ epoch, GetEpochSubsidy n epoch = 0.
Proof.
  intros E1. unfold NewNetworkState.
  rewrite (run_fetchNetworkInfo_unreadable unspecified _ err) by exact E1.
  rewrite (run_calculateEpochSubsidies_fails _ err) by exact E1.
  repeat split.
Qed.

Lemma NewNetworkState_unreadable_witness :
  GetInfo (fst (NewNetworkState amd64 unreachableDB sampleUtils
                  {| price.GetPrice := price_0_05 |})) = types.zero ∧
  length (snd (NewNetworkState amd64 unreachableDB sampleUtils
                 {| price.GetPrice := price_0_05 |})) = 4%nat.
Proof.
  pose proof (NewNetworkState_unreadable amd64 unreachableDB sampleUtils
                {| price.GetPrice := price_0_05 |} _ eq_refl) as H.
  destruct (NewNetworkState amd64 unreachableDB sampleUtils _) as [n observed].
  destruct H as (_ & -> & Hzero & _). split; [exact Hzero | reflexivity].
Defined.

(** ** The consumption loops, message by message *)

Section AnyWorker.

Context {Fact WriteDB : Type}.
Variable Save : WriteDB → Fact → WriteDB * option error.
Variable Unmarshal : string → option Fact * option error.
Variable step : nats.Msg → sink.worker (WriteDB := WriteDB) → sink.worker (WriteDB := WriteDB).
Variable batch : list nats.Msg → sink.worker (WriteDB := WriteDB) → sink.worker (WriteDB := WriteDB).
Variable round : list nats.Msg * option nats.FetchErr →
                 sink.worker (WriteDB := WriteDB) → sink.worker (WriteDB := WriteDB).

Hypothesis batch_nil : ∀ w, batch [] w = w.
Hypothesis batch_cons : ∀ msg msgs w,
  batch (msg :: msgs) w
  = match sink.state w with
    | sink.Running => batch msgs (step msg w)
    | _ => w
    end.
Hypothesis round_eq : ∀ fetched w,
  round fetched w
  = match sink.state w with
    | sink.Running =>
        if timed_out fetched then sink.say (sink.Println "Error ") w
        else batch (fst fetched) w
    | _ => w
    end.
Hypothesis step_ok : ∀ msg w fact,
  Unmarshal (nats.Data msg) = (Some fact, None) →
  sink.state w = sink.Running →
  sink.state (step msg w) = sink.Running ∧
  sink.WriteDB_ (step msg w) = fst (Save (sink.WriteDB_ w) fact) ∧
  settlements (sink.out (step msg w))
  = settlements (sink.out w)
    ++ [match snd (Save (sink.WriteDB_ w) fact) with
        | Some _ => sink.Nak msg
        | None => sink.Ack msg
        end].
Hypothesis step_bad : ∀ msg w,
  ¬ decodes Unmarshal msg →
  sink.state w = sink.Running →
  sink.state (step msg w) = ends_by Unmarshal msg ∧
  sink.WriteDB_ (step msg w) = sink.WriteDB_ w ∧
  settlements (sink.out (step msg w)) = settlements (sink.out w).

Lemma decodes_dec msg : decodes Unmarshal msg ∨ ¬ decodes Unmarshal msg.
Proof.
  unfold decodes. destruct (Unmarshal (nats.Data msg)) as [[fact|] [e|]];
    first [by left; eexists | right; intros [? ?]; congruence].
Qed.

Lemma decoded_cons_ok msg msgs fact :
  Unmarshal (nats.Data msg) = (Some fact, None) →
  decoded Unmarshal (msg :: msgs) = msg :: decoded Unmarshal msgs ∧
  first_bad Unmarshal (msg :: msgs) = first_bad Unmarshal msgs.
Proof. intros H. cbn [decoded first_bad]. by rewrite H. Qed.

Lemma decoded_cons_bad msg msgs :
  ¬ decodes Unmarshal msg →
  decoded Unmarshal (msg :: msgs) = [] ∧
  first_bad Unmarshal (msg :: msgs) = Some msg.
Proof.
  intros H. cbn [decoded first_bad].
  destruct (Unmarshal (nats.Data msg)) as [[fact|] [e|]] eqn:Hu; try done.
  destruct H. by eexists.
Qed.

Lemma ends_by_stopped msg : ends_by Unmarshal msg ≠ sink.Running.
Proof. unfold ends_by. by destruct (fst (Unmarshal (nats.Data msg))). Qed.

Lemma first_bad_None msgs :
  first_bad Unmarshal msgs = None ↔ Forall (decodes Unmarshal) msgs.
Proof.
  induction msgs as [|msg msgs IH]; [by split |].
  destruct (decodes_dec msg) as [[fact Hfact] | Hbad].
  - rewrite (proj2 (decoded_cons_ok msg msgs fact Hfact)), IH. split.
    + intros H. constructor; [by eexists | done].
    + by intros [_ H]%Forall_cons.
  - rewrite (proj2 (decoded_cons_bad msg msgs Hbad)). split; [done |].
    by intros [H _]%Forall_cons.
Qed.

Lemma decoded_all msgs :
  Forall (decodes Unmarshal) msgs → decoded Unmarshal msgs = msgs.
Proof.
  induction 1 as [|msg msgs [fact Hfact] _ IH]; [done |].
  by rewrite (proj1 (decoded_cons_ok msg msgs fact Hfact)), IH.
Qed.

Lemma decoded_decodes msgs : Forall (decodes Unmarshal) (decoded Unmarshal msgs).
Proof.
  induction msgs as [|msg msgs IH]; [constructor |].
  destruct (decodes_dec msg) as [[fact Hfact] | Hbad].
  - rewrite (proj1 (decoded_cons_ok msg msgs fact Hfact)).
    constructor; [by eexists | done].
  - rewrite (proj1 (decoded_cons_bad msg msgs Hbad)). constructor.
Qed.

Lemma decoded_app msgs rest :
  decoded Unmarshal (msgs ++ rest)
  = match first_bad Unmarshal msgs with
    | None => msgs ++ decoded Unmarshal rest
    | Some _ => decoded Unmarshal msgs
    end ∧
  first_bad Unmarshal (msgs ++ rest)
  = match first_bad Unmarshal msgs with
    | None => first_bad Unmarshal rest
    | Some msg => Some msg
    end.
Proof.
  induction msgs as [|msg msgs [IH1 IH2]]; [done |]. cbn [app].
  destruct (decodes_dec msg) as [[fact Hfact] | Hbad].
  - rewrite !(proj1 (decoded_cons_ok msg _ fact Hfact)),
      !(proj2 (decoded_cons_ok msg _ fact Hfact)), IH1, IH2.
    by destruct (first_bad Unmarshal msgs).
  - by rewrite !(proj1 (decoded_cons_bad msg _ Hbad)),
      !(proj2 (decoded_cons_bad msg _ Hbad)).
Qed.

Lemma batch_stopped msgs w : sink.state w ≠ sink.Running → batch msgs w = w.
Proof.
  intros Hstop. destruct msgs as [|msg msgs]; [apply batch_nil |].
  rewrite batch_cons. by destruct (sink.state w).
Qed.

Lemma rounds_stopped fetches w :
  sink.state w ≠ sink.Running → fold_left (fun w f => round f w) fetches w = w.
Proof.
  intros Hstop. induction fetches as [|f fetches IH]; [done |].
  cbn [fold_left]. rewrite round_eq.
  destruct (sink.state w) eqn:Hs; [done | |]; rewrite <- Hs in Hstop; apply IH.
Qed.

(** A batch is handled up to the first payload that does not decode to a
    fact, and the worker ends there. *)
Lemma any_batch_runs msgs w :
  sink.state w = sink.Running →
  sink.state (batch msgs w) = state_after Unmarshal msgs ∧
  sink.WriteDB_ (batch msgs w)
  = fst (settle Save Unmarshal (decoded Unmarshal msgs) (sink.WriteDB_ w)) ∧
  settlements (sink.out (batch msgs w))
  = settlements (sink.out w)
    ++ snd (settle Save Unmarshal (decoded Unmarshal msgs) (sink.WriteDB_ w)).
Proof.
  revert w. induction msgs as [|msg msgs IH]; intros w Hrun.
  - rewrite batch_nil. cbn. by rewrite app_nil_r.
  - rewrite batch_cons, Hrun. unfold state_after.
    destruct (decodes_dec msg) as [[fact Hfact] | Hbad].
    + destruct (decoded_cons_ok msg msgs fact Hfact) as [-> ->].
      destruct (step_ok msg w fact Hfact Hrun) as (Hs & Hd & Ho).
      destruct (IH (step msg w) Hs) as (Hs' & Hd' & Ho').
      cbn [settle]. rewrite Hfact. cbn [fst].
      rewrite Hd in Hd', Ho'. rewrite Ho in Ho'.
      destruct (Save (sink.WriteDB_ w) fact) as [d1 saveErr]. cbn [fst snd] in *.
      destruct (settle Save Unmarshal (decoded Unmarshal msgs) d1) as [d2 settled].
      cbn [fst snd] in *.
      split; [exact Hs' |]. split; [done |]. by rewrite Ho', <- app_assoc.
    + destruct (decoded_cons_bad msg msgs Hbad) as [-> ->].
      destruct (step_bad msg w Hbad Hrun) as (Hs & Hd & Ho).
      rewrite batch_stopped by (rewrite Hs; apply ends_by_stopped).
      cbn [settle fst snd]. by rewrite app_nil_r.
Qed.

Lemma settle_app msgs rest d :
  Forall (decodes Unmarshal) msgs →
  settle Save Unmarshal (msgs ++ rest) d
  = let '(d1, settled1) := settle Save Unmarshal msgs d in
    let '(d2, settled2) := settle Save Unmarshal rest d1 in
    (d2, settled1 ++ settled2).
Proof.
  intros Hdec. revert d. induction Hdec as [|msg msgs [fact Hfact] _ IH]; intros d.
  - cbn. by destruct (settle Save Unmarshal rest d).
  - cbn [app settle]. rewrite Hfact. cbn [fst].
    destruct (Save d fact) as [d1 e1]. rewrite IH.
    destruct (settle Save Unmarshal msgs d1) as [d2 s2].
    by destruct (settle Save Unmarshal rest d2) as [d3 s3].
Qed.

(** So are the fetches, one after the other. *)
Lemma any_rounds_run fetches w :
  sink.state w = sink.Running →
  let w' := fold_left (fun w f => round f w) fetches w in
  sink.state w' = state_after Unmarshal (handled fetches) ∧
  sink.WriteDB_ w'
  = fst (settle Save Unmarshal (decoded Unmarshal (handled fetches)) (sink.WriteDB_ w)) ∧
  settlements (sink.out w')
  = settlements (sink.out w)
    ++ snd (settle Save Unmarshal (decoded Unmarshal (handled fetches)) (sink.WriteDB_ w)).
Proof.
  revert w. induction fetches as [|f fetches IH]; intros w Hrun.
  - cbn. by rewrite app_nil_r.
  - cbn [fold_left]. unfold handled. cbn [mbind list_bind]. fold (handled fetches).
    set (msgs := if timed_out f then [] else fst f).
    assert (Hround : sink.state (round f w) = state_after Unmarshal msgs ∧
              sink.WriteDB_ (round f w)
              = fst (settle Save Unmarshal (decoded Unmarshal msgs) (sink.WriteDB_ w)) ∧
              settlements (sink.out (round f w))
              = settlements (sink.out w)
                ++ snd (settle Save Unmarshal (decoded Unmarshal msgs) (sink.WriteDB_ w))).
    { subst msgs. rewrite round_eq, Hrun. destruct (timed_out f).
      - cbn. unfold settlements. rewrite List.filter_app. cbn. by rewrite !app_nil_r.
      - by apply any_batch_runs. }
    destruct Hround as (Hs & Hd & Ho).
    destruct (decoded_app msgs (handled fetches)) as [Hdecoded Hfirst].
    unfold state_after in *. rewrite Hdecoded, Hfirst.
    destruct (first_bad Unmarshal msgs) as [bad|] eqn:Hbad.
    + rewrite rounds_stopped by (rewrite Hs; apply ends_by_stopped). done.
    + destruct (IH (round f w) Hs) as (Hs' & Hd' & Ho').
      apply first_bad_None in Hbad.
      rewrite (decoded_all msgs Hbad) in Hd, Ho.
      split; [exact Hs' |]. rewrite Hd', Ho', Ho, Hd.
      rewrite (settle_app _ (decoded Unmarshal (handled fetches)) _ Hbad).
      destruct (settle Save Unmarshal msgs (sink.WriteDB_ w)) as [d1 s1]. cbn [fst snd].
      destruct (settle Save Unmarshal (decoded Unmarshal (handled fetches)) d1) as [d2 s2].
      cbn [fst snd]. by rewrite app_assoc.
Qed.

(** Every message that is settled is settled once, in the order handled. *)
Lemma settle_each_once msgs d :
  Forall (decodes Unmarshal) msgs →
  settled_msgs (snd (settle Save Unmarshal msgs d)) = msgs ∧
  settlements (snd (settle Save Unmarshal msgs d)) = snd (settle Save Unmarshal msgs d).
Proof.
  intros Hdec. revert d. induction Hdec as [|msg msgs [fact Hfact] _ IH]; intros d.
  - done.
  - cbn [settle]. rewrite Hfact. cbn [fst].
    destruct (Save d fact) as [d1 e1]. specialize (IH d1).
    destruct (settle Save Unmarshal msgs d1) as [d2 s2]. cbn [snd] in *.
    destruct IH as [IH1 IH2]. unfold settled_msgs, settlements in *.
    destruct e1; cbn; by rewrite ?IH1, ?IH2.
Qed.

Lemma settled_msgs_settlements out :
  settled_msgs (settlements out) = settled_msgs out.
Proof.
  unfold settled_msgs, settlements.
  induction out as [|o out IH]; [done |]. destruct o; cbn; by rewrite ?IH.
Qed.

(** A worker started on a store, having printed its banner. *)
Lemma any_worker_settles fetches d banner :
  settles_up_to_first_bad Save Unmarshal fetches d
    (fold_left (fun w f => round f w) fetches
       {| sink.WriteDB_ := d; sink.out := [sink.Println banner];
          sink.state := sink.Running |}).
Proof.
  destruct (any_rounds_run fetches
              {| sink.WriteDB_ := d; sink.out := [sink.Println banner];
                 sink.state := sink.Running |} eq_refl) as (Hs & Hd & Ho).
  cbn [sink.WriteDB_ sink.out] in Hd, Ho. cbn [settlements List.filter is_settlement app] in Ho.
  unfold settles_up_to_first_bad. cbn zeta.
  split; [exact Hs |]. split; [| split; [exact Hd | split; [exact Ho |]]].
  - rewrite Hs. unfold state_after. rewrite <- first_bad_None.
    destruct (first_bad Unmarshal (handled fetches)) as [bad|]; [| done].
    split; [| done]. intros H. by apply ends_by_stopped in H.
  - rewrite <- settled_msgs_settlements, Ho.
    apply settle_each_once, decoded_decodes.
Qed.

End AnyWorker.

Section AnyWorkerStops.

Context {WriteDB : Type}.
Variable step : nats.Msg → sink.worker (WriteDB := WriteDB) → sink.worker (WriteDB := WriteDB).
Variable batch : list nats.Msg → sink.worker (WriteDB := WriteDB) → sink.worker (WriteDB := WriteDB).
Variable round : list nats.Msg * option nats.FetchErr →
                 sink.worker (WriteDB := WriteDB) → sink.worker (WriteDB := WriteDB).

Hypothesis batch_nil : ∀ w, batch [] w = w.
Hypothesis batch_cons : ∀ msg msgs w,
  batch (msg :: msgs) w
  = match sink.state w with
    | sink.Running => batch msgs (step msg w)
    | _ => w
    end.
Hypothesis round_eq : ∀ fetched w,
  round fetched w
  = match sink.state w with
    | sink.Running =>
        if timed_out fetched then sink.say (sink.Println "Error ") w
        else batch (fst fetched) w
    | _ => w
    end.

(** Once a message has ended the worker, nothing of the batch or of a later
    fetch is handled. *)
Lemma any_rounds_stop err msg rest later w :
  err ≠ Some nats.ErrTimeout →
  sink.state w = sink.Running →
  sink.state (step msg w) ≠ sink.Running →
  fold_left (fun w f => round f w) ((msg :: rest, err) :: later) w = step msg w.
Proof.
  intros Hto Hrun Hstop. cbn [fold_left].
  assert (Hround : round (msg :: rest, err) w = step msg w).
  { rewrite round_eq, Hrun. unfold timed_out. cbn [fst snd].
    assert (Hb : batch (msg :: rest) w = step msg w).
    { rewrite batch_cons, Hrun. destruct rest as [|m rest]; [apply batch_nil |].
      rewrite batch_cons. by destruct (sink.state (step msg w)). }
    destruct err as [[|other]|]; [congruence | exact Hb | exact Hb]. }
  rewrite Hround. induction later as [|f later IH]; [done |].
  cbn [fold_left]. rewrite round_eq.
  by destruct (sink.state (step msg w)).
Qed.

End AnyWorkerStops.

Lemma settlements_say out o :
  settlements (out ++ [o]) = settlements out ++ (if is_settlement o then [o] else []).
Proof. unfold settlements. rewrite List.filter_app. cbn. by destruct (is_settlement o). Qed.

Ltac settle_step :=
  cbn [sink.say sink.saved sink.stop sink.out sink.state sink.WriteDB_ fst snd];
  rewrite ?settlements_say; cbn [is_settlement]; rewrite ?app_nil_r.

Section Settling.

Context {Reward LayerUpdate Atx Transaction WriteDB : Type}.
Variable Reward_Layer : Reward → Z.
Variable LayerUpdate_LayerID : LayerUpdate → Z.
Variable Atx_NodeID : Atx → string.
Variable Transaction_String : option Transaction → string.
Variable SaveReward : WriteDB → Reward → WriteDB * option error.
Variable SaveLayer : WriteDB → LayerUpdate → WriteDB * option error.
Variable SaveAtx : WriteDB → Atx → WriteDB * option error.
Variable SaveTransactions : WriteDB → option Transaction → WriteDB * option error.
Variable UnmarshalReward : string → option Reward * option error.
Variable UnmarshalLayer : string → option LayerUpdate * option error.
Variable UnmarshalAtx : string → option Atx * option error.
Variable UnmarshalTransaction : string → option Transaction * option error.

Abbreviation rewardsMsg' := (sink.rewardsMsg Reward_Layer SaveReward UnmarshalReward).
Abbreviation layersMsg' := (sink.layersMsg LayerUpdate_LayerID SaveLayer UnmarshalLayer).
Abbreviation layersBatch' := (sink.layersBatch LayerUpdate_LayerID SaveLayer UnmarshalLayer).
Abbreviation atxMsg' := (sink.atxMsg Atx_NodeID SaveAtx UnmarshalAtx).
Abbreviation transactionMsg' :=
  (sink.transactionMsg Transaction_String SaveTransactions UnmarshalTransaction).

Lemma rewardsMsg_ok msg (w : sink.worker (WriteDB := WriteDB)) fact :
  UnmarshalReward (nats.Data msg) = (Some fact, None) →
  sink.state w = sink.Running →
  sink.state (rewardsMsg' msg w) = sink.Running ∧
  sink.WriteDB_ (rewardsMsg' msg w) = fst (SaveReward (sink.WriteDB_ w) fact) ∧
  settlements (sink.out (rewardsMsg' msg w))
  = settlements (sink.out w)
    ++ [match snd (SaveReward (sink.WriteDB_ w) fact) with
        | Some _ => sink.Nak msg
        | None => sink.Ack msg
        end].
Proof.
  intros Hfact Hrun. unfold sink.rewardsMsg. rewrite Hfact. settle_step.
  destruct (SaveReward (sink.WriteDB_ w) fact) as [d [e|]]; by settle_step.
Qed.

Lemma atxMsg_ok msg (w : sink.worker (WriteDB := WriteDB)) fact :
  UnmarshalAtx (nats.Data msg) = (Some fact, None) →
  sink.state w = sink.Running →
  sink.state (atxMsg' msg w) = sink.Running ∧
  sink.WriteDB_ (atxMsg' msg w) = fst (SaveAtx (sink.WriteDB_ w) fact) ∧
  settlements (sink.out (atxMsg' msg w))
  = settlements (sink.out w)
    ++ [match snd (SaveAtx (sink.WriteDB_ w) fact) with
        | Some _ => sink.Nak msg
        | None => sink.Ack msg
        end].
Proof.
  intros Hfact Hrun. unfold sink.atxMsg. rewrite Hfact. settle_step.
  destruct (SaveAtx (sink.WriteDB_ w) fact) as [d [e|]]; by settle_step.
Qed.

Lemma transactionMsg_ok msg (w : sink.worker (WriteDB := WriteDB)) fact :
  pointer_as_fact UnmarshalTransaction (nats.Data msg) = (Some fact, None) →
  sink.state w = sink.Running →
  sink.state (transactionMsg' msg w) = sink.Running ∧
  sink.WriteDB_ (transactionMsg' msg w) = fst (SaveTransactions (sink.WriteDB_ w) fact) ∧
  settlements (sink.out (transactionMsg' msg w))
  = settlements (sink.out w)
    ++ [match snd (SaveTransactions (sink.WriteDB_ w) fact) with
        | Some _ => sink.Nak msg
        | None => sink.Ack msg
        end].
Proof.
  unfold pointer_as_fact. intros Hfact Hrun. unfold sink.transactionMsg.
  destruct (UnmarshalTransaction (nats.Data msg)) as [t e]. cbn [fst snd] in Hfact.
  injection Hfact as <- ->. settle_step.
  destruct (SaveTransactions (sink.WriteDB_ w) t) as [d [e|]]; by settle_step.
Qed.

Lemma layersMsg_ok msg (w : sink.worker (WriteDB := WriteDB)) fact :
  UnmarshalLayer (nats.Data msg) = (Some fact, None) →
  sink.state w = sink.Running →
  sink.state (fst (layersMsg' None msg w)) = sink.Running ∧
  sink.WriteDB_ (fst (layersMsg' None msg w)) = fst (SaveLayer (sink.WriteDB_ w) fact) ∧
  settlements (sink.out (fst (layersMsg' None msg w)))
  = settlements (sink.out w)
    ++ [match snd (SaveLayer (sink.WriteDB_ w) fact) with
        | Some _ => sink.Nak msg
        | None => sink.Ack msg
        end].
Proof.
  intros Hfact Hrun. unfold sink.layersMsg. rewrite Hfact. settle_step.
  destruct (SaveLayer (sink.WriteDB_ w) fact) as [d [e|]]; by settle_step.
Qed.

(** The timeout check inside the layers loop never fires: the batch is not
    handled at all after a timeout, and no other error is a timeout. *)
Lemma layersMsg_no_timeout err msg (w : sink.worker (WriteDB := WriteDB)) :
  err ≠ Some nats.ErrTimeout →
  layersMsg' err msg w = layersMsg' None msg w ∧ snd (layersMsg' None msg w) = false.
Proof.
  intros Hto. split.
  - destruct err as [[|other]|]; [congruence | done | done].
  - unfold sink.layersMsg.
    destruct (UnmarshalLayer (nats.Data msg)) as [[layer|] [e|]]; cbn; try done;
      by destruct (SaveLayer _ _) as [d [e|]].
Qed.

Lemma layersBatch_no_timeout err msgs (w : sink.worker (WriteDB := WriteDB)) :
  err ≠ Some nats.ErrTimeout → layersBatch' err msgs w = layersBatch' None msgs w.
Proof.
  intros Hto. revert w. induction msgs as [|msg msgs IH]; intros w; [done |].
  cbn [sink.layersBatch]. destruct (sink.state w); try done.
  rewrite (proj1 (layersMsg_no_timeout err msg w Hto)).
  destruct (layersMsg' None msg w) as [w1 b]. by destruct b.
Qed.

Lemma layersBatch_cons msg msgs (w : sink.worker (WriteDB := WriteDB)) :
  layersBatch' None (msg :: msgs) w
  = match sink.state w with
    | sink.Running => layersBatch' None msgs (fst (layersMsg' None msg w))
    | _ => w
    end.
Proof.
  cbn [sink.layersBatch]. destruct (sink.state w); try done.
  pose proof (proj2 (layersMsg_no_timeout None msg w ltac:(done))) as Hb.
  destruct (layersMsg' None msg w) as [w1 b]. cbn [fst snd] in *. by subst b.
Qed.

Lemma layersRound_eq fetched (w : sink.worker (WriteDB := WriteDB)) :
  sink.layersRound LayerUpdate_LayerID SaveLayer UnmarshalLayer fetched w
  = match sink.state w with
    | sink.Running =>
        if timed_out fetched then sink.say (sink.Println "Error ") w
        else layersBatch' None (fst fetched) w
    | _ => w
    end.
Proof.
  unfold sink.layersRound, timed_out. destruct (sink.state w); try done.
  destruct (snd fetched) as [[|other]|]; [done | | done].
  by apply layersBatch_no_timeout.
Qed.

Lemma rewardsMsg_bad msg (w : sink.worker (WriteDB := WriteDB)) :
  ¬ decodes UnmarshalReward msg →
  sink.state w = sink.Running →
  sink.state (rewardsMsg' msg w) = ends_by UnmarshalReward msg ∧
  sink.WriteDB_ (rewardsMsg' msg w) = sink.WriteDB_ w ∧
  settlements (sink.out (rewardsMsg' msg w)) = settlements (sink.out w).
Proof.
  intros Hbad Hrun. unfold sink.rewardsMsg, ends_by, decodes in *.
  destruct (UnmarshalReward (nats.Data msg)) as [[fact|] [e|]];
    first [by settle_step | destruct Hbad; by eexists].
Qed.

Lemma layersMsg_bad msg (w : sink.worker (WriteDB := WriteDB)) :
  ¬ decodes UnmarshalLayer msg →
  sink.state w = sink.Running →
  sink.state (fst (layersMsg' None msg w)) = ends_by UnmarshalLayer msg ∧
  sink.WriteDB_ (fst (layersMsg' None msg w)) = sink.WriteDB_ w ∧
  settlements (sink.out (fst (layersMsg' None msg w))) = settlements (sink.out w).
Proof.
  intros Hbad Hrun. unfold sink.layersMsg, ends_by, decodes in *.
  destruct (UnmarshalLayer (nats.Data msg)) as [[fact|] [e|]];
    first [by settle_step | destruct Hbad; by eexists].
Qed.

Lemma atxMsg_bad msg (w : sink.worker (WriteDB := WriteDB)) :
  ¬ decodes UnmarshalAtx msg →
  sink.state w = sink.Running →
  sink.state (atxMsg' msg w) = ends_by UnmarshalAtx msg ∧
  sink.WriteDB_ (atxMsg' msg w) = sink.WriteDB_ w ∧
  settlements (sink.out (atxMsg' msg w)) = settlements (sink.out w).
Proof.
  intros Hbad Hrun. unfold sink.atxMsg, ends_by, decodes in *.
  destruct (UnmarshalAtx (nats.Data msg)) as [[fact|] [e|]];
    first [by settle_step | destruct Hbad; by eexists].
Qed.

Lemma transactionMsg_bad msg (w : sink.worker (WriteDB := WriteDB)) :
  ¬ decodes (pointer_as_fact UnmarshalTransaction) msg →
  sink.state w = sink.Running →
  sink.state (transactionMsg' msg w)
  = ends_by (pointer_as_fact UnmarshalTransaction) msg ∧
  sink.WriteDB_ (transactionMsg' msg w) = sink.WriteDB_ w ∧
  settlements (sink.out (transactionMsg' msg w)) = settlements (sink.out w).
Proof.
  intros Hbad Hrun. unfold sink.transactionMsg, ends_by, decodes, pointer_as_fact in *.
  destruct (UnmarshalTransaction (nats.Data msg)) as [t [e|]]; cbn [fst snd] in *;
    first [by settle_step | destruct Hbad; by eexists].
Qed.

Lemma rewardsRound_eq fetched (w : sink.worker (WriteDB := WriteDB)) :
  sink.rewardsRound Reward_Layer SaveReward UnmarshalReward fetched w
  = match sink.state w with
    | sink.Running =>
        if timed_out fetched then sink.say (sink.Println "Error ") w
        else sink.rewardsBatch Reward_Layer SaveReward UnmarshalReward (fst fetched) w
    | _ => w
    end.
Proof.
  unfold sink.rewardsRound, timed_out. destruct (sink.state w); try done.
  by destruct (snd fetched) as [[|other]|].
Qed.

Lemma atxRound_eq fetched (w : sink.worker (WriteDB := WriteDB)) :
  sink.atxRound Atx_NodeID SaveAtx UnmarshalAtx fetched w
  = match sink.state w with
    | sink.Running =>
        if timed_out fetched then sink.say (sink.Println "Error ") w
        else sink.atxBatch Atx_NodeID SaveAtx UnmarshalAtx (fst fetched) w
    | _ => w
    end.
Proof.
  unfold sink.atxRound, timed_out. destruct (sink.state w); try done.
  by destruct (snd fetched) as [[|other]|].
Qed.

Lemma transactionRound_eq fetched (w : sink.worker (WriteDB := WriteDB)) :
  sink.transactionRound Transaction_String SaveTransactions UnmarshalTransaction fetched w
  = match sink.state w with
    | sink.Running =>
        if timed_out fetched then sink.say (sink.Println "Error ") w
        else sink.transactionBatch Transaction_String SaveTransactions
               UnmarshalTransaction (fst fetched) w
    | _ => w
    end.
Proof.
  unfold sink.transactionRound, timed_out. destruct (sink.state w); try done.
  by destruct (snd fetched) as [[|other]|].
Qed.

(** X14. The rewards worker and the layers worker settle, once each and in
    order, exactly the handled messages that come before the first whose
    payload does not decode to a fact, that is, for which [json.Unmarshal]
    returns an error or leaves the pointer nil (as it does without error for
    [null]): their facts are saved in turn, and a message is acknowledged
    when its save succeeds and negative-acknowledged when it fails. The
    worker is still running exactly when every handled payload decoded to a
    fact; otherwise it has ended on the first that did not, by a panic when
    the pointer is nil and by [log.Fatal] when it is not, and nothing after
    that message is saved or settled. The messages of a fetch that timed out
    are not handled; any other fetch error is ignored. *)
Theorem rewards_and_layers_settle_each_message fetches d :
  settles_up_to_first_bad SaveReward UnmarshalReward fetches d
    (sink.StartRewardsSink Reward_Layer SaveReward UnmarshalReward fetches d) ∧
  settles_up_to_first_bad SaveLayer UnmarshalLayer fetches d
    (sink.StartLayersSink LayerUpdate_LayerID SaveLayer UnmarshalLayer fetches d).
Proof.
  split.
  - apply (any_worker_settles SaveReward UnmarshalReward rewardsMsg'
             (sink.rewardsBatch Reward_Layer SaveReward UnmarshalReward)
             (sink.rewardsRound Reward_Layer SaveReward UnmarshalReward)
             (fun w => eq_refl) (fun msg msgs w => eq_refl)
             rewardsRound_eq rewardsMsg_ok rewardsMsg_bad).
  - apply (any_worker_settles SaveLayer UnmarshalLayer
             (fun msg w => fst (layersMsg' None msg w))
             (layersBatch' None)
             (sink.layersRound LayerUpdate_LayerID SaveLayer UnmarshalLayer)
             (fun w => eq_refl) layersBatch_cons layersRound_eq
             layersMsg_ok layersMsg_bad).
Qed.

(** X15. The ATX worker and the two transaction workers settle, once each and
    in order, exactly the handled messages that come before the first whose
    payload does not decode, by the outcome of the save, and are still
    running exactly when there is no such message. For the ATX worker a
    payload decodes when [json.Unmarshal] returns no error and leaves the
    pointer non-nil; on the first that does not, the worker panics (nil
    pointer) or exits in [log.Fatal]. The transaction workers do not
    dereference the pointer: a payload decodes when [json.Unmarshal] returns
    no error, a nil transaction is handed to [SaveTransactions] like any
    other, and on the first error the worker exits in [log.Fatal]. *)
Theorem atx_and_transactions_settle_each_message fetches d :
  settles_up_to_first_bad SaveAtx UnmarshalAtx fetches d
    (sink.StartAtxSink Atx_NodeID SaveAtx UnmarshalAtx fetches d) ∧
  settles_up_to_first_bad SaveTransactions (pointer_as_fact UnmarshalTransaction)
    fetches d
    (sink.StartTransactionResultSink Transaction_String SaveTransactions
       UnmarshalTransaction fetches d) ∧
  settles_up_to_first_bad SaveTransactions (pointer_as_fact UnmarshalTransaction)
    fetches d
    (sink.StartTransactionCreatedSink Transaction_String SaveTransactions
       UnmarshalTransaction fetches d) ∧
  (∀ msg, decodes (pointer_as_fact UnmarshalTransaction) msg
          ↔ snd (UnmarshalTransaction (nats.Data msg)) = None) ∧
  (∀ msg, ends_by (pointer_as_fact UnmarshalTransaction) msg = sink.Exited).
Proof.
  split; [| split; [| split; [| split]]].
  - apply (any_worker_settles SaveAtx UnmarshalAtx atxMsg'
             (sink.atxBatch Atx_NodeID SaveAtx UnmarshalAtx)
             (sink.atxRound Atx_NodeID SaveAtx UnmarshalAtx)
             (fun w => eq_refl) (fun msg msgs w => eq_refl)
             atxRound_eq atxMsg_ok atxMsg_bad).
  - apply (any_worker_settles SaveTransactions (pointer_as_fact UnmarshalTransaction)
             transactionMsg'
             (sink.transactionBatch Transaction_String SaveTransactions UnmarshalTransaction)
             (sink.transactionRound Transaction_String SaveTransactions
                UnmarshalTransaction)
             (fun w => eq_refl) (fun msg msgs w => eq_refl)
             transactionRound_eq transactionMsg_ok transactionMsg_bad).
  - apply (any_worker_settles SaveTransactions (pointer_as_fact UnmarshalTransaction)
             transactionMsg'
             (sink.transactionBatch Transaction_String SaveTransactions UnmarshalTransaction)
             (sink.transactionRound Transaction_String SaveTransactions
                UnmarshalTransaction)
             (fun w => eq_refl) (fun msg msgs w => eq_refl)
             transactionRound_eq transactionMsg_ok transactionMsg_bad).
  - intros msg. unfold decodes, pointer_as_fact. split.
    + intros [fact [= _ H]]. exact H.
    + intros H. eexists. by rewrite H.
  - reflexivity.
Qed.

Lemma atxMsg_decode_failure msg (w : sink.worker (WriteDB := WriteDB)) :
  snd (UnmarshalAtx (nats.Data msg)) ≠ None → gone_unsettled w (atxMsg' msg w).
Proof.
  intros Herr. unfold sink.atxMsg.
  destruct (UnmarshalAtx (nats.Data msg)) as [[atx|] [errJson|]];
    cbn [snd] in Herr; try done;
    (split; [done |]; split; [done |]; eexists; cbn; rewrite <- ?app_assoc;
     split; [reflexivity | repeat constructor]).
Qed.

Lemma transactionMsg_decode_failure msg (w : sink.worker (WriteDB := WriteDB)) :
  snd (UnmarshalTransaction (nats.Data msg)) ≠ None →
  gone_unsettled w (transactionMsg' msg w) ∧
  sink.state (transactionMsg' msg w) = sink.Exited.
Proof.
  intros Herr. unfold sink.transactionMsg.
  destruct (UnmarshalTransaction (nats.Data msg)) as [t [errJson|]];
    cbn [snd] in Herr; try done.
  split; [| done]. split; [done |]. split; [done |]. eexists. cbn.
  rewrite <- ?app_assoc. split; [reflexivity | repeat constructor].
Qed.

(** X16. In the remaining three loops too a payload that fails to decode ends
    the worker without settling the message, saving anything or handling any
    later message. The ATX loop panics on a nil fact or exits in [log.Fatal];
    the two transaction loops print the pointer without dereferencing it and
    always exit in [log.Fatal]. *)
Theorem decode_failure_ends_other_workers err msg rest later d :
  err ≠ Some nats.ErrTimeout →
  let fetches := (msg :: rest, err) :: later in
  let atx := sink.StartAtxSink Atx_NodeID SaveAtx UnmarshalAtx fetches d in
  let result := sink.StartTransactionResultSink Transaction_String SaveTransactions
                  UnmarshalTransaction fetches d in
  let created := sink.StartTransactionCreatedSink Transaction_String SaveTransactions
                   UnmarshalTransaction fetches d in
  (snd (UnmarshalAtx (nats.Data msg)) ≠ None →
     sink.state atx ≠ sink.Running ∧ sink.WriteDB_ atx = d ∧
     settlements (sink.out atx) = []) ∧
  (snd (UnmarshalTransaction (nats.Data msg)) ≠ None →
     (sink.state result = sink.Exited ∧ sink.WriteDB_ result = d ∧
      settlements (sink.out result) = []) ∧
     (sink.state created = sink.Exited ∧ sink.WriteDB_ created = d ∧
      settlements (sink.out created) = [])).
Proof.
  intros Hto fetches atx result created.
  assert (Hnone : ∀ (w0 w : sink.worker (WriteDB := WriteDB)),
            gone_unsettled w0 w → settlements (sink.out w0) = [] →
            settlements (sink.out w) = []).
  { intros w0 w (_ & _ & printed & -> & Hp) H0.
    unfold settlements in *. rewrite List.filter_app, H0. cbn [app].
    induction Hp as [|o printed Ho _ IH]; [done |]. cbn. by rewrite Ho. }
  split; [intros Herr | intros Herr; split].
  - subst atx fetches. unfold sink.StartAtxSink.
    set (w0 := {| sink.WriteDB_ := d; sink.out := [sink.Println "Start atx sink"];
                  sink.state := sink.Running |}).
    pose proof (atxMsg_decode_failure msg w0 Herr) as Hgone.
    rewrite (any_rounds_stop atxMsg' (sink.atxBatch Atx_NodeID SaveAtx UnmarshalAtx)
               (sink.atxRound Atx_NodeID SaveAtx UnmarshalAtx)
               (fun w => eq_refl) (fun msg msgs w => eq_refl) atxRound_eq)
      by (done || apply Hgone).
    split; [apply Hgone |]. split; [apply Hgone |]. by apply (Hnone w0).
  - subst result fetches. unfold sink.StartTransactionResultSink.
    set (w0 := {| sink.WriteDB_ := d;
                  sink.out := [sink.Println "Start transaction result sink"];
                  sink.state := sink.Running |}).
    pose proof (transactionMsg_decode_failure msg w0 Herr) as [Hgone Hexit].
    rewrite (any_rounds_stop transactionMsg'
               (sink.transactionBatch Transaction_String SaveTransactions UnmarshalTransaction)
               (sink.transactionRound Transaction_String SaveTransactions UnmarshalTransaction)
               (fun w => eq_refl) (fun msg msgs w => eq_refl) transactionRound_eq)
      by (done || apply Hgone).
    split; [exact Hexit |]. split; [apply Hgone |]. by apply (Hnone w0).
  - subst created fetches. unfold sink.StartTransactionCreatedSink.
    set (w0 := {| sink.WriteDB_ := d;
                  sink.out := [sink.Println "Start transaction created sink"];
                  sink.state := sink.Running |}).
    pose proof (transactionMsg_decode_failure msg w0 Herr) as [Hgone Hexit].
    rewrite (any_rounds_stop transactionMsg'
               (sink.transactionBatch Transaction_String SaveTransactions UnmarshalTransaction)
               (sink.transactionRound Transaction_String SaveTransactions UnmarshalTransaction)
               (fun w => eq_refl) (fun msg msgs w => eq_refl) transactionRound_eq)
      by (done || apply Hgone).
    split; [exact Hexit |]. split; [apply Hgone |]. by apply (Hnone w0).
Qed.

End Settling.

(** The five workers on the sample fetches: the store takes the first two
    facts and refuses the third; the workers that dereference the fact panic
    on [null] and leave the message after it alone, the transaction workers
    hand the nil transaction to the store and go on. *)
Example workers_on_sampleFetches :
  let rewards := sink.StartRewardsSink id boundedSave jsonUnmarshal sampleFetches [] in
  let layers := sink.StartLayersSink id boundedSave jsonUnmarshal sampleFetches [] in
  let atx := sink.StartAtxSink (fun _ => "node-1") boundedSave jsonUnmarshal
               sampleFetches [] in
  let result := sink.StartTransactionResultSink (fun _ => "tx") boundedSavePointer
                  jsonUnmarshal sampleFetches [] in
  let three := [ sink.Ack {| nats.Data := "{}" |}; sink.Ack {| nats.Data := "{}" |};
                 sink.Nak {| nats.Data := "{}" |} ] in
  (sink.state rewards = sink.Panicked ∧ settlements (sink.out rewards) = three ∧
   sink.WriteDB_ rewards = [0; 0]) ∧
  (sink.state layers = sink.Panicked ∧ settlements (sink.out layers) = three) ∧
  (sink.state atx = sink.Panicked ∧ settlements (sink.out atx) = three) ∧
  (sink.state result = sink.Running ∧
   settlements (sink.out result)
   = three ++ [ sink.Nak {| nats.Data := "null" |}; sink.Nak {| nats.Data := "{}" |} ]).
Proof. vm_compute. repeat split. Qed.

Lemma decode_failure_ends_other_workers_witness :
  let fetches := [([{| nats.Data := "{" |}; {| nats.Data := "{}" |}], None)] in
  sink.state (sink.StartAtxSink (fun _ => "node-1") boundedSave jsonUnmarshal fetches [])
  ≠ sink.Running ∧
  sink.state (sink.StartTransactionResultSink (fun _ => "tx") boundedSavePointer
                jsonUnmarshal fetches []) = sink.Exited.
Proof.
  destruct (decode_failure_ends_other_workers (fun _ : Z => "node-1")
              (fun _ : option Z => "tx") boundedSave boundedSavePointer
              jsonUnmarshal jsonUnmarshal None {| nats.Data := "{" |}
              [{| nats.Data := "{}" |}] [] []) as [Hatx Htx];
    [discriminate |].
  split.
  - apply Hatx. vm_compute. discriminate.
  - apply Htx. vm_compute. discriminate.
Defined.

(** ** More of the consumer bootstrap *)

(** X17. [NewSink] panics exactly when the connection fails. Connected, it
    creates five consumers and then opens five pull subscriptions, one of each
    per subject and on the same stream; every consumer has explicit
    acknowledgement and starts at the last message; and no subscription names
    a durable that was created: the durables the workers pull from are five
    others. *)
Theorem NewSink_bootstrap :
  sink.NewSink false = None ∧
  ∃ calls, sink.NewSink true = Some calls ∧
    let created := omap (fun c => match c with
                                  | sink.AddConsumer stream cfg => Some (stream, cfg)
                                  | _ => None end) calls in
    let pulled := omap (fun c => match c with
                                 | sink.PullSubscribe subj durable stream =>
                                     Some (subj, durable, stream)
                                 | _ => None end) calls in
    (∃ consumers subscriptions,
       calls = consumers ++ subscriptions ∧
       length consumers = 5%nat ∧ length subscriptions = 5%nat ∧
       Forall (fun c => match c with sink.AddConsumer _ _ => True | _ => False end)
         consumers ∧
       Forall (fun c => match c with sink.PullSubscribe _ _ _ => True | _ => False end)
         subscriptions) ∧
    Forall (fun sc => nats.AckPolicy_ (snd sc) = nats.AckExplicitPolicy ∧
                      nats.DeliverPolicy_ (snd sc) = nats.DeliverLastPolicy) created ∧
    map (fun p => (fst (fst p), snd p)) pulled
    ≡ₚ map (fun sc => (nats.DeliverSubject (snd sc), fst sc)) created ∧
    NoDup (map (fun p => snd (fst p)) pulled) ∧
    ∀ durable, durable ∈ map (fun p => snd (fst p)) pulled →
               durable ∉ map (fun sc => nats.Durable (snd sc)) created.
Proof.
  split; [reflexivity |]. eexists. split; [reflexivity |]. cbn zeta.
  split; [| split; [| split; [| split]]].
  - exists (firstn 5 (default [] (sink.NewSink true))),
      (skipn 5 (default [] (sink.NewSink true))).
    repeat split; repeat constructor.
  - cbn. repeat constructor.
  - cbn. apply (bool_decide_unpack _). vm_compute. exact I.
  - cbn. apply (bool_decide_unpack _). vm_compute. exact I.
  - cbn. intros durable Hin. each_member Hin; not_member.
Qed.

(** ** hexToBase64 loses nothing *)

Lemma lor_mul_add a b n :
  0 <= n → 0 <= b < 2 ^ n → Z.lor (a * 2 ^ n) b = a * 2 ^ n + b.
Proof.
  intros Hn Hb. rewrite Z.add_nocarry_lor; [done |].
  rewrite <- Z.shiftl_mul_pow2 by done.
  apply Z.bits_inj'. intros i Hi. rewrite Z.land_spec, Z.bits_0.
  destruct (Z_lt_le_dec i n) as [Hlt | Hge].
  - by rewrite Z.shiftl_spec_low.
  - rewrite <- (Z.mod_small b (2 ^ n)) by done.
    rewrite Z.mod_pow2_bits_high by lia. apply andb_false_r.
Qed.

(** The 24-bit group of one, two and three bytes. *)
Lemma group_of_two x y :
  is_byte x → is_byte y →
  Z.lor (Z.shiftl x 16) (Z.shiftl y 8) = x * 65536 + y * 256.
Proof.
  unfold is_byte. intros Hx Hy. rewrite !Z.shiftl_mul_pow2 by lia.
  rewrite lor_mul_add by lia. lia.
Qed.

Lemma group_of_three x y z :
  is_byte x → is_byte y → is_byte z →
  Z.lor (Z.lor (Z.shiftl x 16) (Z.shiftl y 8)) z = x * 65536 + y * 256 + z.
Proof.
  unfold is_byte. intros Hx Hy Hz. rewrite group_of_two by done.
  replace (x * 65536 + y * 256) with ((x * 256 + y) * 2 ^ 8) by lia.
  rewrite lor_mul_add by lia. lia.
Qed.

Lemma sextet_div val shift :
  0 <= shift → base64.sextet val shift = base64.enc ((val / 2 ^ shift) mod 64).
Proof.
  intros. unfold base64.sextet. change 63 with (Z.ones 6).
  by rewrite Z.land_ones, Z.shiftr_div_pow2 by lia.
Qed.

Lemma base64_enc_inj i j :
  0 <= i < 64 → 0 <= j < 64 → base64.enc i = base64.enc j → i = j.
Proof.
  intros Hi Hj.
  assert (Hall : Forall (fun i => Forall (fun j => base64.enc i = base64.enc j → i = j)
                                    (seqZ 0 64)) (seqZ 0 64))
    by (apply (bool_decide_unpack _); vm_compute; exact I).
  rewrite Forall_seqZ in Hall. specialize (Hall i ltac:(lia)).
  rewrite Forall_seqZ in Hall. apply Hall. lia.
Qed.

Lemma base64_enc_not_padding i : 0 <= i < 64 → base64.enc i ≠ "="%char.
Proof.
  intros Hi.
  assert (Hall : Forall (fun i => base64.enc i ≠ "="%char) (seqZ 0 64))
    by (apply (bool_decide_unpack _); vm_compute; exact I).
  rewrite Forall_seqZ in Hall. apply Hall. lia.
Qed.

Lemma sextet_inj v w shift :
  0 <= shift → base64.sextet v shift = base64.sextet w shift →
  (v / 2 ^ shift) mod 64 = (w / 2 ^ shift) mod 64.
Proof.
  intros Hs. rewrite !sextet_div by done.
  apply base64_enc_inj; apply Z.mod_pos_bound; lia.
Qed.

Lemma sextet_not_padding v shift : 0 <= shift → base64.sextet v shift ≠ "="%char.
Proof.
  intros Hs. rewrite sextet_div by done.
  apply base64_enc_not_padding, Z.mod_pos_bound. lia.
Qed.

(** A group is known by its four sextets. *)
Lemma sextets_determine v w :
  0 <= v < 2 ^ 24 → 0 <= w < 2 ^ 24 →
  (v / 2 ^ 18) mod 64 = (w / 2 ^ 18) mod 64 →
  (v / 2 ^ 12) mod 64 = (w / 2 ^ 12) mod 64 →
  (v / 2 ^ 6) mod 64 = (w / 2 ^ 6) mod 64 →
  (v / 2 ^ 0) mod 64 = (w / 2 ^ 0) mod 64 →
  v = w.
Proof.
  intros Hv Hw H18 H12 H6 H0.
  change (2 ^ 18) with 262144 in *. change (2 ^ 12) with 4096 in *.
  change (2 ^ 6) with 64 in *. change (2 ^ 0) with 1 in *. change (2 ^ 24) with 16777216 in *.
  rewrite !Z.div_1_r in H0.
  assert (Hdigits : ∀ u, 0 <= u < 16777216 →
            u = (u / 262144) mod 64 * 262144 + (u / 4096) mod 64 * 4096
                + (u / 64) mod 64 * 64 + u mod 64).
  { intros u Hu.
    assert (H1 : u / 4096 = u / 64 / 64) by (rewrite Zdiv_Zdiv by lia; reflexivity).
    assert (H2 : u / 262144 = u / 64 / 64 / 64) by (rewrite !Zdiv_Zdiv by lia; reflexivity).
    rewrite H1, H2.
    pose proof (Z.div_mod u 64 ltac:(lia)).
    pose proof (Z.div_mod (u / 64) 64 ltac:(lia)).
    pose proof (Z.div_mod (u / 64 / 64) 64 ltac:(lia)).
    pose proof (Z.mod_pos_bound u 64 ltac:(lia)).
    pose proof (Z.mod_pos_bound (u / 64) 64 ltac:(lia)).
    pose proof (Z.mod_pos_bound (u / 64 / 64) 64 ltac:(lia)).
    assert (Htop : 0 <= u / 64 / 64 / 64 < 64).
    { rewrite <- H2. split; [apply Z.div_pos | apply Z.div_lt_upper_bound]; lia. }
    rewrite (Z.mod_small (u / 64 / 64 / 64) 64) by done.
    lia. }
  rewrite (Hdigits v Hv), (Hdigits w Hw). lia.
Qed.

Lemma low_sextet_zero u : (u * 64 / 2 ^ 0) mod 64 = 0.
Proof. change (2 ^ 0) with 1. by rewrite Z.div_1_r, Z.mod_mul. Qed.

Lemma second_sextet_zero u : (u * 4096 / 2 ^ 6) mod 64 = 0.
Proof.
  change (2 ^ 6) with 64. replace (u * 4096) with (u * 64 * 64) by lia.
  by rewrite Z.div_mul, Z.mod_mul.
Qed.

Ltac padding_clash :=
  exfalso;
  match goal with
  | H : base64.sextet _ _ = "="%char |- _ =>
      eapply sextet_not_padding; [| exact H]; lia
  | H : "="%char = base64.sextet _ _ |- _ =>
      symmetry in H; eapply sextet_not_padding; [| exact H]; lia
  end.

Ltac sextets_agree :=
  repeat match goal with
  | H : base64.sextet _ _ = base64.sextet _ _ |- _ =>
      apply sextet_inj in H; [| lia]
  end.

(** Bytes are recovered from their base64 text: the encoding is injective. *)
Lemma base64_Encode_inj l1 l2 :
  Forall is_byte l1 → Forall is_byte l2 →
  base64.Encode l1 = base64.Encode l2 → l1 = l2.
Proof.
  revert l2.
  induction l1 as [| x | x y | x y z l1 IH] using list_triple_ind;
    intros l2 H1 H2 Heq;
    destruct l2 as [| x' [| y' [| z' l2]]];
    cbn [base64.Encode] in Heq; cbn zeta in Heq;
    try discriminate; try reflexivity;
    repeat match goal with
    | H : Forall _ (_ :: _) |- _ => apply Forall_cons in H as [? H]
    end;
    injection Heq; clear Heq; intros;
    try padding_clash; sextets_agree.
  - (* one byte each *)
    rewrite !Z.shiftl_mul_pow2 in * by lia. change (2 ^ 16) with 65536 in *.
    assert (Hv : x * 65536 = x' * 65536).
    { unfold is_byte in *. apply sextets_determine; [lia | lia | done | done | |].
      - replace (x * 65536) with (x * 16 * 4096) by lia.
        replace (x' * 65536) with (x' * 16 * 4096) by lia.
        by rewrite !second_sextet_zero.
      - replace (x * 65536) with (x * 1024 * 64) by lia.
        replace (x' * 65536) with (x' * 1024 * 64) by lia.
        by rewrite !low_sextet_zero. }
    f_equal. lia.
  - (* two bytes each *)
    rewrite !group_of_two in * by done.
    assert (Hv : x * 65536 + y * 256 = x' * 65536 + y' * 256).
    { unfold is_byte in *. apply sextets_determine; [lia | lia | done | done | done |].
      replace (x * 65536 + y * 256) with ((x * 1024 + y * 4) * 64) by lia.
      replace (x' * 65536 + y' * 256) with ((x' * 1024 + y' * 4) * 64) by lia.
      by rewrite !low_sextet_zero. }
    unfold is_byte in *. assert (x = x') by lia. assert (y = y') by lia. by subst.
  - (* three bytes and more *)
    rewrite !group_of_three in * by done.
    assert (Hv : x * 65536 + y * 256 + z = x' * 65536 + y' * 256 + z').
    { unfold is_byte in *. by apply sextets_determine; [lia | lia | | | |]. }
    match goal with
    | H : base64.Encode _ = base64.Encode _ |- _ => rewrite (IH _ H1 H2 H)
    end.
    unfold is_byte in *. assert (x = x') by lia. assert (y = y') by lia.
    assert (z = z') by lia. by subst.
Qed.

Lemma hex_byte_digits a b a' b' :
  0 <= a <= 15 → 0 <= b <= 15 → 0 <= a' <= 15 → 0 <= b' <= 15 →
  Z.lor (Z.shiftl a 4) b = Z.lor (Z.shiftl a' 4) b' → a = a' ∧ b = b'.
Proof.
  intros Ha Hb Ha' Hb'. rewrite !Z.shiftl_mul_pow2 by lia.
  rewrite !lor_mul_add by lia. lia.
Qed.

Lemma digit_range c : hex.reverseHexTable c <= 15 → 0 <= hex.reverseHexTable c <= 15.
Proof. intros H. by apply reverseHexTable_range, reverseHexTable_hexdigit. Qed.

Lemma hex_Decode_bytes l bs : hex.Decode l = Ok bs → Forall is_byte bs.
Proof.
  revert bs. induction l as [| x | x y l IH] using list_pair_ind; intros bs.
  - intros [= <-]. constructor.
  - cbn. by destruct (15 <? hex.reverseHexTable x).
  - cbn [hex.Decode]. cbn zeta.
    destruct (Z.ltb_spec 15 (hex.reverseHexTable x)); [done |].
    destruct (Z.ltb_spec 15 (hex.reverseHexTable y)); [done |].
    destruct (hex.Decode l) as [bs' |]; [| done]. intros [= <-].
    constructor; [| by apply IH].
    apply hex_byte_range; by apply digit_range.
Qed.

(** Decoded bytes and digit values determine each other. *)
Lemma hex_Decode_digits l1 l2 bs1 bs2 :
  hex.Decode l1 = Ok bs1 → hex.Decode l2 = Ok bs2 →
  bs1 = bs2 ↔ map hex.reverseHexTable l1 = map hex.reverseHexTable l2.
Proof.
  revert l2 bs1 bs2.
  induction l1 as [| x | x y l1 IH] using list_pair_ind; intros l2 bs1 bs2.
  - intros [= <-]. destruct l2 as [| x' [| y' l2]].
    + by intros [= <-].
    + cbn. by destruct (15 <? hex.reverseHexTable x').
    + cbn [hex.Decode]. cbn zeta.
      destruct (15 <? hex.reverseHexTable x'); [done |].
      destruct (15 <? hex.reverseHexTable y'); [done |].
      destruct (hex.Decode l2); [| done]. intros [= <-]. by split.
  - cbn. by destruct (15 <? hex.reverseHexTable x).
  - cbn [hex.Decode]. cbn zeta.
    destruct (Z.ltb_spec 15 (hex.reverseHexTable x)); [done |].
    destruct (Z.ltb_spec 15 (hex.reverseHexTable y)); [done |].
    destruct (hex.Decode l1) as [bs |] eqn:Hl1; [| done]. intros [= <-].
    destruct l2 as [| x' [| y' l2]].
    + intros [= <-]. by split.
    + cbn. by destruct (15 <? hex.reverseHexTable x').
    + cbn [hex.Decode]. cbn zeta.
      destruct (Z.ltb_spec 15 (hex.reverseHexTable x')); [done |].
      destruct (Z.ltb_spec 15 (hex.reverseHexTable y')); [done |].
      destruct (hex.Decode l2) as [bs' |] eqn:Hl2; [| done]. intros [= <-].
      specialize (IH l2 bs bs' eq_refl Hl2). cbn [map]. split.
      * intros [= Hbyte Hrest].
        apply hex_byte_digits in Hbyte as [-> ->]; try by apply digit_range.
        f_equal. f_equal. by apply IH.
      * intros [= -> -> Hrest]. f_equal. by apply IH.
Qed.

Lemma hexToBase64_bytes s b :
  hexToBase64 s = Ok b →
  ∃ bs, hex.Decode (bytes_of s) = Ok bs ∧ b = base64.EncodeToString bs.
Proof.
  unfold hexToBase64, hex.DecodeString. fold (bytes_of s).
  destruct (hex.Decode (bytes_of s)) as [bs |]; [| done].
  intros [= <-]. by exists bs.
Qed.

Lemma base64_EncodeToString_inj l1 l2 :
  Forall is_byte l1 → Forall is_byte l2 →
  base64.EncodeToString l1 = base64.EncodeToString l2 → l1 = l2.
Proof.
  intros H1 H2 Heq. apply base64_Encode_inj; [done | done |].
  unfold base64.EncodeToString in Heq.
  apply (f_equal String.list_ascii_of_string) in Heq.
  by rewrite !String.list_ascii_of_string_of_list_ascii in Heq.
Qed.

(** X18. [hexToBase64] loses nothing and adds nothing: two accepted texts
    have the same base64 result exactly when they spell the same sequence of
    hex digit values, so the result determines the identifier up to the
    letter case of its digits. *)
Theorem hexToBase64_injective s1 s2 b1 b2 :
  hexToBase64 s1 = Ok b1 → hexToBase64 s2 = Ok b2 →
  b1 = b2 ↔ digit_values s1 = digit_values s2.
Proof.
  intros (bs1 & Hd1 & ->)%hexToBase64_bytes (bs2 & Hd2 & ->)%hexToBase64_bytes.
  unfold digit_values. rewrite <- (hex_Decode_digits _ _ _ _ Hd1 Hd2). split.
  - apply base64_EncodeToString_inj; by eapply hex_Decode_bytes.
  - by intros ->.
Qed.

Lemma hexToBase64_injective_witness :
  "3q2+7w==" = "3q2+7w==" ↔ digit_values "deadBEEF" = digit_values "DEADbeef".
Proof.
  exact (hexToBase64_injective "deadBEEF" "DEADbeef" "3q2+7w==" "3q2+7w=="
           eq_refl eq_refl).
Defined.
